(** * ccxt async exchange: websocket subscription layer and order-book merge

    A shallow embedding of [python/ccxt/async_support/base/exchange.py]
    (class [Exchange]): the order-book merge engine, the connection
    context store, the subscription action resolver, the one-shot
    futures with their timeout, and the two batch entry points.

    Numbers.  Prices and amounts are Python numbers.  Module [OrderBook]
    takes them as Python ints ([Z]), on which [<], [>] and [==] form a
    total order and [+] is exact.  Module [Book] has the same functions
    over any numbers, through the operations the code applies to them
    ([<], [>], [==], [+], the literal [0]); Python ints and Python floats
    (IEEE 754 binary64, with NaN, infinities and signed zeros) are
    instances.
    Lists mutated by index are stdpp lists ([!!], [delete], [<[_:=_]>]).
    Python dictionaries keep insertion order; they are association lists
    with the update-in-place-or-append discipline of [dict.__setitem__]. *)

From Stdlib Require Import ZArith Lia Sorted Permutation SpecFloat.
From stdpp Require Import base list strings sorting.

Set Warnings "-register-all".

(** ** Order book merge engine

    The functions on levels of Python ints.  Module [Book] below has them
    over any numbers; on ints the two agree ([BookFacts.int_updateBidAsk],
    [BookFacts.int_updateBidAskDiff]). *)

Module OrderBook.

Local Open Scope Z_scope.

(** A price level is the two-element list [[price, amount]]. *)
Definition level : Type := Z * Z.
Definition price (lv : level) : Z := fst lv.
Definition amount (lv : level) : Z := snd lv.

(** The nested [compare] of [searchIndexToInsertOrUpdate]. *)
Definition compare (direction a b : Z) : Z :=
  if a <? b then - direction else if a >? b then direction else 0.

(** [searchIndexToInsertOrUpdate(value, orderedArray, key, descending)]:
    the first index whose keyed field compares [>= 0] with [value], or
    [len(orderedArray)]. *)
Fixpoint searchIndexToInsertOrUpdate (value : Z) (orderedArray : list level)
    (key : level -> Z) (descending : bool) : nat :=
  let direction := if descending then -1 else 1 in
  match orderedArray with
  | [] => 0%nat
  | x :: rest =>
      if compare direction (key x) value >=? 0 then 0%nat
      else S (searchIndexToInsertOrUpdate value rest key descending)
  end.

(** [list.insert(index, x)]: before position [index], at the end when
    [index] is past the end. *)
Definition list_insert_at {A} (index : nat) (x : A) (l : list A) : list A :=
  take index l ++ x :: drop index l.

(** The guard [(index < len(cur)) and (cur[index][0] == bidAsk[0])]. *)
Definition found_at (index : nat) (bidAsk : level) (cur : list level) : bool :=
  match cur !! index with
  | Some lv => price lv =? price bidAsk
  | None => false
  end.

(** [updateBidAsk(bidAsk, currentBidsAsks, bids)]: the list is mutated in
    place; the function returns its new contents. *)
Definition updateBidAsk (bidAsk : level) (currentBidsAsks : list level)
    (bids : bool) : list level :=
  let index := searchIndexToInsertOrUpdate (price bidAsk) currentBidsAsks price bids in
  if found_at index bidAsk currentBidsAsks then
    if amount bidAsk =? 0 then delete index currentBidsAsks
    else <[index := bidAsk]> currentBidsAsks
  else
    if negb (amount bidAsk =? 0) then list_insert_at index bidAsk currentBidsAsks
    else currentBidsAsks.

(** [updateBidAskDiff(bidAsk, currentBidsAsks, bids)]: the found level is
    itself mutated ([cur[index][1] = nextValue]). *)
Definition updateBidAskDiff (bidAsk : level) (currentBidsAsks : list level)
    (bids : bool) : list level :=
  let index := searchIndexToInsertOrUpdate (price bidAsk) currentBidsAsks price bids in
  match currentBidsAsks !! index with
  | Some lv =>
      if price lv =? price bidAsk then
        let nextValue := amount lv + amount bidAsk in
        if nextValue =? 0 then delete index currentBidsAsks
        else <[index := (price lv, nextValue)]> currentBidsAsks
      else
        if negb (amount bidAsk =? 0) then list_insert_at index bidAsk currentBidsAsks
        else currentBidsAsks
  | None =>
      if negb (amount bidAsk =? 0) then list_insert_at index bidAsk currentBidsAsks
      else currentBidsAsks
  end.

(** The loops [for bid in bids: self.updateBidAsk(bid, side, flag)] of
    [mergeOrderBookDelta]. *)
Definition applyDeltas (deltas : list level) (side : list level) (bids : bool)
    : list level :=
  fold_left (fun cur bidAsk => updateBidAsk bidAsk cur bids) deltas side.

(** *** The side invariant *)

(** [before bids a b]: price [a] comes strictly before price [b] on the
    side: descending for bids, ascending for asks. *)
Definition before (bids : bool) (a b : Z) : Prop :=
  if bids then a > b else a < b.

Definition level_before (bids : bool) (x y : level) : Prop :=
  before bids (price x) (price y).

Definition no_zero_amount (side : list level) : Prop :=
  Forall (fun lv => amount lv <> 0) side.

Definition side_ok (bids : bool) (side : list level) : Prop :=
  Sorted (level_before bids) side /\
  NoDup (map price side) /\
  no_zero_amount side.

(** *** Auxiliary definitions for the proofs *)

(** The level at the head, if any, is not strictly before [v]. *)
Definition stops (bids : bool) (v : Z) (l : list level) : Prop :=
  match l with
  | [] => True
  | x :: _ => ~ before bids (price x) v
  end.

(** What [updateBidAsk] leaves from the stop position on. *)
Definition place (d : level) (l2 : list level) : list level :=
  match l2 with
  | [] => if amount d =? 0 then [] else [d]
  | x :: r =>
      if price x =? price d then (if amount d =? 0 then r else d :: r)
      else (if amount d =? 0 then x :: r else d :: x :: r)
  end.

(** The same for [updateBidAskDiff]. *)
Definition place_diff (d : level) (l2 : list level) : list level :=
  match l2 with
  | [] => if amount d =? 0 then [] else [d]
  | x :: r =>
      if price x =? price d then
        (if amount x + amount d =? 0 then r
         else (price x, amount x + amount d) :: r)
      else (if amount d =? 0 then x :: r else d :: x :: r)
  end.

End OrderBook.

(** ** Python numbers *)

Module Numbers.

Local Open Scope Z_scope.

(** What the order-book functions do with a price or an amount. *)
Class Number (T : Type) : Type := {
  num_lt : T -> T -> bool;     (* [a < b] *)
  num_eq : T -> T -> bool;     (* [a == b] *)
  num_add : T -> T -> T;       (* [a + b] *)
  num_zero : T;                (* the literal [0] *)
}.

(** [a > b] *)
Definition num_gt {T} `{Number T} (a b : T) : bool := num_lt b a.

(** [a != b] *)
Definition num_ne {T} `{Number T} (a b : T) : bool := negb (num_eq a b).

(** [x == x]: false for a float NaN, true for every other number. *)
Definition is_number {T} `{Number T} (x : T) : bool := num_eq x x.

(** Python ints. *)
#[export] Instance int_number : Number Z :=
  {| num_lt := Z.ltb; num_eq := Z.eqb; num_add := Z.add; num_zero := 0 |}.

(** Python floats: IEEE 754 binary64, rounding to nearest even. *)
#[export] Instance float_number : Number spec_float :=
  {| num_lt := SFltb; num_eq := SFeqb; num_add := SFadd 53 1024;
     num_zero := S754_zero false |}.

(** [float('nan')] *)
Definition nan : spec_float := S754_nan.

(** [float(z)] for an int that a float represents. *)
Definition float_of_Z (z : Z) : spec_float := binary_normalize 53 1024 z 0 false.

(** The laws of the comparisons that ints and floats share: [<] is a
    strict order, [==] is compatible with it, and two numbers that are
    not NaN are comparable. *)
Class NumberLaws (T : Type) `{Number T} : Prop := {
  lt_trans : forall a b c : T,
    num_lt a b = true -> num_lt b c = true -> num_lt a c = true;
  lt_asym : forall a b : T, num_lt a b = true -> num_lt b a = false;
  eq_sym : forall a b : T, num_eq a b = num_eq b a;
  lt_eq_l : forall a b c : T, num_eq a b = true -> num_lt a c = num_lt b c;
  lt_eq_r : forall a b c : T, num_eq a b = true -> num_lt c a = num_lt c b;
  lt_total : forall a b : T,
    is_number a = true -> is_number b = true ->
    num_lt a b = true \/ num_eq a b = true \/ num_lt b a = true;
}.

(** *** Auxiliary definitions for the proofs *)

(** The place of a float that is not NaN in the order of the floats: the
    class (infinities, negative, zero, positive), then the exponent, then
    the mantissa. *)
Definition float_key (x : spec_float) : option (Z * Z * Z) :=
  match x with
  | S754_nan => None
  | S754_infinity s => Some (if s then -2 else 2, 0, 0)
  | S754_zero _ => Some (0, 0, 0)
  | S754_finite s m e => Some (if s then (-1, - e, - Z.pos m) else (1, e, Z.pos m))
  end.

Definition key_lt (a b : Z * Z * Z) : Prop :=
  fst (fst a) < fst (fst b) \/
  (fst (fst a) = fst (fst b) /\
   (snd (fst a) < snd (fst b) \/
    (snd (fst a) = snd (fst b) /\ snd a < snd b))).

End Numbers.

(** ** Order book merge engine, over any numbers *)

Module Book.
Import Numbers.

Local Open Scope Z_scope.

(** A price level is the two-element list [[price, amount]]. *)
Definition level (T : Type) : Type := T * T.
Definition price {T} (lv : level T) : T := fst lv.
Definition amount {T} (lv : level T) : T := snd lv.

Section Levels.

Context {T : Type} `{Number T}.

(** The nested [compare] of [searchIndexToInsertOrUpdate]. *)
Definition compare (direction : Z) (a b : T) : Z :=
  if num_lt a b then - direction else if num_gt a b then direction else 0.

(** [searchIndexToInsertOrUpdate(value, orderedArray, key, descending)] *)
Fixpoint searchIndexToInsertOrUpdate (value : T) (orderedArray : list (level T))
    (key : level T -> T) (descending : bool) : nat :=
  let direction := if descending then -1 else 1 in
  match orderedArray with
  | [] => 0%nat
  | x :: rest =>
      if compare direction (key x) value >=? 0 then 0%nat
      else S (searchIndexToInsertOrUpdate value rest key descending)
  end.

(** The guard [(index < len(cur)) and (cur[index][0] == bidAsk[0])]. *)
Definition found_at (index : nat) (bidAsk : level T) (cur : list (level T)) : bool :=
  match cur !! index with
  | Some lv => num_eq (price lv) (price bidAsk)
  | None => false
  end.

(** [updateBidAsk(bidAsk, currentBidsAsks, bids)]: the list is mutated in
    place; the function returns its new contents. *)
Definition updateBidAsk (bidAsk : level T) (currentBidsAsks : list (level T))
    (bids : bool) : list (level T) :=
  let index := searchIndexToInsertOrUpdate (price bidAsk) currentBidsAsks price bids in
  if found_at index bidAsk currentBidsAsks then
    if num_eq (amount bidAsk) num_zero then delete index currentBidsAsks
    else <[index := bidAsk]> currentBidsAsks
  else
    if num_ne (amount bidAsk) num_zero
    then OrderBook.list_insert_at index bidAsk currentBidsAsks
    else currentBidsAsks.

(** [updateBidAskDiff(bidAsk, currentBidsAsks, bids)] *)
Definition updateBidAskDiff (bidAsk : level T) (currentBidsAsks : list (level T))
    (bids : bool) : list (level T) :=
  let index := searchIndexToInsertOrUpdate (price bidAsk) currentBidsAsks price bids in
  let insert_or_keep :=
    if num_ne (amount bidAsk) num_zero
    then OrderBook.list_insert_at index bidAsk currentBidsAsks
    else currentBidsAsks in
  match currentBidsAsks !! index with
  | Some lv =>
      if num_eq (price lv) (price bidAsk) then
        let nextValue := num_add (amount lv) (amount bidAsk) in
        if num_eq nextValue num_zero then delete index currentBidsAsks
        else <[index := (price lv, nextValue)]> currentBidsAsks
      else insert_or_keep
  | None => insert_or_keep
  end.

(** The loops [for bid in bids: self.updateBidAsk(bid, side, flag)] of
    [mergeOrderBookDelta]. *)
Definition applyDeltas (deltas : list (level T)) (side : list (level T)) (bids : bool)
    : list (level T) :=
  fold_left (fun cur bidAsk => updateBidAsk bidAsk cur bids) deltas side.

(** *** The side invariant *)

(** [before bids a b]: price [a] comes strictly before price [b] on the
    side: descending for bids, ascending for asks. *)
Definition before (bids : bool) (a b : T) : bool :=
  if bids then num_gt a b else num_lt a b.

Definition level_before (bids : bool) (x y : level T) : Prop :=
  before bids (price x) (price y) = true.

(** No two levels have prices that are [==]. *)
Definition distinct_prices (side : list (level T)) : Prop :=
  ForallOrdPairs (fun x y => num_eq (price x) (price y) = false) side.

(** No level has an amount that is [== 0]. *)
Definition no_zero_amount (side : list (level T)) : Prop :=
  Forall (fun lv => num_eq (amount lv) num_zero = false) side.

Definition side_ok (bids : bool) (side : list (level T)) : Prop :=
  Sorted (level_before bids) side /\ distinct_prices side /\ no_zero_amount side.

(** No level has a NaN for its price. *)
Definition no_nan_price (side : list (level T)) : Prop :=
  Forall (fun lv => is_number (price lv) = true) side.

(** No level has a price that is [==] to [p]. *)
Definition absent (p : T) (side : list (level T)) : Prop :=
  Forall (fun lv => num_eq (price lv) p = false) side.

(** *** Auxiliary definitions for the proofs *)

(** The level at the head, if any, is not strictly before [v]. *)
Definition stops (bids : bool) (v : T) (l : list (level T)) : Prop :=
  match l with
  | [] => True
  | x :: _ => before bids (price x) v = false
  end.

(** What [updateBidAsk] leaves from the stop position on. *)
Definition place (d : level T) (l2 : list (level T)) : list (level T) :=
  match l2 with
  | [] => if num_eq (amount d) num_zero then [] else [d]
  | x :: r =>
      if num_eq (price x) (price d)
      then (if num_eq (amount d) num_zero then r else d :: r)
      else (if num_eq (amount d) num_zero then x :: r else d :: x :: r)
  end.

(** The same for [updateBidAskDiff]. *)
Definition place_diff (d : level T) (l2 : list (level T)) : list (level T) :=
  match l2 with
  | [] => if num_eq (amount d) num_zero then [] else [d]
  | x :: r =>
      if num_eq (price x) (price d) then
        (if num_eq (num_add (amount x) (amount d)) num_zero then r
         else (price x, num_add (amount x) (amount d)) :: r)
      else (if num_eq (amount d) num_zero then x :: r else d :: x :: r)
  end.

End Levels.

End Book.

(** ** Python values, exceptions and dictionaries *)

Module Py.

(** The exceptions the modelled code raises or lets escape. *)
Inductive error : Type :=
  | KeyError (key : string)
  | TypeError (msg : string)
  | IndexError (msg : string)
  | AttributeError
  | InvalidStateError
  | ExchangeError (msg : string)
  | NotSupported (msg : string)
  | TimeoutError (msg : string)
  | NetworkError (msg : string).

(** The outcome of a call: a value, or a raised exception. *)
Inductive res (A : Type) : Type :=
  | Ok (a : A)
  | Raise (e : error).
Arguments Ok {A} a.
Arguments Raise {A} e.

Definition res_bind {A B} (r : res A) (k : A -> res B) : res B :=
  match r with
  | Ok a => k a
  | Raise e => Raise e
  end.

(** Hashable keys and JSON-like values. *)
Inductive pykey : Type :=
  | KInt (z : Z)
  | KStr (s : string).

Inductive pyval : Type :=
  | VNone
  | VBool (b : bool)
  | VNum (z : Z)
  | VStr (s : string)
  | VList (items : list pyval)
  | VDict (entries : list (pykey * pyval)).

Definition pykey_eqb (a b : pykey) : bool :=
  match a, b with
  | KInt x, KInt y => (x =? y)%Z
  | KStr x, KStr y => String.eqb x y
  | _, _ => false
  end.

(** [str(v)], used in error messages only: exact for strings, [None] and
    booleans; numbers, lists and dictionaries are abbreviated. *)
Definition str (v : pyval) : string :=
  match v with
  | VStr s => s
  | VNone => "None"
  | VBool true => "True"
  | VBool false => "False"
  | VNum _ => "<number>"
  | VList _ => "<list>"
  | VDict _ => "<dict>"
  end.

(** A dictionary with string keys, in insertion order. *)
Definition dict (V : Type) : Type := list (string * V).

Fixpoint dict_get {V} (k : string) (d : dict V) : option V :=
  match d with
  | [] => None
  | (k', v) :: rest => if String.eqb k' k then Some v else dict_get k rest
  end.

(** [k in d] *)
Definition dict_mem {V} (k : string) (d : dict V) : bool :=
  match dict_get k d with Some _ => true | None => false end.

(** [d[k] = v]: in place when the key exists, appended otherwise. *)
Fixpoint dict_set {V} (k : string) (v : V) (d : dict V) : dict V :=
  match d with
  | [] => [(k, v)]
  | (k', v') :: rest =>
      if String.eqb k' k then (k', v) :: rest else (k', v') :: dict_set k v rest
  end.

(** [del d[k]] for a key that is present. *)
Fixpoint dict_del {V} (k : string) (d : dict V) : dict V :=
  match d with
  | [] => []
  | (k', v') :: rest =>
      if String.eqb k' k then rest else (k', v') :: dict_del k rest
  end.

Definition dict_keys {V} (d : dict V) : list string := map fst d.

(** [d.update(other)], the step of [extend]. *)
Definition dict_update {V} (d other : dict V) : dict V :=
  fold_left (fun acc kv => dict_set (fst kv) (snd kv) acc) other d.

(** [d[k]], raising [KeyError]. *)
Definition dict_item {V} (k : string) (d : dict V) : res V :=
  match dict_get k d with
  | Some v => Ok v
  | None => Raise (KeyError k)
  end.

(** Well-formed dictionaries have each key once. *)
Definition dict_wf {V} (d : dict V) : Prop := NoDup (dict_keys d).

End Py.

(** ** Wire shapes of an order-book delta message *)

Module Wire.
Import Py OrderBook.

(** [==] between a key and a value: only scalars of the same kind are
    equal (and [0 == False], [1 == True]). *)
Definition val_eq_key (key : pykey) (v : pyval) : bool :=
  match key, v with
  | KInt z, VNum z' => (z =? z')%Z
  | KInt z, VBool b => (z =? (if b then 1 else 0))%Z
  | KStr s, VStr s' => String.eqb s s'
  | _, _ => false
  end.

(** [key in container]: key membership for a dict, element membership
    for a list, substring test for a string; other values are not
    iterable. *)
Definition py_in (key : pykey) (container : pyval) : res bool :=
  match container with
  | VDict entries => Ok (existsb (fun kv => pykey_eqb (fst kv) key) entries)
  | VList items => Ok (existsb (val_eq_key key) items)
  | VStr s =>
      match key with
      | KStr k => Ok (match String.index 0 k s with Some _ => true | None => false end)
      | KInt _ => Raise (TypeError "'in <string>' requires string as left operand")
      end
  | _ => Raise (TypeError "argument is not iterable")
  end.

(** [key in bidask], for an entry on which [in] does not raise. *)
Definition has_key (key : pykey) (bidask : pyval) : bool :=
  match py_in key bidask with
  | Ok b => b
  | Raise _ => false
  end.

Definition has_both (price_key amount_key : pykey) (bidask : pyval) : bool :=
  has_key price_key bidask && has_key amount_key bidask.

Definition is_dict (v : pyval) : Prop :=
  match v with
  | VDict _ => True
  | _ => False
  end.

Definition is_list (v : pyval) : Prop :=
  match v with
  | VList _ => True
  | _ => False
  end.

(** The list is empty or its first entry is a list. *)
Definition first_is_list (bidasks : list pyval) : Prop :=
  match bidasks with
  | [] => True
  | first :: _ => is_list first
  end.

(** [container[key]] *)
Definition subscript (container : pyval) (key : pykey) : res pyval :=
  match container, key with
  | VList items, KInt z =>
      let n := Z.of_nat (length items) in
      let i := (if z <? 0 then z + n else z)%Z in
      if ((0 <=? i) && (i <? n))%Z then
        match items !! Z.to_nat i with
        | Some v => Ok v
        | None => Raise (IndexError "list index out of range")
        end
      else Raise (IndexError "list index out of range")
  | VList _, KStr _ => Raise (TypeError "list indices must be integers")
  | VDict entries, _ =>
      match find (fun kv => pykey_eqb (fst kv) key) entries with
      | Some kv => Ok (snd kv)
      | None => Raise (KeyError (match key with KStr k => k | KInt _ => "<int>" end))
      end
  | _, _ => Raise (TypeError "object is not subscriptable")
  end.

(** Modelled from the spec: [parse_bid_ask] lives in ccxt/base/exchange.py,
    which is not among the sources; it normalizes one wire entry into a
    (price, amount) pair by reading [price_key] and [amount_key].  Only
    numeric fields are converted here. *)
Definition parse_bid_ask_base (bidask : pyval) (price_key amount_key : pykey)
    : res level :=
  let number v :=
    match v with
    | VNum z => Ok z
    | _ => Raise (TypeError "float() argument must be a number")
    end in
  res_bind (subscript bidask price_key) (fun p =>
  res_bind (number p) (fun pz =>
  res_bind (subscript bidask amount_key) (fun a =>
  res_bind (number a) (fun az => Ok (pz, az))))).

Section Parse.

(** The entry normalizer and the timestamp formatter of the base class. *)
Variable parse_bid_ask : pyval -> pykey -> pykey -> res level.
Variable iso8601 : Z -> string.

(** The loop of the array-of-arrays branch. *)
Fixpoint parse_each (bidasks : list pyval) (price_key amount_key : pykey)
    : res (list level) :=
  match bidasks with
  | [] => Ok []
  | bidask :: rest =>
      res_bind (parse_bid_ask bidask price_key amount_key) (fun lv =>
      res_bind (parse_each rest price_key amount_key) (fun lvs => Ok (lv :: lvs)))
  end.

(** The loop of the array-of-objects branch: an entry is parsed only when
    both keys are [in] it. *)
Fixpoint parse_each_keyed (bidasks : list pyval) (price_key amount_key : pykey)
    : res (list level) :=
  match bidasks with
  | [] => Ok []
  | bidask :: rest =>
      res_bind (py_in price_key bidask) (fun has_price =>
      res_bind (if has_price then py_in amount_key bidask else Ok false) (fun has_both =>
      if has_both then
        res_bind (parse_bid_ask bidask price_key amount_key) (fun lv =>
        res_bind (parse_each_keyed rest price_key amount_key) (fun lvs => Ok (lv :: lvs)))
      else parse_each_keyed rest price_key amount_key))
  end.

(** [parse_bids_asks2(bidasks, price_key, amount_key)] *)
Definition parse_bids_asks2 (bidasks : list pyval) (price_key amount_key : pykey)
    : res (list level) :=
  match bidasks with
  | [] => Ok []
  | VList _ :: _ => parse_each bidasks price_key amount_key
  | VDict _ :: _ => parse_each_keyed bidasks price_key amount_key
  | first :: _ => Raise (ExchangeError ("unrecognized bidask format: " +:+ str first))
  end.

(** The maintained order book. *)
Record order_book : Type := {
  ob_bids : list level;
  ob_asks : list level;
  ob_timestamp : option Z;
  ob_datetime : option string;
  ob_nonce : pyval;
}.

(** One side of the message: parsed when the key is present and holds a
    list, empty otherwise. *)
Definition parse_side (orderbook : dict pyval) (side_key : string)
    (price_key amount_key : pykey) : res (list level) :=
  match dict_get side_key orderbook with
  | Some (VList bidasks) => parse_bids_asks2 bidasks price_key amount_key
  | _ => Ok []
  end.

(** [mergeOrderBookDelta(currentOrderBook, orderbook, timestamp, bids_key,
    asks_key, price_key, amount_key)] *)
Definition mergeOrderBookDelta (currentOrderBook : order_book)
    (orderbook : dict pyval) (timestamp : option Z) (bids_key asks_key : string)
    (price_key amount_key : pykey) : res order_book :=
  res_bind (parse_side orderbook bids_key price_key amount_key) (fun bids =>
  res_bind (parse_side orderbook asks_key price_key amount_key) (fun asks =>
  Ok {| ob_bids := applyDeltas bids (ob_bids currentOrderBook) true;
        ob_asks := applyDeltas asks (ob_asks currentOrderBook) false;
        ob_timestamp := timestamp;
        ob_datetime := option_map iso8601 timestamp;
        ob_nonce := ob_nonce currentOrderBook |})).

End Parse.

End Wire.

(** ** Connection context store *)

Module Store.
Import Py.

(** [websocketContexts[conxid]['events'][event][symbol]]: the keys
    ['subscribed'], ['subscribing'] and ['data'] are always there, ['params']
    only once [_contextSetSubscribed] has run. *)
Record symbol_context : Type := {
  subscribed : bool;
  subscribing : bool;
  data : pyval;
  sc_params : option pyval;
}.

(** The [WebsocketConnection] collaborator, seen through its interface:
    the configuration it was built with and whether it is active. *)
Record connection : Type := {
  options : dict pyval;
  active : bool;
}.

(** The connection info dictionary built by [_websocket_initialize]. *)
Record conx_info : Type := {
  auth : bool;
  ready : bool;
  conx : connection;
}.

(** [websocketContexts[conxid]] *)
Record context : Type := {
  scratch : dict pyval;                      (* '_' *)
  conx_tpl : option string;                  (* 'conx-tpl' *)
  events : dict (dict symbol_context);       (* 'events' *)
  info : option conx_info;                   (* 'conx' *)
}.

(** [websocketDelayedConnections[conxid]] *)
Record delayed : Type := {
  conxtpl : string;
  reset : bool;
}.

(** What the outside sees of a run, in the order it happens. *)
Inductive obs : Type :=
  | ObsResolve (event symbol : string) (subscription : bool)
  | ObsClose (conxid : string)
  | ObsConnect (conxid : string)
  | ObsFlush
  | ObsSend (conxid event symbol : string) (subscription : bool)
  | ObsAwait (conxid event symbol : string)
  | ObsErr (e : error).

(** The mutable part of [self].  [log] is a ghost field: the observable
    actions so far, oldest first. *)
Record exchange : Type := {
  websocketContexts : dict context;
  websocketDelayedConnections : dict delayed;
  log : list obs;
}.

(** The state [__init__] leaves: no context, no delayed connection. *)
Definition init : exchange :=
  {| websocketContexts := []; websocketDelayedConnections := []; log := [] |}.

Definition set_contexts (c : dict context) (self : exchange) : exchange :=
  {| websocketContexts := c;
     websocketDelayedConnections := websocketDelayedConnections self;
     log := log self |}.

Definition set_delayed (d : dict delayed) (self : exchange) : exchange :=
  {| websocketContexts := websocketContexts self;
     websocketDelayedConnections := d;
     log := log self |}.

Definition add_log (o : obs) (self : exchange) : exchange :=
  {| websocketContexts := websocketContexts self;
     websocketDelayedConnections := websocketDelayedConnections self;
     log := log self ++ [o] |}.

(** An entry of the list built by
    [_websocketContextGetSubscribedEventSymbols], and a request of
    [websocket_subscribe_all]; the ['params'] key may be missing. *)
Record event_symbol : Type := {
  es_event : string;
  es_symbol : string;
  es_params : option pyval;
}.

(** *** Reads *)

Definition _contextGetEvents (self : exchange) (conxid : string)
    : res (dict (dict symbol_context)) :=
  res_bind (dict_item conxid (websocketContexts self)) (fun c => Ok (events c)).

Definition _contextGetSymbols (self : exchange) (conxid event : string)
    : res (dict symbol_context) :=
  res_bind (_contextGetEvents self conxid) (fun evs => dict_item event evs).

Definition _contextGetConxTpl (self : exchange) (conxid : string)
    : res (option string) :=
  res_bind (dict_item conxid (websocketContexts self)) (fun c => Ok (conx_tpl c)).

(** [None] when the context has no connection info yet. *)
Definition _contextGetConnection (self : exchange) (conxid : string)
    : res (option connection) :=
  res_bind (dict_item conxid (websocketContexts self)) (fun c =>
  Ok (option_map conx (info c))).

(** The three conjuncts of the Python [and] chain, each re-reading the
    store from the top. *)
Definition _contextIsSubscribed (self : exchange) (conxid event symbol : string)
    : res bool :=
  res_bind (_contextGetEvents self conxid) (fun evs =>
  if negb (dict_mem event evs) then Ok false else
  res_bind (_contextGetSymbols self conxid event) (fun syms =>
  if negb (dict_mem symbol syms) then Ok false else
  res_bind (dict_item symbol syms) (fun sc => Ok (subscribed sc)))).

Definition _contextIsSubscribing (self : exchange) (conxid event symbol : string)
    : res bool :=
  res_bind (_contextGetEvents self conxid) (fun evs =>
  if negb (dict_mem event evs) then Ok false else
  res_bind (_contextGetSymbols self conxid event) (fun syms =>
  if negb (dict_mem symbol syms) then Ok false else
  res_bind (dict_item symbol syms) (fun sc => Ok (subscribing sc)))).

(** The symbol context stored under a connection, an event and a symbol,
    if there is one. *)
Definition symbol_of (self : exchange) (conxid event symbol : string)
    : option symbol_context :=
  match dict_get conxid (websocketContexts self) with
  | Some c =>
      match dict_get event (events c) with
      | Some syms => dict_get symbol syms
      | None => None
      end
  | None => None
  end.

(** The inner loop of [_websocketContextGetSubscribedEventSymbols]. *)
Definition subscribed_symbols (key : string) (symbols : dict symbol_context)
    : list event_symbol :=
  flat_map (fun entry =>
    let symbol_context := snd entry in
    if subscribed symbol_context || subscribing symbol_context then
      [{| es_event := key;
          es_symbol := fst entry;
          es_params := Some (match sc_params symbol_context with
                             | Some params => params
                             | None => VDict []
                             end) |}]
    else []) symbols.

Definition _websocketContextGetSubscribedEventSymbols (self : exchange)
    (conxid : string) : res (list event_symbol) :=
  res_bind (_contextGetEvents self conxid) (fun evs =>
  Ok (flat_map (fun entry => subscribed_symbols (fst entry) (snd entry)) evs)).

(** *** A state-and-exception monad over [self]

    A raised exception keeps the mutations made before it. *)

Definition M (A : Type) : Type := exchange -> res A * exchange.

Definition ret {A} (a : A) : M A := fun self => (Ok a, self).

Definition raise {A} (e : error) : M A := fun self => (Raise e, self).

Definition bind {A B} (m : M A) (k : A -> M B) : M B := fun self =>
  match m self with
  | (Ok a, self') => k a self'
  | (Raise e, self') => (Raise e, self')
  end.

(** A read of the store, or any pure call that may raise. *)
Definition read {A} (f : exchange -> res A) : M A := fun self => (f self, self).

Definition modify (f : exchange -> exchange) : M unit := fun self => (Ok tt, f self).

Definition observe (o : obs) : M unit := modify (add_log o).

(** [try: body finally: cleanup] *)
Definition try_finally {A} (body : M A) (cleanup : M unit) : M A := fun self =>
  match body self with
  | (r, self') =>
      match cleanup self' with
      | (Ok _, self'') => (r, self'')
      | (Raise e, self'') => (Raise e, self'')
      end
  end.

(** [for x in xs: body(x)] *)
Fixpoint for_each {A} (xs : list A) (body : A -> M unit) : M unit :=
  match xs with
  | [] => ret tt
  | x :: rest => bind (body x) (fun _ => for_each rest body)
  end.

Declare Scope exchange_scope.
Delimit Scope exchange_scope with exchange.
Notation "'do' x <- m ; k" := (bind m (fun x => k))
  (at level 10, x name, m at level 100, k at level 200) : exchange_scope.
Notation "'run' m ; k" := (bind m (fun _ => k))
  (at level 10, m at level 100, k at level 200) : exchange_scope.
Local Open Scope exchange_scope.

(** *** Writes *)

(** An assignment below [websocketContexts[conxid]]. *)
Definition update_context (conxid : string) (f : context -> res context) : M unit :=
  fun self =>
    match dict_get conxid (websocketContexts self) with
    | None => (Raise (KeyError conxid), self)
    | Some c =>
        match f c with
        | Raise e => (Raise e, self)
        | Ok c' =>
            (Ok tt, set_contexts (dict_set conxid c' (websocketContexts self)) self)
        end
    end.

Definition set_events (evs : dict (dict symbol_context)) (c : context) : context :=
  {| scratch := scratch c; conx_tpl := conx_tpl c; events := evs; info := info c |}.

Definition set_info (i : option conx_info) (c : context) : context :=
  {| scratch := scratch c; conx_tpl := conx_tpl c; events := events c; info := i |}.

(** An assignment below [websocketContexts[conxid]['events'][event]]. *)
Definition update_symbols (conxid event : string)
    (f : dict symbol_context -> res (dict symbol_context)) : M unit :=
  update_context conxid (fun c =>
    res_bind (dict_item event (events c)) (fun syms =>
    res_bind (f syms) (fun syms' =>
    Ok (set_events (dict_set event syms' (events c)) c)))).

(** An assignment to keys of
    [websocketContexts[conxid]['events'][event][symbol]]. *)
Definition update_symbol (conxid event symbol : string)
    (f : symbol_context -> symbol_context) : M unit :=
  update_symbols conxid event (fun syms =>
    res_bind (dict_item symbol syms) (fun sc => Ok (dict_set symbol (f sc) syms))).

Definition _contextSetConnectionInfo (conxid : string) (i : conx_info) : M unit :=
  update_context conxid (fun c => Ok (set_info (Some i) c)).

Definition _contextResetEvent (conxid event : string) : M unit :=
  update_context conxid (fun c => Ok (set_events (dict_set event [] (events c)) c)).

Definition _contextResetSymbol (conxid event symbol : string) : M unit :=
  update_symbols conxid event (fun syms =>
    Ok (dict_set symbol
          {| subscribed := false; subscribing := false;
             data := VDict []; sc_params := None |} syms)).

Definition _contextSetSubscribed (conxid event symbol : string) (value : bool)
    (params : pyval) : M unit :=
  update_symbol conxid event symbol (fun sc =>
    {| subscribed := value; subscribing := subscribing sc;
       data := data sc; sc_params := Some params |}).

Definition _contextSetSubscribing (conxid event symbol : string) (value : bool)
    : M unit :=
  update_symbol conxid event symbol (fun sc =>
    {| subscribed := subscribed sc; subscribing := value;
       data := data sc; sc_params := sc_params sc |}).

(** The body of the double loop of [_websocket_reset_context]. *)
Definition reset_symbol_context (sc : symbol_context) : symbol_context :=
  {| subscribed := false; subscribing := false;
     data := VDict []; sc_params := sc_params sc |}.

Definition reset_events (evs : dict (dict symbol_context))
    : dict (dict symbol_context) :=
  map (fun entry =>
         (fst entry,
          map (fun sentry => (fst sentry, reset_symbol_context (snd sentry)))
              (snd entry))) evs.

(** [_websocket_reset_context(conxid, conxtpl)] *)
Definition _websocket_reset_context (conxid : string) (conxtpl : option string)
    : M unit :=
  fun self =>
    if negb (dict_mem conxid (websocketContexts self)) then
      (Ok tt,
       set_contexts
         (dict_set conxid
            {| scratch := []; conx_tpl := conxtpl; events := []; info := None |}
            (websocketContexts self)) self)
    else
      update_context conxid (fun c => Ok (set_events (reset_events (events c)) c)) self.

End Store.

(** ** Subscription action resolver *)

Module Resolver.
Import Py Store.

(** [wsconf['events'][event]]: the keys ['conx-tpl'] and ['conx-param'],
    either of which may be missing. *)
Record event_conf : Type := {
  ec_conx_tpl : option string;
  ec_conx_param : option (dict string);
}.

(** [self.wsconf] *)
Record wsconf_t : Type := {
  ws_events : option (dict event_conf);        (* 'events' *)
  ws_conx_tpls : option (dict (dict pyval));   (* 'conx-tpls' *)
}.

(** What the transport delivers for an awaited one-shot event: a callback
    with [success] true, a callback with [success] false and maybe an
    exception, or nothing before the timeout. *)
Inductive ack : Type :=
  | AckSuccess
  | AckFailure (ex : option error)
  | NoAck.

(** The parts of [self] that the modelled methods only read, the helpers
    of the base class, the per-exchange hooks, and the behaviour of the
    transport during one call.  [ack_of i] is what the transport delivers
    for the [i]-th future the call awaits. *)
Record env : Type := {
  exchange_id : string;                        (* self.id *)
  wsconf : wsconf_t;
  verbose : pyval;
  proxies : option pyval;
  timeout : Z;
  implode_params : string -> dict pyval -> string;
  _websocket_generate_url_stream :
    list event_symbol -> dict pyval -> pyval -> res pyval;
  _websocket_subscribe : string -> string -> string -> pyval -> res unit;
  _websocket_unsubscribe : string -> string -> string -> pyval -> res unit;
  load_markets : res unit;
  connect : string -> res unit;
  ready_event : string -> ack;
  ack_of : nat -> ack;
}.

(** The dictionary returned by [_websocket_get_action_for_event]. *)
Record action : Type := {
  act : string;                  (* 'action' *)
  conx_config : dict pyval;      (* 'conx-config' *)
  reset_context : string;        (* 'reset-context' *)
  act_conx_tpl : string;         (* 'conx-tpl' *)
}.

Definition is_str (v : pyval) (s : string) : bool :=
  match v with
  | VStr s' => String.eqb s' s
  | _ => false
  end.

(** [self.wsconf['events']] and [self.wsconf['conx-tpls']] *)
Definition wsconf_events (E : env) : res (dict event_conf) :=
  match ws_events (wsconf E) with
  | Some evs => Ok evs
  | None => Raise (KeyError "events")
  end.

Definition wsconf_conx_tpls (E : env) : res (dict (dict pyval)) :=
  match ws_conx_tpls (wsconf E) with
  | Some tpls => Ok tpls
  | None => Raise (KeyError "conx-tpls")
  end.

(** [_websocketValidEvent(event)] *)
Definition _websocketValidEvent (E : env) (event : string) : bool :=
  match ws_events (wsconf E) with
  | Some evs => dict_mem event evs
  | None => false
  end.

(** [_websocketGetConxid4Event(event, symbol)]: the pair
    [(conxid, conxtpl)]. *)
Definition _websocketGetConxid4Event (E : env) (event symbol : string)
    : res (string * string) :=
  res_bind (wsconf_events E) (fun evs =>
  let eventConf := dict_get event evs in
  let conxParam :=
    match eventConf with
    | Some ec => default [("id", "{id}")] (ec_conx_param ec)
    | None => [("id", "{id}")]
    end in
  res_bind (dict_item "id" conxParam) (fun id_pattern =>
  match eventConf with
  | None => Raise (TypeError "'NoneType' object is not subscriptable")
  | Some ec =>
      match ec_conx_tpl ec with
      | None => Raise (KeyError "conx-tpl")
      | Some tpl =>
          Ok (implode_params E id_pattern
                [("event", VStr event); ("symbol", VStr symbol); ("id", VStr tpl)],
              tpl)
      end
  end)).

(** The loop [for i in range(len(subscribed))] that deletes the first
    entry with this event and symbol. *)
Fixpoint remove_first (event symbol : string) (subscribed : list event_symbol)
    : list event_symbol :=
  match subscribed with
  | [] => []
  | element :: rest =>
      if String.eqb (es_event element) event && String.eqb (es_symbol element) symbol
      then rest
      else element :: remove_first event symbol rest
  end.

Definition mk_action (a : string) (config : dict pyval) (r tpl : string)
    : res (option action) :=
  Ok (Some {| act := a; conx_config := config; reset_context := r;
              act_conx_tpl := tpl |}).

(** The ['ws-s'] branch of [_websocket_get_action_for_event]. *)
Definition stream_action (E : env) (self : exchange) (config : dict pyval)
    (conx_tpl_name event symbol : string) (subscription : bool)
    (subscription_params : pyval) : res (option action) :=
  res_bind (dict_item "id" config) (fun config_id =>
  res_bind (match config_id with
            | VStr cid => _websocketContextGetSubscribedEventSymbols self cid
            | other => Raise (KeyError (str other))
            end) (fun subscribed =>
  if subscription then
    let subscribed :=
      subscribed ++ [{| es_event := event; es_symbol := symbol; es_params := None |}] in
    res_bind (_websocket_generate_url_stream E subscribed config subscription_params)
      (fun url =>
    mk_action "reconnect" (dict_set "url" url config) "onreconnect" conx_tpl_name)
  else
    let subscribed := remove_first event symbol subscribed in
    if (length subscribed =? 0)%nat then
      mk_action "disconnect" config "always" conx_tpl_name
    else
      res_bind (_websocket_generate_url_stream E subscribed config subscription_params)
        (fun url =>
      mk_action "reconnect" (dict_set "url" url config) "onreconnect" conx_tpl_name))).

(** The configuration of the connection: the template, overridden by the
    imploded ['conx-param'] entries. *)
Definition build_config (E : env) (conx_tpl : dict pyval) (conxParam : dict string)
    (conx_tpl_name event symbol : string) : dict pyval :=
  let params :=
    dict_update (dict_update [] conx_tpl)
      [("event", VStr event); ("symbol", VStr symbol); ("id", VStr conx_tpl_name)] in
  fold_left
    (fun config entry =>
       dict_set (fst entry) (VStr (implode_params E (snd entry) params)) config)
    conxParam (dict_update [] conx_tpl).

(** The default of [safe_value(event_conf, 'conx-param', ...)]. *)
Definition default_conx_param : dict string :=
  [("url", "{baseurl}"); ("id", "{id}"); ("stream", "{symbol}")].

(** [_websocket_get_action_for_event(conxid, event, symbol, subscription,
    subscription_params)]; [None] is "no action". *)
Definition _websocket_get_action_for_event (E : env) (self : exchange)
    (conxid event symbol : string) (subscription : bool)
    (subscription_params : pyval) : res (option action) :=
  res_bind (_contextIsSubscribed self conxid event symbol) (fun isSubscribed =>
  res_bind (_contextIsSubscribing self conxid event symbol) (fun isSubscribing =>
  if subscription && (isSubscribed || isSubscribing) then Ok None
  else if negb subscription && (negb isSubscribed && negb isSubscribing) then Ok None
  else
  res_bind (wsconf_events E) (fun evs =>
  match dict_get event evs with
  | None =>
      Raise (ExchangeError ("invalid websocket configuration for event: "
                            +:+ event +:+ " in exchange: " +:+ exchange_id E))
  | Some event_conf =>
  let conx_tpl_name := default "default" (ec_conx_tpl event_conf) in
  res_bind (wsconf_conx_tpls E) (fun tpls =>
  match dict_get conx_tpl_name tpls with
  | None =>
      Raise (ExchangeError ("tpl websocket conexion: " +:+ conx_tpl_name
                            +:+ " does not exist in exchange: " +:+ exchange_id E))
  | Some conx_tpl =>
  let conxParam := default default_conx_param (ec_conx_param event_conf) in
  let config := build_config E conx_tpl conxParam conx_tpl_name event symbol in
  if negb (dict_mem "id" config && dict_mem "url" config && dict_mem "type" config)
  then Raise (ExchangeError ("invalid websocket configuration in exchange: " +:+ exchange_id E))
  else
  res_bind (dict_item "type" config) (fun type =>
  if is_str type "signalr" then mk_action "connect" config "onconnect" conx_tpl_name
  else if is_str type "ws-io" then mk_action "connect" config "onconnect" conx_tpl_name
  else if is_str type "pusher" then mk_action "connect" config "onconnect" conx_tpl_name
  else if is_str type "ws" then mk_action "connect" config "onconnect" conx_tpl_name
  else if is_str type "ws-s" then
    stream_action E self config conx_tpl_name event symbol subscription
      subscription_params
  else
    match type with
    | VStr t =>
        Raise (NotSupported ("invalid websocket connection: " +:+ t
                             +:+ " for exchange " +:+ exchange_id E))
    | _ => Raise (TypeError "can only concatenate str to str")
    end)
  end)
  end))).

(** *** Auxiliary definitions for the statements *)

(** The request for [event] and [symbol] resolves to an aggregate-stream
    connection: the event is configured, its template exists, the
    configuration built from them has the keys ['id'], ['url'] and ['type'],
    its type is ['ws-s'], its id is the string [cid], and the context of
    [cid] exists and lists [subscribed] as subscribed or subscribing. *)
Definition resolves_to_stream (E : env) (self : exchange) (event symbol : string)
    (conx_tpl_name : string) (config : dict pyval) (cid : string)
    (subscribed : list event_symbol) : Prop :=
  exists evs event_conf tpls conx_tpl,
    wsconf_events E = Ok evs /\
    dict_get event evs = Some event_conf /\
    conx_tpl_name = default "default" (ec_conx_tpl event_conf) /\
    wsconf_conx_tpls E = Ok tpls /\
    dict_get conx_tpl_name tpls = Some conx_tpl /\
    config = build_config E conx_tpl
               (default default_conx_param (ec_conx_param event_conf))
               conx_tpl_name event symbol /\
    dict_mem "url" config = true /\
    dict_get "type" config = Some (VStr "ws-s") /\
    dict_get "id" config = Some (VStr cid) /\
    _websocketContextGetSubscribedEventSymbols self cid = Ok subscribed.

Definition pair_of (es : event_symbol) : string * string :=
  (es_event es, es_symbol es).

(** The dictionaries of a context have each key once. *)
Definition context_wf (c : context) : Prop :=
  dict_wf (events c) /\ Forall (fun entry => dict_wf (snd entry)) (events c).

(** The facts of an action that every branch of the resolver provides. *)
Definition well_shaped (subscription : bool) (a : action) : Prop :=
  ((act a = "connect" /\ reset_context a = "onconnect") \/
   (act a = "reconnect" /\ reset_context a = "onreconnect" /\
    dict_get "type" (conx_config a) = Some (VStr "ws-s")) \/
   (act a = "disconnect" /\ reset_context a = "always" /\ subscription = false /\
    dict_get "type" (conx_config a) = Some (VStr "ws-s"))) /\
  dict_mem "id" (conx_config a) = true /\
  dict_mem "url" (conx_config a) = true /\
  dict_mem "type" (conx_config a) = true.

End Resolver.

(** ** Pending operations: one-shot futures with a timeout *)

Module Pending.
Import Py Store Resolver.
Local Open Scope exchange_scope.

(** An [asyncio.Future]. *)
Inductive future : Type :=
  | Unresolved
  | Result (value : pyval)
  | Exception (e : error).

Definition done (f : future) : bool :=
  match f with
  | Unresolved => false
  | _ => true
  end.

(** [set_result] and [set_exception] raise on a future that is done. *)
Definition set_result (f : future) (value : pyval) : res future :=
  if done f then Raise InvalidStateError else Ok (Result value).

Definition set_exception (f : future) (e : error) : res future :=
  if done f then Raise InvalidStateError else Ok (Exception e).

(** [future.done() or future.set_result(value)] *)
Definition done_or_set_result (f : future) (value : pyval) : res future :=
  if done f then Ok f else set_result f value.

(** [future.done() or future.set_exception(e)] *)
Definition done_or_set_exception (f : future) (e : error) : res future :=
  if done f then Ok f else set_exception f e.

(** The lambda that [timeout_future(future, scope)] hands to
    [call_later]. *)
Definition timeout_callback (scope : string) (f : future) : res future :=
  done_or_set_exception f (TimeoutError ("timeout in scope: " +:+ scope)).

(** The callback [wait4obsubscribe(success, ex)] of
    [websocket_subscribe_all]. *)
Definition wait4obsubscribe (E : env) (conxid event symbol : string)
    (params : pyval) (success : bool) (ex : option error) (f : future) : M future :=
  if success then
    run _contextSetSubscribed conxid event symbol true params;
    run _contextSetSubscribing conxid event symbol false;
    read (fun _ => done_or_set_result f (VStr conxid))
  else
    run _contextSetSubscribed conxid event symbol false (VDict []);
    run _contextSetSubscribing conxid event symbol false;
    let ex := default (ExchangeError ("error subscribing to " +:+ event +:+ "("
                                      +:+ symbol +:+ ") in " +:+ exchange_id E)) ex in
    read (fun _ => done_or_set_exception f ex).

(** The callback [wait4obunsubscribe(success, ex)] of
    [websocket_unsubscribe_all]. *)
Definition wait4obunsubscribe (E : env) (conxid event symbol : string)
    (success : bool) (ex : option error) (f : future) : M future :=
  if success then
    run _contextSetSubscribed conxid event symbol false (VDict []);
    run _contextSetSubscribing conxid event symbol false;
    read (fun _ => done_or_set_result f (VBool true))
  else
    let ex := default (ExchangeError ("error unsubscribing to " +:+ event +:+ "("
                                      +:+ symbol +:+ ") in " +:+ exchange_id E)) ex in
    read (fun _ => done_or_set_exception f ex).

(** [await future], for a future on which [timeout_future] armed the
    timer: a future still unresolved when the timer runs gets the timeout
    exception, which the [await] then raises. *)
Definition await (scope : string) (f : future) : res pyval :=
  match f with
  | Result value => Ok value
  | Exception e => Raise e
  | Unresolved => Raise (TimeoutError ("timeout in scope: " +:+ scope))
  end.

(** The transport runs a callback inside the [try] of
    [websocket_connection_message]: what the callback raises is emitted
    as an ['err'] event and the future stays as it was. *)
Definition guarded (callback : future -> M future) (f : future) : M future :=
  fun self =>
    match callback f self with
    | (Ok f', self') => (Ok f', self')
    | (Raise e, self') => (Ok f, add_log (ObsErr e) self')
    end.

(** What the transport delivers while the caller awaits. *)
Definition deliver (a : ack) (callback : bool -> option error -> future -> M future)
    (f : future) : M future :=
  match a with
  | AckSuccess => guarded (callback true None) f
  | AckFailure ex => guarded (callback false ex) f
  | NoAck => ret f
  end.

(** *** The event loop around one pending operation *)

(** One pending operation: its future, whether the [once] handler is
    still registered, and the deadline of the timer while it is armed. *)
Record pending : Type := {
  fut : future;
  handler : bool;
  timer : option Z;
}.

Inductive loop_event : Type :=
  | Emit (success : bool) (ex : option error)   (* the one-shot event is emitted *)
  | Tick (now : Z).                             (* the clock of the loop reaches [now] *)

(** [future = asyncio.Future()], [@self.once(oidstr)], then
    [self.timeout_future(future, scope)] at time [now]; the timeout is in
    milliseconds, as is the clock. *)
Definition new_pending (E : env) (now : Z) : pending :=
  {| fut := Unresolved; handler := true; timer := Some (now + timeout E)%Z |}.

(** A [once] handler is removed when its event is first emitted; the timer
    runs once, when the clock has reached its deadline. *)
Definition loop_step (scope : string)
    (callback : bool -> option error -> future -> M future)
    (ev : loop_event) (p : pending) : M pending :=
  match ev with
  | Emit success ex =>
      if handler p then
        do f <- guarded (callback success ex) (fut p);
        ret {| fut := f; handler := false; timer := timer p |}
      else ret p
  | Tick now =>
      match timer p with
      | Some deadline =>
          if (deadline <=? now)%Z then
            do f <- read (fun _ => timeout_callback scope (fut p));
            ret {| fut := f; handler := handler p; timer := None |}
          else ret p
      | None => ret p
      end
  end.

Fixpoint loop_run (scope : string)
    (callback : bool -> option error -> future -> M future)
    (evs : list loop_event) (p : pending) : M pending :=
  match evs with
  | [] => ret p
  | ev :: rest =>
      do p' <- loop_step scope callback ev p;
      loop_run scope callback rest p'
  end.

(** The two kinds of pending operation, with the callback and the timeout
    scope each registers. *)
Inductive operation : Type :=
  | OpSubscribe (params : pyval)
  | OpUnsubscribe.

Definition callback_of (E : env) (conxid event symbol : string) (op : operation)
    : bool -> option error -> future -> M future :=
  match op with
  | OpSubscribe params => wait4obsubscribe E conxid event symbol params
  | OpUnsubscribe => wait4obunsubscribe E conxid event symbol
  end.

Definition scope_of (op : operation) : string :=
  match op with
  | OpSubscribe _ => "websocket_subscribe"
  | OpUnsubscribe => "websocket_unsubscribe"
  end.

Definition pending_run (E : env) (conxid event symbol : string) (op : operation)
    (evs : list loop_event) (p : pending) : M pending :=
  loop_run (scope_of op) (callback_of E conxid event symbol op) evs p.

(** The log grew, and only by ['err'] events that carry a [KeyError]. *)
Definition only_key_errors_added (old new : list obs) : Prop :=
  exists added, new = old ++ added /\
    Forall (fun o => exists k, o = ObsErr (KeyError k)) added.

(** The timer of deadline [d] is armed, or it has run and the future is
    done. *)
Definition timer_inv (d : Z) (p : pending) : Prop :=
  timer p = Some d \/ (timer p = None /\ done (fut p) = true).

(** No callback has run: the future is unresolved with the timer armed,
    or the timer has resolved it. *)
Definition quiet_inv (d : Z) (scope : string) (p : pending) : Prop :=
  (fut p = Unresolved /\ timer p = Some d) \/
  fut p = Exception (TimeoutError ("timeout in scope: " +:+ scope)).

(** Whether an acknowledgement callback is emitted among the events. *)
Definition is_emit (ev : loop_event) : bool :=
  match ev with
  | Emit _ _ => true
  | Tick _ => false
  end.

End Pending.

(** ** Subscription orchestrator *)

Module Orchestrator.
Import Py Store Resolver Pending.
Local Open Scope exchange_scope.

(** [_contextGetConnectionInfo(conxid)] *)
Definition _contextGetConnectionInfo (E : env) (self : exchange) (conxid : string)
    : res conx_info :=
  res_bind (dict_item conxid (websocketContexts self)) (fun c =>
  match info c with
  | None =>
      Raise (NotSupported ("websocket <" +:+ conxid
                           +:+ "> not found in this exchange: " +:+ exchange_id E))
  | Some i => Ok i
  end).

(** A mutation of the connection info dictionary stored for [conxid]: it
    is the object the callers hold. *)
Definition update_info (conxid : string) (f : conx_info -> conx_info) : M unit :=
  update_context conxid (fun c => Ok (set_info (option_map f (info c)) c)).

Definition set_active (b : bool) (i : conx_info) : conx_info :=
  {| auth := auth i; ready := ready i;
     conx := {| options := options (conx i); active := b |} |}.

Definition set_ready (b : bool) (i : conx_info) : conx_info :=
  {| auth := auth i; ready := b; conx := conx i |}.

(** [conx.close()] on the connection of [conxid]; [AttributeError] when
    there is none ([conx] is [None]). *)
Definition close_connection (conxid : string) (conx : option connection) : M unit :=
  match conx with
  | None => raise AttributeError
  | Some _ =>
      run observe (ObsClose conxid);
      update_info conxid (set_active false)
  end.

(** [await websocket_connection.connect()] *)
Definition connect_connection (E : env) (conxid : string) : M unit :=
  run observe (ObsConnect conxid);
  run read (fun _ => connect E conxid);
  update_info conxid (set_active true).

(** [_websocket_initialize(websocket_config, conxid)]; the hook
    [_websocket_on_init] of this class returns the configuration as it
    is. *)
Definition _websocket_initialize (E : env) (websocket_config : dict pyval)
    (conxid : string) : M conx_info :=
  let websocket_config :=
    match proxies E with
    | Some p => dict_set "proxies" p websocket_config
    | None => websocket_config
    end in
  do type <- read (fun _ => dict_item "type" websocket_config);
  if is_str type "signalr" || is_str type "ws" || is_str type "ws-s" then
    ret {| auth := false; ready := false;
           conx := {| options := websocket_config; active := false |} |}
  else
    match type with
    | VStr t =>
        raise (NotSupported ("invalid async connection: " +:+ t
                             +:+ " for exchange " +:+ exchange_id E))
    | _ => raise (TypeError "can only concatenate str to str")
    end.

(** The callback [wait4ready_event(success, error)] of
    [websocket_connect]. *)
Definition wait4ready_event (conxid : string) (success : bool) (ex : option error)
    (f : future) : M future :=
  if success then
    run update_info conxid (set_ready true);
    read (fun _ => done_or_set_result f VNone)
  else
    match ex with
    | Some e => read (fun _ => done_or_set_exception f e)
    | None =>
        if done f then ret f
        else raise (TypeError "an exception instance is required")
    end.

(** [websocket_connect(conxid)] *)
Definition websocket_connect (E : env) (conxid : string) : M unit :=
  do websocket_conx_info <- read (fun self => _contextGetConnectionInfo E self conxid);
  do conx_tpl <- read (fun self => _contextGetConxTpl self conxid);
  run read (fun _ => load_markets E);
  if negb (ready websocket_conx_info) then
    do tpls <- read (fun _ => wsconf_conx_tpls E);
    do tpl <- read (fun _ => dict_item (default "None" conx_tpl) tpls);
    match dict_get "wait4readyEvent" tpl with
    | None | Some VNone => connect_connection E conxid
    | Some _ =>
        run connect_connection E conxid;
        do f <- deliver (ready_event E conxid) (wait4ready_event conxid) Unresolved;
        do _ <- read (fun _ => await "websocket_connect" f);
        ret tt
    end
  else ret tt.

(** [try: body except AttributeError: handler] *)
Definition except_AttributeError {A} (body handler : M A) : M A := fun self =>
  match body self with
  | (Raise AttributeError, self') => handler self'
  | other => other
  end.

(** The two statements that give [conxid] a fresh connection. *)
Definition reinitialize (E : env) (conxid conxtpl : string)
    (conx_config : dict pyval) : M unit :=
  run _websocket_reset_context conxid (Some conxtpl);
  do i <- _websocket_initialize E conx_config conxid;
  _contextSetConnectionInfo conxid i.

Definition isActive (conx : option connection) : M bool :=
  match conx with
  | None => raise AttributeError
  | Some c => ret (active c)
  end.

(** [_websocket_ensure_conx_active(event, symbol, subscribe,
    subscription_params, delayed)]; it returns the connection id. *)
Definition _websocket_ensure_conx_active (E : env) (event symbol : string)
    (subscribe : bool) (subscription_params : pyval) (delayed_flag : bool)
    : M string :=
  run read (fun _ => load_markets E);
  do ret_ <- read (fun _ => _websocketGetConxid4Event E event symbol);
  let conxid := fst ret_ in
  let conxtpl := snd ret_ in
  run (do known <- read (fun self => Ok (dict_mem conxid (websocketContexts self)));
       if negb known then _websocket_reset_context conxid (Some conxtpl) else ret tt);
  run observe (ObsResolve event symbol subscribe);
  do action <- read (fun self =>
    _websocket_get_action_for_event E self conxid event symbol subscribe
      subscription_params);
  match action with
  | None => ret conxid
  | Some action =>
      let conx_config := dict_set "verbose" (verbose E) (conx_config action) in
      run (do evs <- read (fun self => _contextGetEvents self conxid);
           if negb (dict_mem event evs) then _contextResetEvent conxid event else ret tt);
      run (do syms <- read (fun self => _contextGetSymbols self conxid event);
           if negb (dict_mem symbol syms) then _contextResetSymbol conxid event symbol
           else ret tt);
      let queue_or_connect :=
        if delayed_flag then
          run modify (fun self =>
            if negb (dict_mem conxid (websocketDelayedConnections self)) then
              set_delayed
                (dict_set conxid {| conxtpl := conxtpl; reset := false |}
                   (websocketDelayedConnections self)) self
            else self);
          ret conxid
        else
          run websocket_connect E conxid;
          ret conxid in
      if String.eqb (act action) "reconnect" then
        do conx <- read (fun self => _contextGetConnection self conxid);
        run except_AttributeError (close_connection conxid conx) (ret tt);
        run (if negb delayed_flag then
               if String.eqb (reset_context action) "onreconnect"
               then _contextResetSymbol conxid event symbol
               else ret tt
             else ret tt);
        do i <- _websocket_initialize E conx_config conxid;
        run _contextSetConnectionInfo conxid i;
        queue_or_connect
      else if String.eqb (act action) "connect" then
        do conx <- read (fun self => _contextGetConnection self conxid);
        run except_AttributeError
          (do is_active <- isActive conx;
           if negb is_active then
             run close_connection conxid conx;
             reinitialize E conxid conxtpl conx_config
           else ret tt)
          (reinitialize E conxid conxtpl conx_config);
        queue_or_connect
      else if String.eqb (act action) "disconnect" then
        do conx <- read (fun self => _contextGetConnection self conxid);
        run except_AttributeError
          (run close_connection conxid conx;
           _websocket_reset_context conxid (Some conxtpl))
          (ret tt);
        run (if delayed_flag then
               modify (fun self =>
                 if dict_mem conxid (websocketDelayedConnections self) then
                   set_delayed (dict_del conxid (websocketDelayedConnections self)) self
                 else self)
             else ret tt);
        ret conxid
      else queue_or_connect
  end.

(** [_websocket_connect_delayed()]: the batch flush. *)
Definition _websocket_connect_delayed (E : env) : M unit :=
  run observe ObsFlush;
  try_finally
    (do conxids <- read (fun self => Ok (dict_keys (websocketDelayedConnections self)));
     for_each conxids (fun conxid =>
       do d <- read (fun self => dict_item conxid (websocketDelayedConnections self));
       run (if reset d then _websocket_reset_context conxid (Some (conxtpl d))
            else ret tt);
       websocket_connect E conxid))
    (modify (set_delayed [])).

(** [eventSymbol['params']] *)
Definition params_of (eventSymbol : event_symbol) : res pyval :=
  match es_params eventSymbol with
  | Some params => Ok params
  | None => Raise (KeyError "params")
  end.

(** The first loop of both entry points. *)
Definition check_all (E : env) (eventSymbols : list event_symbol) : M unit :=
  for_each eventSymbols (fun eventSymbol =>
    if negb (_websocketValidEvent E (es_event eventSymbol)) then
      raise (ExchangeError ("Not valid event " +:+ es_event eventSymbol
                            +:+ " for exchange " +:+ exchange_id E))
    else ret tt).

(** The second loop of [websocket_subscribe_all]; it returns [conxIds]. *)
Fixpoint prepare_all (E : env) (eventSymbols : list event_symbol)
    : M (list string) :=
  match eventSymbols with
  | [] => ret []
  | eventSymbol :: rest =>
      let event := es_event eventSymbol in
      let symbol := es_symbol eventSymbol in
      do params <- read (fun _ => params_of eventSymbol);
      do conxid <- _websocket_ensure_conx_active E event symbol true params true;
      run _contextSetSubscribing conxid event symbol true;
      do conxIds <- prepare_all E rest;
      ret (conxid :: conxIds)
  end.

(** One round of the third loop of [websocket_subscribe_all], for the
    request of index [i]. *)
Definition subscribe_one (E : env) (i : nat) (conxid : string)
    (eventSymbol : event_symbol) : M unit :=
  let event := es_event eventSymbol in
  let symbol := es_symbol eventSymbol in
  do params <- read (fun _ => params_of eventSymbol);
  run observe (ObsSend conxid event symbol true);
  run read (fun _ => _websocket_subscribe E conxid event symbol params);
  run observe (ObsAwait conxid event symbol);
  do f <- deliver (ack_of E i) (wait4obsubscribe E conxid event symbol params) Unresolved;
  do _ <- read (fun _ => await "websocket_subscribe" f);
  ret tt.

(** [for i in range(0, len(eventSymbols))], from index [i] on. *)
Fixpoint subscribe_from (E : env) (i : nat) (conxIds : list string)
    (eventSymbols : list event_symbol) {struct eventSymbols} : M unit :=
  match eventSymbols, conxIds with
  | [], _ => ret tt
  | _ :: _, [] => raise (IndexError "list index out of range")
  | eventSymbol :: rest, conxid :: conxIds' =>
      run subscribe_one E i conxid eventSymbol;
      subscribe_from E (S i) conxIds' rest
  end.

(** [websocket_subscribe_all(eventSymbols)] *)
Definition websocket_subscribe_all (E : env) (eventSymbols : list event_symbol)
    : M unit :=
  run check_all E eventSymbols;
  do conxIds <- prepare_all E eventSymbols;
  run _websocket_connect_delayed E;
  subscribe_from E 0 conxIds eventSymbols.

(** One round of the loop of [websocket_unsubscribe_all]. *)
Definition unsubscribe_one (E : env) (i : nat) (eventSymbol : event_symbol)
    : M unit :=
  let event := es_event eventSymbol in
  let symbol := es_symbol eventSymbol in
  do params <- read (fun _ => params_of eventSymbol);
  do conxid <- _websocket_ensure_conx_active E event symbol false params true;
  run observe (ObsSend conxid event symbol false);
  run read (fun _ => _websocket_unsubscribe E conxid event symbol params);
  run observe (ObsAwait conxid event symbol);
  do f <- deliver (ack_of E i) (wait4obunsubscribe E conxid event symbol) Unresolved;
  do _ <- read (fun _ => await "websocket_unsubscribe" f);
  ret tt.

Fixpoint unsubscribe_from (E : env) (i : nat) (eventSymbols : list event_symbol)
    : M unit :=
  match eventSymbols with
  | [] => ret tt
  | eventSymbol :: rest =>
      run unsubscribe_one E i eventSymbol;
      unsubscribe_from E (S i) rest
  end.

(** [websocket_unsubscribe_all(eventSymbols)] *)
Definition websocket_unsubscribe_all (E : env) (eventSymbols : list event_symbol)
    : M unit :=
  run check_all E eventSymbols;
  try_finally (unsubscribe_from E 0 eventSymbols) (_websocket_connect_delayed E).

(** *** Auxiliary definitions for the statements *)

Definition is_resolve (o : obs) : bool :=
  match o with ObsResolve _ _ _ => true | _ => false end.

Definition is_flush (o : obs) : bool :=
  match o with ObsFlush => true | _ => false end.

Definition is_close (o : obs) : bool :=
  match o with ObsClose _ => true | _ => false end.

Definition nothing (o : obs) : bool := false.

Definition is_await (o : obs) : bool :=
  match o with ObsAwait _ _ _ => true | _ => false end.

(** What resolving a request in delayed mode may log: the resolution and
    the closing of a stale connection. *)
Definition in_resolution (o : obs) : bool :=
  match o with ObsResolve _ _ _ | ObsClose _ => true | _ => false end.

(** What the flush may log after its own mark: physical connects and
    errors emitted by a ready callback. *)
Definition in_flush (o : obs) : bool :=
  match o with ObsConnect _ | ObsErr _ => true | _ => false end.

(** What sending a message and awaiting its acknowledgement may log. *)
Definition in_acks (o : obs) : bool :=
  match o with ObsSend _ _ _ _ | ObsAwait _ _ _ | ObsErr _ => true | _ => false end.

(** What one round of [websocket_unsubscribe_all] may log. *)
Definition in_round (o : obs) : bool := in_resolution o || in_acks o.

(** What may follow the flush mark in [websocket_subscribe_all]. *)
Definition after_flush (o : obs) : bool := in_flush o || in_acks o.

(** A computation whose every run appends to the log only observations
    that satisfy [P]. *)
Definition emits {A} (m : M A) (P : obs -> bool) : Prop :=
  forall self r self', m self = (r, self') ->
    exists added, log self' = log self ++ added /\ forallb P added = true.

(** A computation that leaves the delayed connections as they are. *)
Definition keeps_delayed {A} (m : M A) : Prop :=
  forall self r self', m self = (r, self') ->
    websocketDelayedConnections self' = websocketDelayedConnections self.

Definition all_valid (E : env) (eventSymbols : list event_symbol) : bool :=
  forallb (fun es => _websocketValidEvent E (es_event es)) eventSymbols.

(** The resolutions of a batch, in input order. *)
Definition resolutions (subscription : bool) (eventSymbols : list event_symbol)
    : list obs :=
  map (fun es => ObsResolve (es_event es) (es_symbol es) subscription) eventSymbols.

End Orchestrator.

(** ** A concrete exchange for the examples *)

Module Demo.
Import Py Store Resolver Pending Orchestrator.

(** An [implode_params] for the patterns that are one placeholder. *)
Definition implode (pattern : string) (params : dict pyval) : string :=
  let value key :=
    match dict_get key params with
    | Some v => str v
    | None => pattern
    end in
  if String.eqb pattern "{id}" then value "id"
  else if String.eqb pattern "{baseurl}" then value "baseurl"
  else if String.eqb pattern "{symbol}" then value "symbol"
  else if String.eqb pattern "{event}" then value "event"
  else pattern.

(** A stream URL that lists the symbols after the base address. *)
Definition url_stream (events : list event_symbol) (options : dict pyval)
    (subscription_params : pyval) : res pyval :=
  Ok (VStr (fold_left (fun url es => url +:+ "/" +:+ es_symbol es) events
              "wss://stream")).

(** One event, ["ob"], on an aggregate-stream template. *)
Definition stream_wsconf : wsconf_t :=
  {| ws_events :=
       Some [("ob", {| ec_conx_tpl := Some "default"; ec_conx_param := None |})];
     ws_conx_tpls :=
       Some [("default", [("type", VStr "ws-s"); ("baseurl", VStr "wss://stream")])] |}.

Definition stream_env (acks : nat -> ack) : env :=
  {| exchange_id := "binance";
     wsconf := stream_wsconf;
     verbose := VBool false;
     proxies := None;
     timeout := 10000;
     implode_params := implode;
     _websocket_generate_url_stream := url_stream;
     _websocket_subscribe := fun _ _ _ _ => Ok tt;
     _websocket_unsubscribe := fun _ _ _ _ => Ok tt;
     load_markets := Ok tt;
     connect := fun _ => Ok tt;
     ready_event := fun _ => AckSuccess;
     ack_of := acks |}.

Definition subscribed_symbol : symbol_context :=
  {| subscribed := true; subscribing := false; data := VDict [];
     sc_params := Some (VDict []) |}.

(** A store whose connection ["default"] serves [symbols] for ["ob"]. *)
Definition serving (symbols : list string) : exchange :=
  {| websocketContexts :=
       [("default",
         {| scratch := []; conx_tpl := Some "default";
            events := [("ob", map (fun s => (s, subscribed_symbol)) symbols)];
            info := None |})];
     websocketDelayedConnections := [];
     log := [] |}.

(** The configuration the resolver builds for ["ob"] and [symbol]. *)
Definition stream_config (symbol : string) : dict pyval :=
  build_config (stream_env (fun _ => NoAck))
    [("type", VStr "ws-s"); ("baseurl", VStr "wss://stream")]
    default_conx_param "default" "ob" symbol.

(** The entry listed for a symbol that [serving] serves. *)
Definition served (symbol : string) : event_symbol :=
  {| es_event := "ob"; es_symbol := symbol; es_params := Some (VDict []) |}.

Definition subscribing_symbol : symbol_context :=
  {| subscribed := false; subscribing := true; data := VDict []; sc_params := None |}.

(** A store in which the second loop of [websocket_subscribe_all] has
    marked [symbols] as subscribing on the connection ["default"]. *)
Definition preparing (symbols : list string) : exchange :=
  {| websocketContexts :=
       [("default",
         {| scratch := []; conx_tpl := Some "default";
            events := [("ob", map (fun s => (s, subscribing_symbol)) symbols)];
            info := None |})];
     websocketDelayedConnections := [];
     log := [] |}.

(** The first acknowledgement fails, the others succeed. *)
Definition first_fails (i : nat) : ack :=
  match i with
  | O => AckFailure None
  | S _ => AckSuccess
  end.

Definition request (symbol : string) : event_symbol :=
  {| es_event := "ob"; es_symbol := symbol; es_params := Some (VDict []) |}.

End Demo.

(** ** Snapshots of the order book *)

Module Snapshot.
Import Py OrderBook Wire.
Local Open Scope Z_scope.

(** [l[:limit]]: the first [limit] items, or all but the last [-limit]
    when [limit] is negative. *)
Definition slice_to {A} (limit : Z) (l : list A) : list A :=
  if 0 <=? limit then take (Z.to_nat limit) l
  else take (Z.to_nat (Z.of_nat (length l) + limit)) l.

(** [_cloneOrderBook(ob, limit)] *)
Definition _cloneOrderBook (ob : order_book) (limit : option Z) : order_book :=
  match limit with
  | None =>
      {| ob_bids := ob_bids ob; ob_asks := ob_asks ob;
         ob_timestamp := ob_timestamp ob; ob_datetime := ob_datetime ob;
         ob_nonce := ob_nonce ob |}
  | Some limit =>
      {| ob_bids := slice_to limit (ob_bids ob);
         ob_asks := slice_to limit (ob_asks ob);
         ob_timestamp := ob_timestamp ob; ob_datetime := ob_datetime ob;
         ob_nonce := ob_nonce ob |}
  end.

(** The amount quoted at a price on a side, if the price is there. *)
Fixpoint amount_at (p : Z) (side : list level) : option Z :=
  match side with
  | [] => None
  | x :: rest => if price x =? p then Some (amount x) else amount_at p rest
  end.

(** The amount [updateBidAskDiff] leaves at the price of the delta: the
    amount quoted there, or 0, plus the increment. *)
Definition summed (side : list level) (d : level) : level :=
  (price d, default 0 (amount_at (price d) side) + amount d).

End Snapshot.

(** ** The scratch area and the cached payload of a context *)

Module Scratch.
Import Py Store.

Definition set_scratch (d : dict pyval) (c : context) : context :=
  {| scratch := d; conx_tpl := conx_tpl c; events := events c; info := info c |}.

(** [_contextSet(conxid, key, data)] *)
Definition _contextSet (conxid key : string) (value : pyval) : M unit :=
  update_context conxid (fun c =>
    Ok (set_scratch (dict_set key value (scratch c)) c)).

(** [_contextGet(conxid, key)]: [None] for a key that is not there. *)
Definition _contextGet (self : exchange) (conxid key : string) : res pyval :=
  res_bind (dict_item conxid (websocketContexts self)) (fun c =>
  if negb (dict_mem key (scratch c)) then Ok VNone
  else dict_item key (scratch c)).

(** [_contextGetSymbolData(conxid, event, symbol)] *)
Definition _contextGetSymbolData (self : exchange) (conxid event symbol : string)
    : res pyval :=
  res_bind (dict_item conxid (websocketContexts self)) (fun c =>
  res_bind (dict_item event (events c)) (fun syms =>
  res_bind (dict_item symbol syms) (fun sc => Ok (data sc)))).

(** [_contextSetSymbolData(conxid, event, symbol, data)] *)
Definition _contextSetSymbolData (conxid event symbol : string) (value : pyval)
    : M unit :=
  update_symbol conxid event symbol (fun sc =>
    {| subscribed := subscribed sc; subscribing := subscribing sc;
       data := value; sc_params := sc_params sc |}).

End Scratch.

(** ** Price levels as shared objects

    In the source a level is a two-element list object, and a side is a
    list of references to such objects.  [updateBidAsk] stores the
    reference it is given, [updateBidAskDiff] writes into the object it
    finds, and [_cloneOrderBook] copies a side into a new list that holds
    the same references. *)

Module Objects.
Import Py OrderBook Snapshot.
Local Open Scope Z_scope.

Definition ref : Type := nat.

(** The level objects, by reference. *)
Definition heap : Type := list level.

(** The object behind a reference; references do not dangle ([valid]). *)
Definition deref (h : heap) (r : ref) : level := default (0, 0) (h !! r).

Definition valid (h : heap) (side : list ref) : Prop :=
  Forall (fun r => (r < length h)%nat) side.

(** What a holder of the list [side] sees. *)
Definition view (h : heap) (side : list ref) : list level := map (deref h) side.

(** [searchIndexToInsertOrUpdate(value, orderedArray, key, descending)] *)
Fixpoint searchIndexToInsertOrUpdate (h : heap) (value : Z) (orderedArray : list ref)
    (key : level -> Z) (descending : bool) : nat :=
  let direction := if descending then -1 else 1 in
  match orderedArray with
  | [] => 0%nat
  | x :: rest =>
      if compare direction (key (deref h x)) value >=? 0 then 0%nat
      else S (searchIndexToInsertOrUpdate h value rest key descending)
  end.

(** [updateBidAsk(bidAsk, currentBidsAsks, bids)]: it returns the new
    contents of the list; no level object is written. *)
Definition updateBidAsk (h : heap) (bidAsk : ref) (currentBidsAsks : list ref)
    (bids : bool) : list ref :=
  let index :=
    searchIndexToInsertOrUpdate h (price (deref h bidAsk)) currentBidsAsks price bids in
  let found :=
    match currentBidsAsks !! index with
    | Some r => price (deref h r) =? price (deref h bidAsk)
    | None => false
    end in
  if found then
    if amount (deref h bidAsk) =? 0 then delete index currentBidsAsks
    else <[index := bidAsk]> currentBidsAsks
  else
    if negb (amount (deref h bidAsk) =? 0)
    then list_insert_at index bidAsk currentBidsAsks
    else currentBidsAsks.

(** [updateBidAskDiff(bidAsk, currentBidsAsks, bids)]: it returns the new
    contents of the list and the level objects;
    [currentBidsAsks[index][1] = nextValue] writes into the found
    object. *)
Definition updateBidAskDiff (h : heap) (bidAsk : ref) (currentBidsAsks : list ref)
    (bids : bool) : list ref * heap :=
  let index :=
    searchIndexToInsertOrUpdate h (price (deref h bidAsk)) currentBidsAsks price bids in
  let insert_or_keep :=
    if negb (amount (deref h bidAsk) =? 0)
    then (list_insert_at index bidAsk currentBidsAsks, h)
    else (currentBidsAsks, h) in
  match currentBidsAsks !! index with
  | Some r =>
      if price (deref h r) =? price (deref h bidAsk) then
        let nextValue := amount (deref h r) + amount (deref h bidAsk) in
        if nextValue =? 0 then (delete index currentBidsAsks, h)
        else (currentBidsAsks, <[r := (price (deref h r), nextValue)]> h)
      else insert_or_keep
  | None => insert_or_keep
  end.

(** [ob['bids'][:]] and [ob['bids'][:limit]] of [_cloneOrderBook]: a new
    list with the same references. *)
Definition clone_side (limit : option Z) (side : list ref) : list ref :=
  match limit with
  | None => side
  | Some limit => slice_to limit side
  end.

(** The same slice of a list of level values. *)
Definition slice (limit : option Z) (side : list level) : list level :=
  match limit with
  | None => side
  | Some limit => slice_to limit side
  end.

End Objects.

(** ** Closing, cleaning and recovering connections *)

Module Lifecycle.
Import Py Store Resolver Pending Orchestrator.
Local Open Scope exchange_scope.

(** [websocketClose(conxid)] *)
Definition websocketClose (E : env) (conxid : string) : M unit :=
  do websocket_conx_info <- read (fun self => _contextGetConnectionInfo E self conxid);
  except_AttributeError
    (close_connection conxid (Some (conx websocket_conx_info)))
    (ret tt).

(** [websocketCloseAll()] *)
Definition websocketCloseAll (E : env) : M unit :=
  do conxids <- read (fun self => Ok (dict_keys (websocketContexts self)));
  for_each conxids (websocketClose E).

(** [websocketCleanContext(conxid)] *)
Definition websocketCleanContext (conxid : option string) : M unit :=
  match conxid with
  | None =>
      do conxids <- read (fun self => Ok (dict_keys (websocketContexts self)));
      for_each conxids (fun conxid => _websocket_reset_context conxid None)
  | Some conxid => _websocket_reset_context conxid None
  end.

(** [websocketRecoverConxid(conxid, eventSymbols)] *)
Definition websocketRecoverConxid (E : env) (conxid : string)
    (eventSymbols : option (list event_symbol)) : M unit :=
  do eventSymbols <-
    match eventSymbols with
    | None => read (fun self => _websocketContextGetSubscribedEventSymbols self conxid)
    | Some eventSymbols => ret eventSymbols
    end;
  run websocketClose E conxid;
  run _websocket_reset_context conxid None;
  websocket_subscribe_all E eventSymbols.

(** *** Auxiliary definitions for the statements *)

(** A context whose connection, if it has one, is closed. *)
Definition closed (c : context) : context :=
  set_info (option_map (set_active false) (info c)) c.

(** A context whose symbols are all reset. *)
Definition cleaned (c : context) : context :=
  set_events (reset_events (events c)) c.

(** What one round of the send-and-await loop logs when nothing fails. *)
Definition round_log (conxid : string) (es : event_symbol) : list obs :=
  [ObsSend conxid (es_event es) (es_symbol es) true;
   ObsAwait conxid (es_event es) (es_symbol es)].

(** The place in the store that a request on a connection works on. *)
Definition place_of (conxid : string) (es : event_symbol) : string * string * string :=
  (conxid, es_event es, es_symbol es).

(** A symbol of the store that is subscribed and not subscribing. *)
Definition settled (self : exchange) (conxid event symbol : string) : Prop :=
  _contextIsSubscribed self conxid event symbol = Ok true /\
  _contextIsSubscribing self conxid event symbol = Ok false.

Definition is_connect (o : obs) : bool :=
  match o with ObsConnect _ => true | _ => false end.

(** What resolving a request on [conxid] in delayed mode may do to the
    delayed connections: nothing, queue [conxid] if it is not queued, or
    take it out if it is. *)
Definition queued_by (conxid tpl : string) (old new : dict delayed) : Prop :=
  new = old \/
  (dict_mem conxid old = false /\
   new = dict_set conxid {| conxtpl := tpl; reset := false |} old) \/
  (dict_mem conxid old = true /\ new = dict_del conxid old).

(** A computation that returns [conxid] if it returns, and whose every run
    changes the delayed connections as [queued_by] says. *)
Definition queues (conxid tpl : string) (m : M string) : Prop :=
  forall self r self', m self = (r, self') ->
    queued_by conxid tpl (websocketDelayedConnections self)
      (websocketDelayedConnections self') /\
    (forall c, r = Ok c -> c = conxid).

(** The store on which [_websocket_ensure_conx_active] consults the
    resolver: the context of [conxid] has been created if it was
    missing. *)
Definition ensured (conxid tpl : string) (self : exchange) : exchange :=
  if negb (dict_mem conxid (websocketContexts self))
  then snd (_websocket_reset_context conxid (Some tpl) self)
  else self.

End Lifecycle.

(** ** More sample configurations *)

Module Samples.
Import Py Store Resolver Pending Orchestrator.

(** The float level [[float(p), float(a)]]. *)
Definition float_level (p a : Z) : Book.level spec_float :=
  (Numbers.float_of_Z p, Numbers.float_of_Z a).

(** A level whose price is NaN. *)
Definition nan_level (a : Z) : Book.level spec_float :=
  (Numbers.nan, Numbers.float_of_Z a).

(** The bid side [[[101.0, 2.0], [100.0, 5.0]]] and the ask side
    [[[99.0, 1.0], [100.0, 5.0]]]. *)
Definition float_bids : list (Book.level spec_float) :=
  [float_level 101 2; float_level 100 5].

Definition float_asks : list (Book.level spec_float) :=
  [float_level 99 1; float_level 100 5].

(** One event, ["trade"], on a template of type ['pusher']. *)
Definition pusher_wsconf : wsconf_t :=
  {| ws_events :=
       Some [("trade", {| ec_conx_tpl := Some "default"; ec_conx_param := None |})];
     ws_conx_tpls :=
       Some [("default", [("type", VStr "pusher"); ("baseurl", VStr "wss://push")])] |}.

Definition pusher_env : env :=
  {| exchange_id := "bitstamp";
     wsconf := pusher_wsconf;
     verbose := VBool false;
     proxies := None;
     timeout := 10000;
     implode_params := Demo.implode;
     _websocket_generate_url_stream := Demo.url_stream;
     _websocket_subscribe := fun _ _ _ _ => Ok tt;
     _websocket_unsubscribe := fun _ _ _ _ => Ok tt;
     load_markets := Ok tt;
     connect := fun _ => Ok tt;
     ready_event := fun _ => AckSuccess;
     ack_of := fun _ => AckSuccess |}.

(** The action the resolver gives for ["trade"] in [pusher_env]. *)
Definition pusher_action : action :=
  {| act := "connect";
     conx_config :=
       build_config pusher_env
         [("type", VStr "pusher"); ("baseurl", VStr "wss://push")]
         default_conx_param "default" "trade" "BTC/USD";
     reset_context := "onconnect";
     act_conx_tpl := "default" |}.

(** The store after the second loop of [websocket_subscribe_all] on two
    requests: the connection ["default"] is queued. *)
Definition prepared : exchange :=
  snd (prepare_all (Demo.stream_env (fun _ => AckSuccess))
         [Demo.request "BTC/USD"; Demo.request "ETH/USD"] init).

(** Contexts with an open connection and with none. *)
Definition connected_context : context :=
  {| scratch := []; conx_tpl := Some "default"; events := [];
     info := Some {| auth := false; ready := true;
                     conx := {| options := []; active := true |} |} |}.

Definition unconnected_context : context :=
  {| scratch := []; conx_tpl := Some "default"; events := []; info := None |}.

Definition all_connected : exchange :=
  {| websocketContexts := [("a", connected_context); ("b", connected_context)];
     websocketDelayedConnections := [];
     log := [] |}.

Definition one_unconnected : exchange :=
  {| websocketContexts :=
       [("a", connected_context); ("b", unconnected_context);
        ("c", connected_context)];
     websocketDelayedConnections := [];
     log := [] |}.

End Samples.

(** * Properties *)

(** ** Reasoning in the monad *)

Module MonadFacts.
Import Py Store.

Lemma bind_ok {A B} (m : M A) (k : A -> M B) (self self' : exchange) (b : B) :
  bind m k self = (Ok b, self') ->
  exists a self1, m self = (Ok a, self1) /\ k a self1 = (Ok b, self').
Proof.
  unfold bind. destruct (m self) as [[a|e] self1]; intros H.
  - eauto.
  - discriminate.
Qed.

Lemma bind_raise {A B} (m : M A) (k : A -> M B) (self self' : exchange) (e : error) :
  bind m k self = (Raise e, self') ->
  m self = (Raise e, self') \/
  exists a self1, m self = (Ok a, self1) /\ k a self1 = (Raise e, self').
Proof.
  unfold bind. destruct (m self) as [[a|e'] self1]; intros H.
  - right. eauto.
  - left. now inversion H.
Qed.

End MonadFacts.

(** ** The order book merge engine *)

Module OrderBookFacts.
Import OrderBook.
Local Open Scope Z_scope.

(** The search stops at the first level that is not strictly before the
    searched price. *)
Lemma compare_stop (bids : bool) a v :
  (compare (if bids then -1 else 1) a v >=? 0) = true <-> ~ before bids a v.
Proof.
  unfold compare, before. rewrite Z.geb_le.
  destruct bids; destruct (Z.ltb_spec a v); destruct (Z.gtb_spec a v); lia.
Qed.

Lemma search_app bids v (l1 l2 : list level) :
  Forall (fun y => before bids (price y) v) l1 ->
  stops bids v l2 ->
  searchIndexToInsertOrUpdate v (l1 ++ l2) price bids = length l1.
Proof.
  intros Hl1 Hl2. induction Hl1 as [|y l1 Hy _ IH]; simpl.
  - destruct l2 as [|x r]; [reflexivity|]. simpl in *.
    apply compare_stop in Hl2. now rewrite Hl2.
  - destruct (compare _ (price y) v >=? 0) eqn:Hc.
    + apply compare_stop in Hc. contradiction.
    + now rewrite IH.
Qed.

(** Every side splits at the position the search returns. *)
Lemma side_split bids v (l : list level) :
  exists l1 l2 : list level, l = l1 ++ l2 /\
    Forall (fun y => before bids (price y) v) l1 /\ stops bids v l2.
Proof.
  induction l as [|x l (l1 & l2 & -> & H1 & H2)].
  - exists [], []. simpl. auto.
  - destruct (compare (if bids then -1 else 1) (price x) v >=? 0) eqn:Hc.
    + exists [], (x :: l1 ++ l2). simpl. repeat split; auto.
      now apply compare_stop.
    + exists (x :: l1), l2. repeat split; auto. constructor; auto.
      assert (Hnn : ~ ~ before bids (price x) v).
      { intros Hn. apply compare_stop in Hn. congruence. }
      destruct bids; unfold before in *; lia.
Qed.

Lemma insert_at_split {A} (l1 l2 : list A) (x : A) :
  list_insert_at (length l1) x (l1 ++ l2) = l1 ++ x :: l2.
Proof.
  unfold list_insert_at. now rewrite take_app_length, drop_app_length.
Qed.

Lemma insert_middle {A} (l1 l2 : list A) (x y : A) :
  <[length l1 := y]> (l1 ++ x :: l2) = l1 ++ y :: l2.
Proof.
  rewrite insert_app_r_alt by lia. now rewrite Nat.sub_diag.
Qed.

Lemma updateBidAsk_split bids d (l1 l2 : list level) :
  Forall (fun y => before bids (price y) (price d)) l1 ->
  stops bids (price d) l2 ->
  updateBidAsk d (l1 ++ l2) bids = l1 ++ place d l2.
Proof.
  intros H1 H2. unfold updateBidAsk, found_at.
  rewrite (search_app bids (price d) l1 l2 H1 H2).
  destruct l2 as [|x r]; simpl.
  - rewrite app_nil_r. rewrite lookup_ge_None_2 by lia.
    destruct (amount d =? 0); simpl; [now rewrite app_nil_r|].
    rewrite <- (app_nil_r l1) at 2. rewrite insert_at_split.
    reflexivity.
  - rewrite list_lookup_middle by reflexivity.
    destruct (price x =? price d); destruct (amount d =? 0); simpl.
    + apply delete_middle.
    + apply insert_middle.
    + reflexivity.
    + apply insert_at_split.
Qed.

Lemma updateBidAskDiff_split bids d (l1 l2 : list level) :
  Forall (fun y => before bids (price y) (price d)) l1 ->
  stops bids (price d) l2 ->
  updateBidAskDiff d (l1 ++ l2) bids = l1 ++ place_diff d l2.
Proof.
  intros H1 H2. unfold updateBidAskDiff.
  rewrite (search_app bids (price d) l1 l2 H1 H2).
  destruct l2 as [|x r]; simpl.
  - rewrite app_nil_r. rewrite lookup_ge_None_2 by lia.
    destruct (amount d =? 0); simpl; [now rewrite app_nil_r|].
    rewrite <- (app_nil_r l1) at 2. rewrite insert_at_split.
    reflexivity.
  - rewrite list_lookup_middle by reflexivity.
    destruct (price x =? price d).
    + destruct (amount x + amount d =? 0).
      * apply delete_middle.
      * apply insert_middle.
    + destruct (amount d =? 0); simpl; [reflexivity|apply insert_at_split].
Qed.

(** *** Order facts *)

Lemma before_trans bids a b c : before bids a b -> before bids b c -> before bids a c.
Proof. destruct bids; unfold before; lia. Qed.

Lemma before_irrefl bids a : ~ before bids a a.
Proof. destruct bids; unfold before; lia. Qed.

#[local] Instance level_before_trans bids : Transitive (level_before bids).
Proof. intros x y z. unfold level_before. apply before_trans. Qed.

Lemma sorted_strongly bids (l : list level) :
  Sorted (level_before bids) l <-> StronglySorted (level_before bids) l.
Proof.
  split.
  - apply Sorted_StronglySorted. apply level_before_trans.
  - apply StronglySorted_Sorted.
Qed.

Lemma strongly_sorted_NoDup bids (l : list level) :
  StronglySorted (level_before bids) l -> NoDup (map price l).
Proof.
  induction 1 as [|x l _ IH Hx]; simpl; constructor; auto.
  intros Hin. apply list_elem_of_fmap in Hin as (y & Hy & Hin).
  rewrite Forall_forall in Hx. specialize (Hx y Hin).
  unfold level_before in Hx. rewrite Hy in Hx. now apply before_irrefl in Hx.
Qed.

(** Every price of a sorted side after the stop position differs from a
    price the head does not have. *)
Lemma sorted_tail_prices bids (x : level) (r : list level) (p : Z) :
  StronglySorted (level_before bids) (x :: r) ->
  ~ before bids (price x) p ->
  Forall (fun y => price y <> p) r.
Proof.
  intros Hs Hx. apply StronglySorted_inv in Hs as [_ Hr].
  eapply Forall_impl; [exact Hr|]. intros y Hy Heq. apply Hx.
  rewrite <- Heq. exact Hy.
Qed.

(** *** The invariant of a side *)

Lemma side_ok_iff bids (side : list level) :
  side_ok bids side <->
  StronglySorted (level_before bids) side /\ no_zero_amount side.
Proof.
  unfold side_ok. rewrite sorted_strongly. split.
  - intros (Hs & _ & Hz). auto.
  - intros (Hs & Hz). repeat split; auto. now apply strongly_sorted_NoDup in Hs.
Qed.

Ltac concrete_sorted :=
  apply sorted_strongly; repeat constructor; unfold level_before, before; simpl; lia.

(** *** Where a level of a sorted side is found *)

Lemma sorted_middle bids (l1 l2 : list level) (x : level) :
  Sorted (level_before bids) (l1 ++ x :: l2) ->
  Forall (fun y => before bids (price y) (price x)) l1 /\
  stops bids (price x) (x :: l2).
Proof.
  intros Hs. apply sorted_strongly in Hs.
  apply StronglySorted_app in Hs as (H12 & _ & _). split.
  - apply Forall_forall. intros y Hy. apply (H12 y x Hy). left.
  - simpl. apply before_irrefl.
Qed.

(** Without the price on the side, the level at the stop position has
    another price. *)
Lemma absent_head (p : Z) (l1 l2 : list level) :
  ~ In p (map price (l1 ++ l2)) ->
  match l2 with
  | [] => True
  | x :: _ => (price x =? p) = false
  end.
Proof.
  intros Hp. destruct l2 as [|x r]; [exact I|].
  apply Z.eqb_neq. intros Heq. apply Hp. rewrite map_app, in_app_iff.
  right. left. exact Heq.
Qed.

(** C6.  On a sorted side, a delta with amount 0 changes nothing when no
    level has its price; when a level has its price, exactly that level
    is removed and the levels around it stay as they are.  The deltas
    [[100, 5]] and then [[100, 0]] on an empty bid side leave it empty. *)
Theorem C6_zero_amount_delta (bids : bool) (side : list level) (p : Z)
    (Hsorted : Sorted (level_before bids) side) :
  (~ In p (map price side) -> updateBidAsk (p, 0) side bids = side) /\
  (forall (l1 l2 : list level) (a : Z),
      side = l1 ++ (p, a) :: l2 -> updateBidAsk (p, 0) side bids = l1 ++ l2) /\
  applyDeltas [(100, 0)] (applyDeltas [(100, 5)] [] true) true = [].
Proof.
  split; [|split].
  - intros Hp.
    destruct (side_split bids p side) as (l1 & l2 & -> & H1 & H2).
    rewrite (updateBidAsk_split bids (p, 0) l1 l2 H1 H2).
    pose proof (absent_head p l1 l2 Hp) as Hh.
    destruct l2 as [|x r]; simpl; [now rewrite app_nil_r|].
    now rewrite Hh.
  - intros l1 l2 a ->.
    destruct (sorted_middle bids l1 l2 (p, a) Hsorted) as [H1 H2].
    rewrite (updateBidAsk_split bids (p, 0) l1 ((p, a) :: l2) H1 H2).
    simpl. now rewrite Z.eqb_refl.
  - reflexivity.
Qed.

Lemma C6_zero_amount_delta_witness :
  updateBidAsk (100, 0) [(101, 2); (100, 5); (99, 1)] true = [(101, 2)] ++ [(99, 1)].
Proof.
  assert (Hs : Sorted (level_before true) [(101, 2); (100, 5); (99, 1)])
    by concrete_sorted.
  exact (proj1 (proj2 (C6_zero_amount_delta true _ 100 Hs)) [(101, 2)] [(99, 1)] 5
           eq_refl).
Defined.

(** C7.  On a sorted side with a level of price [p] and amount [a],
    [updateBidAskDiff] with the delta [(p, d)] puts [a + d] in that level
    when the sum is not zero and removes the level when it is; the other
    levels keep their place and contents. *)
Theorem C7_diff_on_present_level (bids : bool) (l1 l2 : list level) (p a d : Z)
    (Hsorted : Sorted (level_before bids) (l1 ++ (p, a) :: l2)) :
  updateBidAskDiff (p, d) (l1 ++ (p, a) :: l2) bids =
    if a + d =? 0 then l1 ++ l2 else l1 ++ (p, a + d) :: l2.
Proof.
  destruct (sorted_middle bids l1 l2 (p, a) Hsorted) as [H1 H2].
  rewrite (updateBidAskDiff_split bids (p, d) l1 ((p, a) :: l2) H1 H2).
  simpl. rewrite Z.eqb_refl. now destruct (a + d =? 0).
Qed.

Lemma C7_diff_on_present_level_witness :
  updateBidAskDiff (100, -5) ([(99, 1)] ++ (100, 5) :: [(101, 2)]) false =
    [(99, 1)] ++ [(101, 2)] /\
  updateBidAskDiff (100, 3) ([(99, 1)] ++ (100, 5) :: [(101, 2)]) false =
    [(99, 1)] ++ (100, 8) :: [(101, 2)].
Proof.
  assert (Hs : Sorted (level_before false) ([(99, 1)] ++ (100, 5) :: [(101, 2)]))
    by (simpl; concrete_sorted).
  split.
  - exact (C7_diff_on_present_level false [(99, 1)] [(101, 2)] 100 5 (-5) Hs).
  - exact (C7_diff_on_present_level false [(99, 1)] [(101, 2)] 100 5 3 Hs).
Defined.

End OrderBookFacts.

(** ** The connection context store *)

Module StoreFacts.
Import Py Store.

Lemma dict_mem_get {V} (k : string) (d : dict V) :
  dict_mem k d = match dict_get k d with Some _ => true | None => false end.
Proof. reflexivity. Qed.

Lemma dict_item_get {V} (k : string) (d : dict V) (v : V) :
  dict_get k d = Some v -> dict_item k d = Ok v.
Proof. unfold dict_item. now intros ->. Qed.

(** The two reads differ only in the flag they return. *)
Lemma read_flag_known (self : exchange) (conxid event symbol : string) (c : context) :
  dict_get conxid (websocketContexts self) = Some c ->
  _contextIsSubscribed self conxid event symbol =
    Ok (match dict_get event (events c) with
        | Some syms =>
            match dict_get symbol syms with
            | Some sc => subscribed sc
            | None => false
            end
        | None => false
        end) /\
  _contextIsSubscribing self conxid event symbol =
    Ok (match dict_get event (events c) with
        | Some syms =>
            match dict_get symbol syms with
            | Some sc => subscribing sc
            | None => false
            end
        | None => false
        end).
Proof.
  intros Hc.
  unfold _contextIsSubscribed, _contextIsSubscribing, _contextGetSymbols,
    _contextGetEvents, dict_item, dict_mem.
  rewrite Hc. simpl.
  destruct (dict_get event (events c)) as [syms|]; simpl; [|split; reflexivity].
  destruct (dict_get symbol syms) as [sc|]; simpl; split; reflexivity.
Qed.

(** C5, as the code has it.  For a connection id that is in the context
    store, and any event and symbol, [_contextIsSubscribed] and
    [_contextIsSubscribing] return without raising, and they return
    [False] when the event is not in the context of the connection or the
    symbol is not under the event. *)
Theorem C5_reads_on_known_connection (self : exchange)
    (conxid event symbol : string) (c : context)
    (Hknown : dict_get conxid (websocketContexts self) = Some c) :
  (exists b, _contextIsSubscribed self conxid event symbol = Ok b) /\
  (exists b, _contextIsSubscribing self conxid event symbol = Ok b) /\
  ((dict_get event (events c) = None \/
    exists syms, dict_get event (events c) = Some syms /\ dict_get symbol syms = None) ->
   _contextIsSubscribed self conxid event symbol = Ok false /\
   _contextIsSubscribing self conxid event symbol = Ok false).
Proof.
  destruct (read_flag_known self conxid event symbol c Hknown) as [H1 H2].
  split; [eauto|]. split; [eauto|].
  rewrite H1, H2. intros [Hev|(syms & Hev & Hsym)]; rewrite Hev.
  - split; reflexivity.
  - rewrite Hsym. split; reflexivity.
Qed.

Lemma C5_reads_on_known_connection_witness :
  (exists b, _contextIsSubscribed (Demo.serving ["ETH/USD"]) "default" "trades" "BTC/USD"
             = Ok b) /\
  (exists b, _contextIsSubscribing (Demo.serving ["ETH/USD"]) "default" "trades" "BTC/USD"
             = Ok b) /\
  ((dict_get "trades" [("ob", [("ETH/USD", Demo.subscribed_symbol)])] = None \/
    exists syms,
      dict_get "trades" [("ob", [("ETH/USD", Demo.subscribed_symbol)])] = Some syms /\
      dict_get "BTC/USD" syms = None) ->
   _contextIsSubscribed (Demo.serving ["ETH/USD"]) "default" "trades" "BTC/USD"
     = Ok false /\
   _contextIsSubscribing (Demo.serving ["ETH/USD"]) "default" "trades" "BTC/USD"
     = Ok false).
Proof.
  exact (C5_reads_on_known_connection (Demo.serving ["ETH/USD"]) "default" "trades"
           "BTC/USD" _ eq_refl).
Defined.

(** On a connection id that was never created both reads raise
    [KeyError]: [websocketContexts[conxid]] is evaluated first. *)
Lemma C5_unknown_connection_raises :
  _contextIsSubscribed init "default" "ob" "BTC/USD" = Raise (KeyError "default") /\
  _contextIsSubscribing init "default" "ob" "BTC/USD" = Raise (KeyError "default") /\
  _contextIsSubscribed init "default" "ob" "BTC/USD" <> Ok false.
Proof. repeat split; try reflexivity. discriminate. Qed.

(** *** Dictionaries *)

Lemma dict_get_set_eq {V} (k : string) (v : V) (d : dict V) :
  dict_get k (dict_set k v d) = Some v.
Proof.
  induction d as [|[k' v'] d IH]; simpl.
  - now rewrite String.eqb_refl.
  - destruct (String.eqb k' k) eqn:Hk; simpl; now rewrite Hk.
Qed.

Lemma dict_get_set_ne {V} (k k' : string) (v : V) (d : dict V) :
  k <> k' -> dict_get k' (dict_set k v d) = dict_get k' d.
Proof.
  intros Hne. induction d as [|[k0 v0] d IH]; simpl.
  - apply String.eqb_neq in Hne. now rewrite Hne.
  - destruct (String.eqb k0 k) eqn:Hk; simpl.
    + apply String.eqb_eq in Hk. subst k0.
      apply String.eqb_neq in Hne. now rewrite Hne.
    + now rewrite IH.
Qed.

(** The reads, through [symbol_of]. *)
Lemma read_flags_symbol_of (self : exchange) (conxid event symbol : string)
    (c : context) :
  dict_get conxid (websocketContexts self) = Some c ->
  _contextIsSubscribed self conxid event symbol =
    Ok (match symbol_of self conxid event symbol with
        | Some sc => subscribed sc
        | None => false
        end) /\
  _contextIsSubscribing self conxid event symbol =
    Ok (match symbol_of self conxid event symbol with
        | Some sc => subscribing sc
        | None => false
        end).
Proof.
  intros Hc. destruct (read_flag_known self conxid event symbol c Hc) as [H1 H2].
  rewrite H1, H2. unfold symbol_of. rewrite Hc.
  destruct (dict_get event (events c)); split; reflexivity.
Qed.

(** An assignment to the keys of one symbol context changes that context
    and no other. *)
Lemma update_symbol_spec (conxid event symbol : string)
    (f : symbol_context -> symbol_context) (self : exchange) (sc : symbol_context) :
  symbol_of self conxid event symbol = Some sc ->
  exists self',
    update_symbol conxid event symbol f self = (Ok tt, self') /\
    log self' = log self /\
    symbol_of self' conxid event symbol = Some (f sc) /\
    (forall conxid' event' symbol',
        (conxid', event', symbol') <> (conxid, event, symbol) ->
        symbol_of self' conxid' event' symbol' = symbol_of self conxid' event' symbol').
Proof.
  unfold symbol_of. intros H.
  destruct (dict_get conxid (websocketContexts self)) as [c|] eqn:Hc; [|discriminate].
  destruct (dict_get event (events c)) as [syms|] eqn:He; [|discriminate].
  unfold update_symbol, update_symbols, update_context, dict_item.
  rewrite Hc, He. simpl. rewrite H. simpl.
  eexists. split; [reflexivity|]. split; [reflexivity|]. simpl. split.
  - rewrite dict_get_set_eq. simpl. rewrite dict_get_set_eq.
    apply dict_get_set_eq.
  - intros conxid' event' symbol' Hne.
    destruct (String.eqb_spec conxid conxid') as [<-|Hcx].
    + rewrite dict_get_set_eq, Hc. simpl.
      destruct (String.eqb_spec event event') as [<-|Hev].
      * rewrite dict_get_set_eq, He.
        destruct (String.eqb_spec symbol symbol') as [<-|Hsy]; [congruence|].
        now apply dict_get_set_ne.
      * now rewrite dict_get_set_ne.
    + now rewrite dict_get_set_ne.
Qed.

End StoreFacts.

(** ** Pending operations *)

Module PendingFacts.
Import Py Store Resolver Pending MonadFacts.
Local Open Scope exchange_scope.

(** A computation is quiet when it leaves the log alone and raises
    nothing but [KeyError]. *)
Definition quiet {A} (m : M A) : Prop :=
  forall self r self', m self = (r, self') ->
    log self' = log self /\ (forall e, r = Raise e -> exists k, e = KeyError k).

Lemma quiet_bind {A B} (m : M A) (k : A -> M B) :
  quiet m -> (forall a, quiet (k a)) -> quiet (bind m k).
Proof.
  intros Hm Hk self r self' H. unfold bind in H.
  destruct (m self) as [[a|e] self1] eqn:Hms.
  - destruct (Hm _ _ _ Hms) as [Hl _]. destruct (Hk a _ _ _ H) as [Hl' He].
    split; [congruence|exact He].
  - inversion H; subst. destruct (Hm _ _ _ Hms) as [Hl He]. split; [exact Hl|].
    intros e' [= <-]. now apply He.
Qed.

Lemma dict_item_key_error {V A} (k : string) (d : dict V) (f : V -> res A) (e : error) :
  (forall v e', f v = Raise e' -> exists k', e' = KeyError k') ->
  res_bind (dict_item k d) f = Raise e -> exists k', e = KeyError k'.
Proof.
  intros Hf. unfold dict_item. destruct (dict_get k d); simpl.
  - apply Hf.
  - intros [= <-]. eauto.
Qed.

Lemma quiet_update_context (conxid : string) (f : context -> res context) :
  (forall c e, f c = Raise e -> exists k, e = KeyError k) ->
  quiet (update_context conxid f).
Proof.
  intros Hf self r self'. unfold update_context.
  destruct (dict_get conxid (websocketContexts self)) as [c|].
  - destruct (f c) as [c'|e] eqn:Hfc; intros [= <- <-]; split; try reflexivity.
    + discriminate.
    + intros e' [= <-]. eauto.
  - intros [= <- <-]. split; [reflexivity|]. intros e [= <-]. eauto.
Qed.

Lemma quiet_update_symbol (conxid event symbol : string)
    (f : symbol_context -> symbol_context) :
  quiet (update_symbol conxid event symbol f).
Proof.
  unfold update_symbol, update_symbols. apply quiet_update_context.
  intros c e. apply dict_item_key_error. intros syms e'.
  unfold dict_item. destruct (dict_get symbol syms); simpl; [discriminate|].
  intros [= <-]. eauto.
Qed.

Lemma quiet_read_ok {A} (r : res A) :
  (forall e, r = Raise e -> exists k, e = KeyError k) ->
  quiet (read (fun _ => r)).
Proof.
  intros Hr self r' self'. unfold read. intros [= <- <-]. split; [reflexivity|exact Hr].
Qed.

(** *** The guard [future.done() or ...] *)

Lemma done_or_set_result_spec (f : future) (value : pyval) :
  done_or_set_result f value = Ok (if done f then f else Result value).
Proof. unfold done_or_set_result, set_result. now destruct (done f). Qed.

Lemma done_or_set_exception_spec (f : future) (e : error) :
  done_or_set_exception f e = Ok (if done f then f else Exception e).
Proof. unfold done_or_set_exception, set_exception. now destruct (done f). Qed.

Lemma timeout_callback_spec (scope : string) (f : future) :
  timeout_callback scope f =
    Ok (if done f then f
        else Exception (TimeoutError ("timeout in scope: " +:+ scope))).
Proof. apply done_or_set_exception_spec. Qed.

(** A callback respects the guard when the future it returns is done,
    and is the one it received if that was done already. *)
Definition guard_respecting (callback : future -> M future) : Prop :=
  forall f self f' self', callback f self = (Ok f', self') ->
    done f' = true /\ (done f = true -> f' = f).

Lemma guard_read_result (value : pyval) (f : future) (self self' : exchange)
    (f' : future) :
  read (fun _ => done_or_set_result f value) self = (Ok f', self') ->
  done f' = true /\ (done f = true -> f' = f).
Proof.
  unfold read. rewrite done_or_set_result_spec. intros [= <- <-].
  destruct (done f) eqn:Hd; auto. split; [reflexivity|discriminate].
Qed.

Lemma guard_read_exception (e : error) (f : future) (self self' : exchange)
    (f' : future) :
  read (fun _ => done_or_set_exception f e) self = (Ok f', self') ->
  done f' = true /\ (done f = true -> f' = f).
Proof.
  unfold read. rewrite done_or_set_exception_spec. intros [= <- <-].
  destruct (done f) eqn:Hd; auto. split; [reflexivity|discriminate].
Qed.

Lemma callback_guard (E : env) (conxid event symbol : string) (op : operation)
    (success : bool) (ex : option error) :
  guard_respecting (callback_of E conxid event symbol op success ex).
Proof.
  intros f self f' self' H.
  destruct op as [params|]; simpl in H;
    unfold wait4obsubscribe, wait4obunsubscribe in H; destruct success.
  - apply bind_ok in H as (? & ? & _ & H). apply bind_ok in H as (? & ? & _ & H).
    eapply guard_read_result; eauto.
  - apply bind_ok in H as (? & ? & _ & H). apply bind_ok in H as (? & ? & _ & H).
    eapply guard_read_exception; eauto.
  - apply bind_ok in H as (? & ? & _ & H). apply bind_ok in H as (? & ? & _ & H).
    eapply guard_read_result; eauto.
  - eapply guard_read_exception; eauto.
Qed.

Lemma callback_quiet (E : env) (conxid event symbol : string) (op : operation)
    (success : bool) (ex : option error) (f : future) :
  quiet (callback_of E conxid event symbol op success ex f).
Proof.
  assert (Hres : forall v, quiet (read (fun _ => done_or_set_result f v))).
  { intros v. apply quiet_read_ok. rewrite done_or_set_result_spec. discriminate. }
  assert (Hexc : forall e, quiet (read (fun _ => done_or_set_exception f e))).
  { intros e. apply quiet_read_ok. rewrite done_or_set_exception_spec. discriminate. }
  destruct op as [params|]; simpl; unfold wait4obsubscribe, wait4obunsubscribe,
    _contextSetSubscribed, _contextSetSubscribing; destruct success;
    repeat (apply quiet_bind; [apply quiet_update_symbol|intros _]); auto.
Qed.

(** *** Steps and runs of the loop *)

Lemma only_key_errors_refl (l : list obs) : only_key_errors_added l l.
Proof. exists []. split; [now rewrite app_nil_r|constructor]. Qed.

Lemma only_key_errors_trans (l1 l2 l3 : list obs) :
  only_key_errors_added l1 l2 -> only_key_errors_added l2 l3 ->
  only_key_errors_added l1 l3.
Proof.
  intros (a1 & -> & H1) (a2 & -> & H2). exists (a1 ++ a2).
  split; [now rewrite app_assoc|]. apply Forall_app. auto.
Qed.

Section Loop.

Variable scope : string.
Variable callback : bool -> option error -> future -> M future.
Hypothesis callback_guarded : forall success ex, guard_respecting (callback success ex).
Hypothesis callback_is_quiet : forall success ex f, quiet (callback success ex f).

Lemma guarded_spec (success : bool) (ex : option error) (f : future)
    (self : exchange) :
  exists f' self',
    guarded (callback success ex) f self = (Ok f', self') /\
    (done f = true -> f' = f) /\
    only_key_errors_added (log self) (log self').
Proof.
  unfold guarded. destruct (callback success ex f self) as [[f'|e] self'] eqn:Hcb.
  - exists f', self'. split; [reflexivity|].
    destruct (callback_guarded success ex f self f' self' Hcb) as [_ Hkeep].
    destruct (callback_is_quiet success ex f self _ self' Hcb) as [Hlog _].
    split; [exact Hkeep|]. rewrite Hlog. apply only_key_errors_refl.
  - exists f, (add_log (ObsErr e) self'). split; [reflexivity|].
    destruct (callback_is_quiet success ex f self _ self' Hcb) as [Hlog He].
    destruct (He e eq_refl) as [k ->].
    split; [reflexivity|]. simpl. rewrite Hlog.
    exists [ObsErr (KeyError k)]. split; [reflexivity|].
    constructor; [eauto|constructor].
Qed.

(** A step never raises; it keeps a future that is done; it emits no
    error but a [KeyError] of the context store. *)
Lemma loop_step_spec (d : Z) (ev : loop_event) (p : pending) (self : exchange) :
  timer_inv d p ->
  exists p' self',
    loop_step scope callback ev p self = (Ok p', self') /\
    (done (fut p) = true -> fut p' = fut p) /\
    only_key_errors_added (log self) (log self') /\
    timer_inv d p' /\
    (is_emit ev = false -> quiet_inv d scope p -> quiet_inv d scope p') /\
    (forall now, ev = Tick now -> (d <= now)%Z -> done (fut p') = true).
Proof.
  intros Hinv. destruct ev as [success ex|now]; simpl.
  - destruct (handler p) eqn:Hh.
    + destruct (guarded_spec success ex (fut p) self) as (f' & self' & Hg & Hk & Hl).
      exists {| fut := f'; handler := false; timer := timer p |}, self'.
      unfold bind. rewrite Hg. simpl. repeat split; auto; try discriminate.
      destruct Hinv as [Ht|[Ht Hd]]; [now left|right]. simpl.
      split; [exact Ht|]. now rewrite (Hk Hd).
    + exists p, self. unfold ret. repeat split; auto; try discriminate.
      apply only_key_errors_refl.
  - destruct (timer p) as [deadline|] eqn:Ht.
    + destruct (Z.leb_spec deadline now) as [Hle|Hgt].
      * unfold bind, read, ret. rewrite timeout_callback_spec.
        eexists _, self. split; [reflexivity|]. simpl.
        split; [intros Hd; now rewrite Hd|].
        split; [apply only_key_errors_refl|].
        assert (Hdone : done (if done (fut p) then fut p
                              else Exception (TimeoutError ("timeout in scope: "
                                                            +:+ scope))) = true).
        { destruct (done (fut p)) eqn:Hd; [exact Hd|reflexivity]. }
        split; [right; simpl; auto|].
        split; [|intros _ _ _; exact Hdone].
        intros _ [[Hu _]|Hq]; right; simpl; rewrite ?Hu, ?Hq; reflexivity.
      * exists p, self. unfold ret. split; [reflexivity|].
        split; [auto|]. split; [apply only_key_errors_refl|].
        split; [exact Hinv|]. split; [auto|].
        intros now' [= <-] Hd. destruct Hinv as [Hs|[Hn _]]; [|congruence].
        rewrite Ht in Hs. injection Hs as ->. lia.
    + exists p, self. unfold ret. split; [reflexivity|].
      split; [auto|]. split; [apply only_key_errors_refl|].
      split; [exact Hinv|]. split; [auto|].
      intros now' _ _. destruct Hinv as [Hs|[_ Hd]]; [congruence|exact Hd].
Qed.

Lemma loop_run_spec (d : Z) (evs : list loop_event) (p : pending) (self : exchange) :
  timer_inv d p ->
  exists p' self',
    loop_run scope callback evs p self = (Ok p', self') /\
    (done (fut p) = true -> fut p' = fut p) /\
    only_key_errors_added (log self) (log self') /\
    timer_inv d p' /\
    (Forall (fun ev => is_emit ev = false) evs ->
     quiet_inv d scope p -> quiet_inv d scope p').
Proof.
  revert p self. induction evs as [|ev evs IH]; intros p self Hinv; simpl.
  - exists p, self. unfold ret. repeat split; auto. apply only_key_errors_refl.
  - destruct (loop_step_spec d ev p self Hinv)
      as (p1 & self1 & Hs & Hk1 & Hl1 & Hi1 & Hq1 & _).
    destruct (IH p1 self1 Hi1) as (p2 & self2 & Hr & Hk2 & Hl2 & Hi2 & Hq2).
    exists p2, self2. unfold bind. rewrite Hs. split; [exact Hr|].
    split.
    { intros Hd. rewrite Hk2; [now apply Hk1|]. now rewrite Hk1. }
    split; [eapply only_key_errors_trans; eauto|].
    split; [exact Hi2|].
    intros Hall Hq. inversion Hall; subst. auto.
Qed.

End Loop.

Lemma loop_run_app (scope : string)
    (callback : bool -> option error -> future -> M future)
    (evs1 evs2 : list loop_event) (p : pending) (self : exchange) :
  loop_run scope callback (evs1 ++ evs2) p self =
    bind (loop_run scope callback evs1 p) (loop_run scope callback evs2) self.
Proof.
  revert p self. induction evs1 as [|ev evs1 IH]; intros p self; simpl.
  - reflexivity.
  - unfold bind in *.
    destruct (loop_step scope callback ev p self) as [[p'|e] self']; [|reflexivity].
    apply IH.
Qed.

Lemma loop_run_one (scope : string)
    (callback : bool -> option error -> future -> M future)
    (ev : loop_event) (p : pending) (self : exchange) :
  loop_run scope callback [ev] p self = loop_step scope callback ev p self.
Proof.
  cbn [loop_run]. unfold bind, ret.
  now destruct (loop_step scope callback ev p self) as [[p'|e] self'].
Qed.

(** *** Callbacks on a symbol that is in the store *)

Lemma callback_on_entry (E : env) (conxid event symbol : string) (op : operation)
    (success : bool) (ex : option error) (f : future) (self : exchange)
    (sc : symbol_context) :
  symbol_of self conxid event symbol = Some sc ->
  exists f' self' sc',
    callback_of E conxid event symbol op success ex f self = (Ok f', self') /\
    log self' = log self /\
    symbol_of self' conxid event symbol = Some sc'.
Proof.
  intros Hsym.
  assert (Htwice : forall g1 g2 : symbol_context -> symbol_context,
             exists s2 sc2,
               update_symbol conxid event symbol g1 self = (Ok tt, fst s2) /\
               update_symbol conxid event symbol g2 (fst s2) = (Ok tt, snd s2) /\
               log (snd s2) = log self /\
               symbol_of (snd s2) conxid event symbol = Some sc2).
  { intros g1 g2.
    destruct (StoreFacts.update_symbol_spec conxid event symbol g1 self sc Hsym)
      as (s1 & Hu1 & Hl1 & Hs1 & _).
    destruct (StoreFacts.update_symbol_spec conxid event symbol g2 s1 _ Hs1)
      as (s2 & Hu2 & Hl2 & Hs2 & _).
    exists (s1, s2). eexists. simpl. repeat split; eauto; congruence. }
  destruct op as [params|]; cbn [callback_of];
    unfold wait4obsubscribe, wait4obunsubscribe, _contextSetSubscribed,
      _contextSetSubscribing; destruct success.
  - destruct (Htwice
                (fun sc => {| subscribed := true; subscribing := subscribing sc;
                              data := data sc; sc_params := Some params |})
                (fun sc => {| subscribed := subscribed sc; subscribing := false;
                              data := data sc; sc_params := sc_params sc |}))
      as ([s1 s2] & sc2 & Hu1 & Hu2 & Hl & Hs). simpl in *.
    unfold bind. rewrite Hu1, Hu2. unfold read. rewrite done_or_set_result_spec.
    eauto 10.
  - destruct (Htwice
                (fun sc => {| subscribed := false; subscribing := subscribing sc;
                              data := data sc; sc_params := Some (VDict []) |})
                (fun sc => {| subscribed := subscribed sc; subscribing := false;
                              data := data sc; sc_params := sc_params sc |}))
      as ([s1 s2] & sc2 & Hu1 & Hu2 & Hl & Hs). simpl in *.
    unfold bind. rewrite Hu1, Hu2. unfold read. rewrite done_or_set_exception_spec.
    eauto 10.
  - destruct (Htwice
                (fun sc => {| subscribed := false; subscribing := subscribing sc;
                              data := data sc; sc_params := Some (VDict []) |})
                (fun sc => {| subscribed := subscribed sc; subscribing := false;
                              data := data sc; sc_params := sc_params sc |}))
      as ([s1 s2] & sc2 & Hu1 & Hu2 & Hl & Hs). simpl in *.
    unfold bind. rewrite Hu1, Hu2. unfold read. rewrite done_or_set_result_spec.
    eauto 10.
  - unfold read. rewrite done_or_set_exception_spec. eauto 10.
Qed.

(** On a symbol that is in the store no callback raises: the loop leaves
    the log as it is. *)
Lemma loop_run_on_entry (E : env) (conxid event symbol : string) (op : operation)
    (evs : list loop_event) :
  forall (p : pending) (self : exchange) (sc : symbol_context),
    symbol_of self conxid event symbol = Some sc ->
    exists p' self' sc',
      pending_run E conxid event symbol op evs p self = (Ok p', self') /\
      log self' = log self /\
      symbol_of self' conxid event symbol = Some sc'.
Proof.
  unfold pending_run.
  induction evs as [|ev evs IH]; intros p self sc Hsym; cbn [loop_run].
  - unfold ret. eauto 10.
  - assert (Hstep : exists p1 s1 sc1,
               loop_step (scope_of op) (callback_of E conxid event symbol op) ev p self
               = (Ok p1, s1) /\
               log s1 = log self /\ symbol_of s1 conxid event symbol = Some sc1).
    { destruct ev as [success ex|t]; cbn [loop_step].
      - destruct (handler p); [|unfold ret; eauto 10].
        destruct (callback_on_entry E conxid event symbol op success ex (fut p)
                    self sc Hsym) as (f' & s1 & sc1 & Hcb & Hl & Hs).
        unfold bind, guarded. rewrite Hcb. unfold ret. eauto 10.
      - destruct (timer p) as [deadline|]; [|unfold ret; eauto 10].
        destruct (deadline <=? t)%Z; [|unfold ret; eauto 10].
        unfold bind, read, ret. rewrite timeout_callback_spec. eauto 10. }
    destruct Hstep as (p1 & s1 & sc1 & Hstep & Hl1 & Hs1).
    destruct (IH p1 s1 sc1 Hs1) as (p2 & s2 & sc2 & Hrun & Hl2 & Hs2).
    unfold bind. rewrite Hstep. exists p2, s2, sc2.
    split; [exact Hrun|]. split; [congruence|exact Hs2].
Qed.

(** C3.  The future of a pending subscribe or unsubscribe operation is
    resolved at most once.  Take any events of the loop, cut anywhere:
    when the future is done after the first part, it is the same after the
    second, whatever that holds (a second acknowledgement, an
    acknowledgement after the timeout, the timer, later ticks).  When the
    first part ends with the clock at or past the deadline, the future is
    done by then, so the awaiting caller is resumed, and it holds the
    timeout error when no acknowledgement was emitted before.  No step of
    the loop raises.  When the symbol context of the operation is in the
    store, no callback raises either: nothing is emitted as an ['err']
    event.  In any case the only errors the callbacks raise are
    [KeyError]s of the context store, never the [InvalidStateError] of a
    second resolution. *)
Theorem C3_pending_resolves_at_most_once (E : env) (conxid event symbol : string)
    (op : operation) (now : Z) (self : exchange) (pre post : list loop_event) :
  exists p1 self1 p2 self2,
    pending_run E conxid event symbol op pre (new_pending E now) self
      = (Ok p1, self1) /\
    pending_run E conxid event symbol op post p1 self1 = (Ok p2, self2) /\
    (done (fut p1) = true -> fut p2 = fut p1) /\
    (forall early t,
        pre = early ++ [Tick t] -> (now + timeout E <= t)%Z ->
        done (fut p1) = true /\
        (Forall (fun ev => is_emit ev = false) early ->
         fut p1 = Exception (TimeoutError ("timeout in scope: " +:+ scope_of op)))) /\
    (forall sc, symbol_of self conxid event symbol = Some sc ->
                log self2 = log self) /\
    only_key_errors_added (log self) (log self2).
Proof.
  set (d := (now + timeout E)%Z) in *.
  set (cb := callback_of E conxid event symbol op).
  assert (Hg : forall success ex, guard_respecting (cb success ex))
    by (intros; apply callback_guard).
  assert (Hq : forall success ex f, quiet (cb success ex f))
    by (intros; apply callback_quiet).
  assert (Hi0 : timer_inv d (new_pending E now)) by (left; reflexivity).
  destruct (loop_run_spec (scope_of op) cb Hg Hq d pre _ self Hi0)
    as (p1 & self1 & Hr1 & _ & Hl1 & Hi1 & _).
  destruct (loop_run_spec (scope_of op) cb Hg Hq d post p1 self1 Hi1)
    as (p2 & self2 & Hr2 & Hk2 & Hl2 & _ & _).
  exists p1, self1, p2, self2.
  split; [exact Hr1|]. split; [exact Hr2|]. split; [exact Hk2|].
  split; [|split].
  - intros early t -> Hdeadline.
    destruct (loop_run_spec (scope_of op) cb Hg Hq d early _ self Hi0)
      as (pa & selfa & Hra & _ & _ & Hia & Hqa).
    destruct (loop_step_spec (scope_of op) cb Hg Hq d (Tick t) pa selfa Hia)
      as (pb & selfb & Hsb & _ & _ & _ & Hqb & Hdb).
    rewrite loop_run_app in Hr1. unfold bind in Hr1. rewrite Hra in Hr1.
    rewrite loop_run_one, Hsb in Hr1. injection Hr1 as <- <-.
    assert (Hdone : done (fut pb) = true)
      by (apply (Hdb t); [reflexivity|exact Hdeadline]).
    split; [exact Hdone|]. intros Hearly.
    assert (Hq0 : quiet_inv d (scope_of op) (new_pending E now))
      by (left; split; reflexivity).
    specialize (Hqb eq_refl (Hqa Hearly Hq0)).
    destruct Hqb as [[Hu _]|Hx]; [|exact Hx].
    rewrite Hu in Hdone. discriminate.
  - intros sc Hsym.
    destruct (loop_run_on_entry E conxid event symbol op pre (new_pending E now)
                self sc Hsym) as (p1' & s1' & sc1 & Hr1' & Hl1' & Hs1').
    unfold pending_run in Hr1'. fold cb in Hr1'. rewrite Hr1 in Hr1'.
    injection Hr1' as <- <-.
    destruct (loop_run_on_entry E conxid event symbol op post p1 self1 sc1 Hs1')
      as (p2' & s2' & sc2 & Hr2' & Hl2' & _).
    unfold pending_run in Hr2'. fold cb in Hr2'. rewrite Hr2 in Hr2'.
    injection Hr2' as <- <-. congruence.
  - eapply only_key_errors_trans; [exact Hl1|exact Hl2].
Qed.

Lemma C3_pending_resolves_at_most_once_witness :
  exists p1 self1 p2 self2,
    pending_run (Demo.stream_env (fun _ => NoAck)) "default" "ob" "BTC/USD"
      (OpSubscribe (VDict [])) ([Emit true None] ++ [Tick 10000])
      (new_pending (Demo.stream_env (fun _ => NoAck)) 0) (Demo.serving ["BTC/USD"])
      = (Ok p1, self1) /\
    pending_run (Demo.stream_env (fun _ => NoAck)) "default" "ob" "BTC/USD"
      (OpSubscribe (VDict [])) [Emit false None; Tick 20000] p1 self1
      = (Ok p2, self2) /\
    (done (fut p1) = true -> fut p2 = fut p1) /\
    (forall early t,
        [Emit true None] ++ [Tick 10000] = early ++ [Tick t] ->
        (0 + timeout (Demo.stream_env (fun _ => NoAck)) <= t)%Z ->
        done (fut p1) = true /\
        (Forall (fun ev => is_emit ev = false) early ->
         fut p1 = Exception (TimeoutError ("timeout in scope: "
                                           +:+ scope_of (OpSubscribe (VDict [])))))) /\
    (forall sc, symbol_of (Demo.serving ["BTC/USD"]) "default" "ob" "BTC/USD" = Some sc ->
                log self2 = log (Demo.serving ["BTC/USD"])) /\
    only_key_errors_added (log (Demo.serving ["BTC/USD"])) (log self2).
Proof.
  exact (C3_pending_resolves_at_most_once (Demo.stream_env (fun _ => NoAck))
           "default" "ob" "BTC/USD" (OpSubscribe (VDict [])) 0
           (Demo.serving ["BTC/USD"]) ([Emit true None] ++ [Tick 10000])
           [Emit false None; Tick 20000]).
Defined.

(** On a pair that has no symbol context, the callback of a positive
    acknowledgement raises: here the acknowledgement of an unsubscription
    arrives after the timeout, the callback raises [KeyError], which is
    emitted as an ['err'] event, and the timeout error stays. *)
Lemma C3_late_ack_on_unknown_pair_raises :
  symbol_of (Demo.serving ["ETH/USD"]) "default" "ob" "BTC/USD" = None /\
  pending_run (Demo.stream_env (fun _ => NoAck)) "default" "ob" "BTC/USD"
    OpUnsubscribe [Tick 10000; Emit true None]
    (new_pending (Demo.stream_env (fun _ => NoAck)) 0) (Demo.serving ["ETH/USD"])
  = (Ok {| fut := Exception (TimeoutError "timeout in scope: websocket_unsubscribe");
           handler := false; timer := None |},
     add_log (ObsErr (KeyError "BTC/USD")) (Demo.serving ["ETH/USD"])).
Proof. split; reflexivity. Qed.

(** An acknowledgement that arrives after the timeout finds the future
    done and leaves the timeout in it. *)
Example late_ack_after_timeout :
  fst (pending_run (Demo.stream_env (fun _ => NoAck)) "default" "ob" "BTC/USD"
         (OpSubscribe (VDict [])) [Tick 10000; Emit true None]
         (new_pending (Demo.stream_env (fun _ => NoAck)) 0)
         (Demo.serving ["BTC/USD"]))
  = Ok {| fut := Exception (TimeoutError "timeout in scope: websocket_subscribe");
          handler := false; timer := None |}.
Proof. reflexivity. Qed.

(** Unguarded, the second resolution would raise. *)
Example unguarded_second_resolution :
  set_result (Exception (TimeoutError "timeout in scope: websocket_subscribe"))
    (VStr "default") = Raise InvalidStateError.
Proof. reflexivity. Qed.

End PendingFacts.

(** ** Wire shapes *)

Module WireFacts.
Import Py OrderBook Wire.
Local Open Scope Z_scope.

Section Parse.

Variable parse_bid_ask : pyval -> pykey -> pykey -> res level.
Variable iso8601 : Z -> string.

Lemma parse_each_ok (bidasks : list pyval) (price_key amount_key : pykey)
    (lvs : list level) :
  Forall2 (fun b lv => parse_bid_ask b price_key amount_key = Ok lv) bidasks lvs ->
  parse_each parse_bid_ask bidasks price_key amount_key = Ok lvs.
Proof.
  induction 1 as [|b lv bidasks lvs Hb _ IH]; simpl.
  - reflexivity.
  - now rewrite Hb, IH.
Qed.

Lemma parse_each_keyed_ok (bidasks : list pyval) (price_key amount_key : pykey)
    (lvs : list level) :
  Forall is_dict bidasks ->
  Forall2 (fun b lv => parse_bid_ask b price_key amount_key = Ok lv)
    (List.filter (has_both price_key amount_key) bidasks) lvs ->
  parse_each_keyed parse_bid_ask bidasks price_key amount_key = Ok lvs.
Proof.
  intros Hd. revert lvs. induction Hd as [|b bidasks Hb _ IH]; intros lvs H; simpl in *.
  - now inversion H.
  - destruct b as [| | | | |entries]; try contradiction.
    unfold has_both, has_key in H. simpl in *.
    destruct (existsb (fun kv => pykey_eqb (fst kv) price_key) entries); simpl in *.
    + destruct (existsb (fun kv => pykey_eqb (fst kv) amount_key) entries); simpl in *.
      * inversion H as [|? lv ? lvs' Hlv Hrest]; subst.
        rewrite Hlv. simpl. now rewrite (IH lvs' Hrest).
      * now apply IH.
    + now apply IH.
Qed.

(** C8, as the code has it.  [parse_bids_asks2] looks at the type of the
    first entry only.  An empty list gives no level.  When the first entry
    is a list, every entry is normalized by [parse_bid_ask], in order.
    When it is a dict and the entries are dicts, those that have both the
    price key and the amount key are normalized and the others are left
    out without an error.  When it is neither, [ExchangeError] is raised.
    A side of the message that is missing or is not a list gives no delta,
    without an error. *)
Theorem C8_wire_shapes (price_key amount_key : pykey) :
  parse_bids_asks2 parse_bid_ask [] price_key amount_key = Ok [] /\
  (forall (bidasks : list pyval) (lvs : list level),
      first_is_list bidasks ->
      Forall2 (fun b lv => parse_bid_ask b price_key amount_key = Ok lv) bidasks lvs ->
      parse_bids_asks2 parse_bid_ask bidasks price_key amount_key = Ok lvs) /\
  (forall (bidasks : list pyval) (lvs : list level),
      Forall is_dict bidasks ->
      Forall2 (fun b lv => parse_bid_ask b price_key amount_key = Ok lv)
        (List.filter (has_both price_key amount_key) bidasks) lvs ->
      parse_bids_asks2 parse_bid_ask bidasks price_key amount_key = Ok lvs) /\
  (forall (first : pyval) (rest : list pyval),
      ~ is_list first -> ~ is_dict first ->
      parse_bids_asks2 parse_bid_ask (first :: rest) price_key amount_key =
        Raise (ExchangeError ("unrecognized bidask format: " +:+ str first))) /\
  (forall (orderbook : dict pyval) (side_key : string),
      (forall bidasks, dict_get side_key orderbook <> Some (VList bidasks)) ->
      parse_side parse_bid_ask orderbook side_key price_key amount_key = Ok []).
Proof.
  split; [reflexivity|]. split; [|split; [|split]].
  - intros bidasks lvs Hfirst H. destruct bidasks as [|first rest].
    + now inversion H.
    + destruct first; simpl in Hfirst; try contradiction.
      now apply parse_each_ok.
  - intros bidasks lvs Hd H. destruct bidasks as [|first rest].
    + now inversion H.
    + pose proof (Forall_inv Hd) as Hfirst.
      destruct first; simpl in Hfirst; try contradiction.
      now apply parse_each_keyed_ok.
  - intros first rest Hl Hd. destruct first; simpl in *; try reflexivity; tauto.
  - intros orderbook side_key Hside. unfold parse_side.
    destruct (dict_get side_key orderbook) as [[| | | |bidasks|]|];
      try reflexivity.
    now destruct (Hside bidasks).
Qed.

End Parse.

Lemma C8_wire_shapes_witness :
  parse_bids_asks2 parse_bid_ask_base
    [VList [VNum 100; VNum 5]; VList [VNum 99; VNum 0]] (KInt 0) (KInt 1)
  = Ok [(100, 5); (99, 0)] /\
  parse_bids_asks2 parse_bid_ask_base
    [VDict [(KStr "price", VNum 100); (KStr "amount", VNum 5)];
     VDict [(KStr "price", VNum 99)]] (KStr "price") (KStr "amount")
  = Ok [(100, 5)] /\
  parse_bids_asks2 parse_bid_ask_base [VNum 100; VNum 5] (KInt 0) (KInt 1)
  = Raise (ExchangeError ("unrecognized bidask format: " +:+ str (VNum 100))).
Proof.
  split; [|split].
  - apply (proj1 (proj2 (C8_wire_shapes parse_bid_ask_base (KInt 0) (KInt 1)))).
    + exact I.
    + repeat constructor.
  - apply (proj1 (proj2 (proj2
             (C8_wire_shapes parse_bid_ask_base (KStr "price") (KStr "amount"))))).
    + repeat constructor.
    + repeat constructor.
  - apply (proj1 (proj2 (proj2 (proj2
             (C8_wire_shapes parse_bid_ask_base (KInt 0) (KInt 1)))))).
    + intros [].
    + intros [].
Defined.

(** Entries that cannot be normalized are not all rejected with the
    format error: an object without the amount key is left out silently,
    a number after a well-formed object raises [TypeError], and a side
    that is a string is taken as empty. *)
Lemma C8_malformed_not_rejected :
  parse_bids_asks2 parse_bid_ask_base [VDict [(KStr "price", VNum 100)]]
    (KStr "price") (KStr "amount") = Ok [] /\
  parse_bids_asks2 parse_bid_ask_base
    [VDict [(KStr "price", VNum 100); (KStr "amount", VNum 5)]; VNum 7]
    (KStr "price") (KStr "amount") = Raise (TypeError "argument is not iterable") /\
  mergeOrderBookDelta parse_bid_ask_base (fun _ => "")
    {| ob_bids := [(100, 5)]; ob_asks := []; ob_timestamp := None;
       ob_datetime := None; ob_nonce := VNone |}
    [("bids", VStr "garbage")] None "bids" "asks" (KInt 0) (KInt 1)
  = Ok {| ob_bids := [(100, 5)]; ob_asks := []; ob_timestamp := None;
          ob_datetime := None; ob_nonce := VNone |}.
Proof. repeat split. Qed.

End WireFacts.

(** ** The action resolver *)

Module ResolverFacts.
Import Py Store Resolver.

Lemma dict_mem_of_get {V} (k : string) (d : dict V) (v : V) :
  dict_get k d = Some v -> dict_mem k d = true.
Proof. unfold dict_mem. now intros ->. Qed.

(** The action for a request that resolves to an aggregate stream, in
    terms of the two flags read at the start. *)
Lemma get_action_stream (E : env) (self : exchange) (conxid event symbol : string)
    (subscription : bool) (sp : pyval) (name : string) (config : dict pyval)
    (cid : string) (subscribed : list event_symbol) (b1 b2 : bool) :
  resolves_to_stream E self event symbol name config cid subscribed ->
  _contextIsSubscribed self conxid event symbol = Ok b1 ->
  _contextIsSubscribing self conxid event symbol = Ok b2 ->
  _websocket_get_action_for_event E self conxid event symbol subscription sp =
    if subscription && (b1 || b2) then Ok None
    else if negb subscription && (negb b1 && negb b2) then Ok None
    else stream_action E self config name event symbol subscription sp.
Proof.
  intros (evs & ec & tpls & tpl & Hevs & Hec & Hname & Htpls & Htpl & Hconfig
          & Hurl & Htype & Hid & Hsub) H1 H2.
  unfold _websocket_get_action_for_event. rewrite H1, H2. cbn [res_bind].
  destruct (subscription && (b1 || b2)); [reflexivity|].
  destruct (negb subscription && (negb b1 && negb b2)); [reflexivity|].
  rewrite Hevs. cbn [res_bind]. rewrite Hec. cbv zeta. rewrite <- Hname.
  rewrite Htpls. cbn [res_bind]. rewrite Htpl. rewrite <- Hconfig.
  rewrite (dict_mem_of_get _ _ _ Hid), Hurl, (dict_mem_of_get _ _ _ Htype).
  cbn [andb negb]. unfold dict_item. rewrite Htype. reflexivity.
Qed.

(** *** The pairs listed for a context *)

Lemma subscribed_symbols_cons (key s : string) (sc : symbol_context)
    (rest : dict symbol_context) :
  subscribed_symbols key ((s, sc) :: rest) =
    (if subscribed sc || subscribing sc then
       [{| es_event := key; es_symbol := s;
           es_params := Some (match sc_params sc with
                              | Some params => params
                              | None => VDict []
                              end) |}]
     else []) ++ subscribed_symbols key rest.
Proof. reflexivity. Qed.

Lemma subscribed_symbols_In (key : string) (syms : dict symbol_context)
    (es : event_symbol) :
  In es (subscribed_symbols key syms) ->
  es_event es = key /\ In (es_symbol es) (dict_keys syms).
Proof.
  induction syms as [|[s sc] rest IH]; [intros []|].
  rewrite subscribed_symbols_cons, in_app_iff. intros [H|H].
  - destruct (subscribed sc || subscribing sc); [|destruct H].
    destruct H as [<-|[]]. simpl. auto.
  - destruct (IH H) as [He Hs]. split; [exact He|]. right. exact Hs.
Qed.

Lemma subscribed_symbols_NoDup (key : string) (syms : dict symbol_context) :
  dict_wf syms -> NoDup (map pair_of (subscribed_symbols key syms)).
Proof.
  unfold dict_wf. induction syms as [|[s sc] rest IH]; intros Hwf.
  - constructor.
  - simpl in Hwf. apply NoDup_cons in Hwf as [Hs Hrest].
    rewrite subscribed_symbols_cons.
    destruct (subscribed sc || subscribing sc); simpl; [|now apply IH].
    constructor; [|now apply IH].
    intros Hin. apply list_elem_of_In, in_map_iff in Hin as (es & Hp & Hin).
    apply subscribed_symbols_In in Hin as [_ Hin].
    injection Hp as _ Hsym. rewrite Hsym in Hin. apply Hs.
    now apply list_elem_of_In.
Qed.

Lemma all_subscribed_In (evs : dict (dict symbol_context)) (es : event_symbol) :
  In es (flat_map (fun entry => subscribed_symbols (fst entry) (snd entry)) evs) ->
  In (es_event es) (dict_keys evs).
Proof.
  rewrite in_flat_map. intros ([key syms] & Hentry & Hin). simpl in Hin.
  apply subscribed_symbols_In in Hin as [He _]. rewrite He.
  apply (in_map fst) in Hentry. exact Hentry.
Qed.

Lemma all_subscribed_NoDup (c : context) :
  context_wf c ->
  NoDup (map pair_of
           (flat_map (fun entry => subscribed_symbols (fst entry) (snd entry))
              (events c))).
Proof.
  intros [Hkeys Hsyms]. unfold dict_wf in Hkeys.
  induction (events c) as [|[key syms] rest IH]; simpl.
  - constructor.
  - simpl in Hkeys. apply NoDup_cons in Hkeys as [Hkey Hrest].
    apply Forall_cons in Hsyms as [Hwf Hsyms].
    rewrite map_app. apply NoDup_app. split; [|split].
    + now apply subscribed_symbols_NoDup.
    + intros pr H1 H2.
      apply list_elem_of_In, in_map_iff in H1 as (es1 & <- & H1).
      apply list_elem_of_In, in_map_iff in H2 as (es2 & Hp & H2).
      apply subscribed_symbols_In in H1 as [He1 _].
      apply all_subscribed_In in H2.
      injection Hp as Hev _. apply Hkey. apply list_elem_of_In.
      simpl in He1. now rewrite <- He1, <- Hev.
    + now apply IH.
Qed.

(** *** Removing the pair of the request *)

Lemma matches_pair (es : event_symbol) (event symbol : string) :
  String.eqb (es_event es) event && String.eqb (es_symbol es) symbol = true <->
  pair_of es = (event, symbol).
Proof.
  unfold pair_of. rewrite andb_true_iff, !String.eqb_eq. split.
  - intros [-> ->]. reflexivity.
  - intros [= -> ->]. auto.
Qed.

Lemma remove_first_In (event symbol : string) (l : list event_symbol)
    (es : event_symbol) :
  NoDup (map pair_of l) ->
  In es (remove_first event symbol l) <->
  In es l /\ pair_of es <> (event, symbol).
Proof.
  induction l as [|el rest IH]; intros Hnd; simpl.
  - tauto.
  - simpl in Hnd. apply NoDup_cons in Hnd as [Hel Hrest].
    destruct (String.eqb (es_event el) event && String.eqb (es_symbol el) symbol)
      eqn:Hm.
    + apply matches_pair in Hm. split.
      * intros Hin. split; [now right|]. intros Hp. apply Hel.
        apply list_elem_of_In, in_map_iff. exists es. split; [congruence|exact Hin].
      * intros [[<-|Hin] Hp]; [contradiction|exact Hin].
    + assert (Hn : pair_of el <> (event, symbol)).
      { intros Hp. apply matches_pair in Hp. congruence. }
      simpl. rewrite (IH Hrest). split.
      * intros [<-|[Hin Hp]]; auto.
      * intros [[<-|Hin] Hp]; auto.
Qed.

(** C2.  For a request that resolves to an aggregate-stream (['ws-s'])
    connection, [_websocket_get_action_for_event] on a subscribe request
    that is not already served returns the action ['reconnect'] with the
    URL generated from the pairs already subscribed or subscribing followed
    by the new pair.  On an unsubscribe request for a served pair it takes
    the pair out of that list; with nothing left the action is
    ['disconnect'], otherwise it is ['reconnect'] with the URL generated
    from the pairs that remain, which are exactly the listed pairs other
    than the one of the request. *)
Theorem C2_stream_action (E : env) (self : exchange) (conxid event symbol : string)
    (sp : pyval) (name : string) (config : dict pyval) (cid : string)
    (subscribed : list event_symbol) (c : context) (b1 b2 : bool)
    (Hstream : resolves_to_stream E self event symbol name config cid subscribed)
    (Hcontext : dict_get cid (websocketContexts self) = Some c)
    (Hwf : context_wf c)
    (Hsubscribed : _contextIsSubscribed self conxid event symbol = Ok b1)
    (Hsubscribing : _contextIsSubscribing self conxid event symbol = Ok b2) :
  (b1 || b2 = false ->
   _websocket_get_action_for_event E self conxid event symbol true sp =
     res_bind
       (_websocket_generate_url_stream E
          (subscribed ++ [{| es_event := event; es_symbol := symbol;
                             es_params := None |}]) config sp)
       (fun url =>
          Ok (Some {| act := "reconnect"; conx_config := dict_set "url" url config;
                      reset_context := "onreconnect"; act_conx_tpl := name |}))) /\
  (b1 || b2 = true ->
   _websocket_get_action_for_event E self conxid event symbol false sp =
     match remove_first event symbol subscribed with
     | [] =>
         Ok (Some {| act := "disconnect"; conx_config := config;
                     reset_context := "always"; act_conx_tpl := name |})
     | remaining =>
         res_bind (_websocket_generate_url_stream E remaining config sp)
           (fun url =>
              Ok (Some {| act := "reconnect";
                          conx_config := dict_set "url" url config;
                          reset_context := "onreconnect";
                          act_conx_tpl := name |}))
     end) /\
  (forall es : event_symbol,
      In es (remove_first event symbol subscribed) <->
      In es subscribed /\ pair_of es <> (event, symbol)).
Proof.
  pose proof Hstream as (_ & _ & _ & _ & _ & _ & _ & _ & _ & _ & _ & Htype & Hid & Hsub).
  split; [|split].
  - intros Hb.
    rewrite (get_action_stream E self conxid event symbol true sp name config cid
               subscribed b1 b2 Hstream Hsubscribed Hsubscribing).
    rewrite Hb. cbn [andb negb]. unfold stream_action, dict_item.
    rewrite Hid. cbn [res_bind]. rewrite Hsub. reflexivity.
  - intros Hb.
    rewrite (get_action_stream E self conxid event symbol false sp name config cid
               subscribed b1 b2 Hstream Hsubscribed Hsubscribing).
    cbn [andb negb]. rewrite <- negb_orb, Hb. cbn [negb].
    unfold stream_action, dict_item. rewrite Hid. cbn [res_bind]. rewrite Hsub.
    cbn [res_bind]. now destruct (remove_first event symbol subscribed).
  - intros es. apply remove_first_In.
    unfold _websocketContextGetSubscribedEventSymbols, _contextGetEvents, dict_item
      in Hsub.
    rewrite Hcontext in Hsub. injection Hsub as <-.
    now apply all_subscribed_NoDup.
Qed.

Ltac concrete_stream :=
  unfold resolves_to_stream;
  eexists _, _, _, _; repeat split; reflexivity.

Ltac concrete_context_wf :=
  split; simpl;
  repeat first
    [ apply NoDup_nil_2
    | apply NoDup_cons_2; [rewrite ?elem_of_cons, ?elem_of_nil; intuition congruence|]
    | apply Forall_nil_2
    | apply Forall_cons_2; [unfold dict_wf; simpl|] ].

Lemma C2_stream_action_witness :
  (* subscribing to BTC/USD on a stream that serves ETH/USD *)
  _websocket_get_action_for_event (Demo.stream_env (fun _ => NoAck))
    (Demo.serving ["ETH/USD"]) "default" "ob" "BTC/USD" true (VDict [])
  = Ok (Some {| act := "reconnect";
                conx_config := dict_set "url" (VStr "wss://stream/ETH/USD/BTC/USD")
                                 (Demo.stream_config "BTC/USD");
                reset_context := "onreconnect"; act_conx_tpl := "default" |}) /\
  (* unsubscribing from one of two symbols *)
  _websocket_get_action_for_event (Demo.stream_env (fun _ => NoAck))
    (Demo.serving ["ETH/USD"; "BTC/USD"]) "default" "ob" "BTC/USD" false (VDict [])
  = Ok (Some {| act := "reconnect";
                conx_config := dict_set "url" (VStr "wss://stream/ETH/USD")
                                 (Demo.stream_config "BTC/USD");
                reset_context := "onreconnect"; act_conx_tpl := "default" |}) /\
  (* unsubscribing from the last symbol *)
  _websocket_get_action_for_event (Demo.stream_env (fun _ => NoAck))
    (Demo.serving ["BTC/USD"]) "default" "ob" "BTC/USD" false (VDict [])
  = Ok (Some {| act := "disconnect"; conx_config := Demo.stream_config "BTC/USD";
                reset_context := "always"; act_conx_tpl := "default" |}).
Proof.
  split; [|split].
  - assert (Hs : resolves_to_stream (Demo.stream_env (fun _ => NoAck))
                   (Demo.serving ["ETH/USD"]) "ob" "BTC/USD" "default"
                   (Demo.stream_config "BTC/USD") "default" [Demo.served "ETH/USD"])
      by concrete_stream.
    assert (Hwf : context_wf
                    {| scratch := []; conx_tpl := Some "default";
                       events := [("ob", [("ETH/USD", Demo.subscribed_symbol)])];
                       info := None |}) by concrete_context_wf.
    exact (proj1 (C2_stream_action _ _ "default" "ob" "BTC/USD" (VDict []) _ _ _ _ _
                    false false Hs eq_refl Hwf eq_refl eq_refl) eq_refl).
  - assert (Hs : resolves_to_stream (Demo.stream_env (fun _ => NoAck))
                   (Demo.serving ["ETH/USD"; "BTC/USD"]) "ob" "BTC/USD" "default"
                   (Demo.stream_config "BTC/USD") "default"
                   [Demo.served "ETH/USD"; Demo.served "BTC/USD"])
      by concrete_stream.
    assert (Hwf : context_wf
                    {| scratch := []; conx_tpl := Some "default";
                       events := [("ob", [("ETH/USD", Demo.subscribed_symbol);
                                          ("BTC/USD", Demo.subscribed_symbol)])];
                       info := None |}) by concrete_context_wf.
    exact (proj1 (proj2 (C2_stream_action _ _ "default" "ob" "BTC/USD" (VDict []) _ _ _
                           _ _ true false Hs eq_refl Hwf eq_refl eq_refl)) eq_refl).
  - assert (Hs : resolves_to_stream (Demo.stream_env (fun _ => NoAck))
                   (Demo.serving ["BTC/USD"]) "ob" "BTC/USD" "default"
                   (Demo.stream_config "BTC/USD") "default" [Demo.served "BTC/USD"])
      by concrete_stream.
    assert (Hwf : context_wf
                    {| scratch := []; conx_tpl := Some "default";
                       events := [("ob", [("BTC/USD", Demo.subscribed_symbol)])];
                       info := None |}) by concrete_context_wf.
    exact (proj1 (proj2 (C2_stream_action _ _ "default" "ob" "BTC/USD" (VDict []) _ _ _
                           _ _ true false Hs eq_refl Hwf eq_refl eq_refl)) eq_refl).
Defined.

End ResolverFacts.

(** ** The subscription orchestrator *)

Module OrchestratorFacts.
Import Py Store Resolver Pending Orchestrator MonadFacts.
Local Open Scope exchange_scope.

(** *** What a computation appends to the log *)

Lemma emits_weaken {A} (m : M A) (P Q : obs -> bool) :
  (forall o, P o = true -> Q o = true) -> emits m P -> emits m Q.
Proof.
  intros HPQ Hm self r self' H. destruct (Hm _ _ _ H) as (added & Hl & Hp).
  exists added. split; [exact Hl|]. rewrite forallb_forall in *. auto.
Qed.

Lemma emits_nothing {A} (m : M A) (P : obs -> bool) : emits m nothing -> emits m P.
Proof. apply emits_weaken. discriminate. Qed.

Lemma nothing_added (added : list obs) : forallb nothing added = true -> added = [].
Proof. destruct added; [reflexivity|discriminate]. Qed.

Lemma emits_same_log {A} (m : M A) :
  (forall self r self', m self = (r, self') -> log self' = log self) ->
  emits m nothing.
Proof.
  intros Hm self r self' H. exists []. rewrite app_nil_r. split; [eauto|reflexivity].
Qed.

Lemma emits_ret {A} (a : A) (P : obs -> bool) : emits (ret a) P.
Proof.
  apply emits_nothing, emits_same_log. unfold ret. now intros self r self' [= _ <-].
Qed.

Lemma emits_raise {A} (e : error) (P : obs -> bool) : emits (@raise A e) P.
Proof.
  apply emits_nothing, emits_same_log. unfold raise. now intros self r self' [= _ <-].
Qed.

Lemma emits_read {A} (f : exchange -> res A) (P : obs -> bool) : emits (read f) P.
Proof.
  apply emits_nothing, emits_same_log. unfold read. now intros self r self' [= _ <-].
Qed.

Lemma emits_modify (f : exchange -> exchange) (P : obs -> bool) :
  (forall self, log (f self) = log self) -> emits (modify f) P.
Proof.
  intros Hf. apply emits_nothing, emits_same_log. unfold modify.
  intros self r self' [= _ <-]. apply Hf.
Qed.

Lemma emits_observe (o : obs) (P : obs -> bool) : P o = true -> emits (observe o) P.
Proof.
  intros Ho self r self'. unfold observe, modify. intros [= _ <-].
  exists [o]. simpl. now rewrite Ho.
Qed.

Lemma emits_bind {A B} (m : M A) (k : A -> M B) (P : obs -> bool) :
  emits m P -> (forall a, emits (k a) P) -> emits (bind m k) P.
Proof.
  intros Hm Hk self r self' H. unfold bind in H.
  destruct (m self) as [[a|e] self1] eqn:Hms.
  - destruct (Hm _ _ _ Hms) as (a1 & Hl1 & Hp1).
    destruct (Hk a _ _ _ H) as (a2 & Hl2 & Hp2).
    exists (a1 ++ a2). rewrite Hl2, Hl1, app_assoc. split; [reflexivity|].
    rewrite forallb_app, Hp1, Hp2. reflexivity.
  - inversion H; subst. destruct (Hm _ _ _ Hms) as (a1 & Hl1 & Hp1). eauto.
Qed.

Lemma emits_for_each {A} (xs : list A) (body : A -> M unit) (P : obs -> bool) :
  (forall x, emits (body x) P) -> emits (for_each xs body) P.
Proof.
  intros Hb. induction xs as [|x xs IH]; simpl.
  - apply emits_ret.
  - apply emits_bind; [apply Hb|intros _; exact IH].
Qed.

Lemma emits_try_finally {A} (body : M A) (cleanup : M unit) (P : obs -> bool) :
  emits body P -> emits cleanup P -> emits (try_finally body cleanup) P.
Proof.
  intros Hb Hc self r self' H. unfold try_finally in H.
  destruct (body self) as [rb self1] eqn:Hbs.
  destruct (cleanup self1) as [rc self2] eqn:Hcs.
  destruct (Hb _ _ _ Hbs) as (a1 & Hl1 & Hp1).
  destruct (Hc _ _ _ Hcs) as (a2 & Hl2 & Hp2).
  exists (a1 ++ a2).
  assert (Hself : self' = self2) by (destruct rc; now inversion H). subst self'.
  rewrite Hl2, Hl1, app_assoc. split; [reflexivity|].
  rewrite forallb_app, Hp1, Hp2. reflexivity.
Qed.

Lemma emits_except {A} (body handler : M A) (P : obs -> bool) :
  emits body P -> emits handler P -> emits (except_AttributeError body handler) P.
Proof.
  intros Hb Hh self r self' H. unfold except_AttributeError in H.
  destruct (body self) as [rb self1] eqn:Hbs.
  destruct (Hb _ _ _ Hbs) as (a1 & Hl1 & Hp1).
  assert (Hcases : (rb = Raise AttributeError /\ handler self1 = (r, self')) \/
                   (r, self') = (rb, self1)).
  { destruct rb as [a|e]; [right; now inversion H|].
    destruct e; try (right; now inversion H). left. auto. }
  destruct Hcases as [[_ Hhs]|Heq].
  - destruct (Hh _ _ _ Hhs) as (a2 & Hl2 & Hp2).
    exists (a1 ++ a2). rewrite Hl2, Hl1, app_assoc. split; [reflexivity|].
    rewrite forallb_app, Hp1, Hp2. reflexivity.
  - inversion Heq; subst. eauto.
Qed.

Lemma emits_update_context (conxid : string) (f : context -> res context)
    (P : obs -> bool) : emits (update_context conxid f) P.
Proof.
  apply emits_nothing, emits_same_log. intros self r self'. unfold update_context.
  destruct (dict_get conxid (websocketContexts self)) as [c|];
    [destruct (f c)|]; now intros [= _ <-].
Qed.

Lemma emits_reset_context (conxid : string) (conxtpl : option string)
    (P : obs -> bool) : emits (_websocket_reset_context conxid conxtpl) P.
Proof.
  intros self r self' H. unfold _websocket_reset_context in H.
  destruct (negb (dict_mem conxid (websocketContexts self))).
  - inversion H; subst. exists []. simpl. now rewrite app_nil_r.
  - eapply emits_update_context; eauto.
Qed.

Lemma emits_guarded (callback : future -> M future) (f : future) (P : obs -> bool) :
  emits (callback f) P -> (forall e, P (ObsErr e) = true) ->
  emits (guarded callback f) P.
Proof.
  intros Hc He self r self' H. unfold guarded in H.
  destruct (callback f self) as [[f'|e] self1] eqn:Hcs;
    destruct (Hc _ _ _ Hcs) as (a1 & Hl1 & Hp1); inversion H; subst.
  - eauto.
  - exists (a1 ++ [ObsErr e]). simpl. rewrite Hl1, app_assoc. split; [reflexivity|].
    rewrite forallb_app, Hp1. simpl. now rewrite He.
Qed.

Lemma emits_deliver (a : ack) (callback : bool -> option error -> future -> M future)
    (f : future) (P : obs -> bool) :
  (forall success ex, emits (callback success ex f) P) ->
  (forall e, P (ObsErr e) = true) ->
  emits (deliver a callback f) P.
Proof.
  intros Hc He. destruct a; simpl.
  - now apply emits_guarded.
  - now apply emits_guarded.
  - apply emits_ret.
Qed.

Ltac same_log :=
  intros ?; simpl;
  repeat match goal with
         | |- context [if ?b then _ else _] => destruct b
         end; reflexivity.

Ltac emits_step :=
  first
    [ apply emits_ret
    | apply emits_raise
    | apply emits_read
    | apply emits_update_context
    | apply emits_reset_context
    | apply emits_observe; reflexivity
    | apply emits_modify; same_log
    | apply emits_except
    | apply emits_try_finally
    | apply emits_for_each; intros ?
    | apply emits_bind; [|intros ?] ].

Ltac emits_cases :=
  match goal with
  | |- emits (if ?b then _ else _) _ => destruct b
  | |- emits (match ?x with _ => _ end) _ => destruct x
  end.

Ltac emits_auto := repeat first [emits_step | emits_cases].

Lemma emits_update_symbol (conxid event symbol : string)
    (f : symbol_context -> symbol_context) (P : obs -> bool) :
  emits (update_symbol conxid event symbol f) P.
Proof. unfold update_symbol, update_symbols. apply emits_update_context. Qed.

Lemma emits_set_subscribed (conxid event symbol : string) (value : bool)
    (params : pyval) (P : obs -> bool) :
  emits (_contextSetSubscribed conxid event symbol value params) P.
Proof. apply emits_update_symbol. Qed.

Lemma emits_set_subscribing (conxid event symbol : string) (value : bool)
    (P : obs -> bool) :
  emits (_contextSetSubscribing conxid event symbol value) P.
Proof. apply emits_update_symbol. Qed.

Lemma emits_callback (E : env) (conxid event symbol : string) (op : operation)
    (success : bool) (ex : option error) (f : future) (P : obs -> bool) :
  emits (callback_of E conxid event symbol op success ex f) P.
Proof.
  destruct op; simpl; unfold wait4obsubscribe, wait4obunsubscribe; destruct success;
    repeat first [apply emits_set_subscribed | apply emits_set_subscribing | emits_step].
Qed.

Lemma emits_update_info (conxid : string) (f : conx_info -> conx_info)
    (P : obs -> bool) : emits (update_info conxid f) P.
Proof. apply emits_update_context. Qed.

Lemma emits_close (conxid : string) (conx : option connection) (P : obs -> bool) :
  P (ObsClose conxid) = true -> emits (close_connection conxid conx) P.
Proof.
  intros HP. unfold close_connection. destruct conx; [|apply emits_raise].
  apply emits_bind; [now apply emits_observe|intros _; apply emits_update_info].
Qed.

Lemma emits_connect (E : env) (conxid : string) (P : obs -> bool) :
  P (ObsConnect conxid) = true -> emits (connect_connection E conxid) P.
Proof.
  intros HP. unfold connect_connection.
  apply emits_bind; [now apply emits_observe|intros _].
  apply emits_bind; [apply emits_read|intros _; apply emits_update_info].
Qed.

Lemma emits_initialize (E : env) (config : dict pyval) (conxid : string)
    (P : obs -> bool) : emits (_websocket_initialize E config conxid) P.
Proof. unfold _websocket_initialize. emits_auto. Qed.

Lemma emits_reinitialize (E : env) (conxid conxtpl : string) (config : dict pyval)
    (P : obs -> bool) : emits (reinitialize E conxid conxtpl config) P.
Proof.
  unfold reinitialize, _contextSetConnectionInfo.
  apply emits_bind; [apply emits_reset_context|intros _].
  apply emits_bind; [apply emits_initialize|intros i; apply emits_update_context].
Qed.

Lemma emits_wait4ready (conxid : string) (success : bool) (ex : option error)
    (f : future) (P : obs -> bool) :
  emits (wait4ready_event conxid success ex f) P.
Proof.
  unfold wait4ready_event. destruct success.
  - apply emits_bind; [apply emits_update_info|intros _; apply emits_read].
  - emits_auto.
Qed.

Lemma emits_websocket_connect (E : env) (conxid : string) :
  emits (websocket_connect E conxid) in_flush.
Proof.
  unfold websocket_connect.
  repeat (apply emits_bind; [apply emits_read|intros ?]).
  destruct (negb _); [|apply emits_ret].
  repeat (apply emits_bind; [apply emits_read|intros ?]).
  assert (Hwait : emits
            (run connect_connection E conxid;
             do f <- deliver (ready_event E conxid) (wait4ready_event conxid) Unresolved;
             do _ <- read (fun _ => await "websocket_connect" f);
             ret tt) in_flush).
  { apply emits_bind; [now apply emits_connect|intros _].
    apply emits_bind.
    - apply emits_deliver; [intros; apply emits_wait4ready|reflexivity].
    - intros f. emits_auto. }
  destruct (dict_get _ _) as [[]|]; try exact Hwait; now apply emits_connect.
Qed.

(** *** Resolving one request in delayed mode *)

Lemma bind_nothing_inv {A B} (m : M A) (k : A -> M B) (self self' : exchange)
    (r : res B) :
  emits m nothing -> bind m k self = (r, self') ->
  (exists e, r = Raise e /\ log self' = log self) \/
  (exists a self1, log self1 = log self /\ k a self1 = (r, self')).
Proof.
  intros Hm H. unfold bind in H. destruct (m self) as [[a|e] self1] eqn:Hms;
    destruct (Hm _ _ _ Hms) as (added & Hl & Hn);
    apply nothing_added in Hn; subst added; rewrite app_nil_r in Hl.
  - right. eauto.
  - left. inversion H; subst. eauto.
Qed.

Lemma bind_observe (o : obs) {B} (k : unit -> M B) (self : exchange) :
  bind (observe o) k self = k tt (add_log o self).
Proof. reflexivity. Qed.

Lemma ensure_log (E : env) (event symbol : string) (subscribe : bool) (sp : pyval)
    (self self' : exchange) (r : res string) :
  _websocket_ensure_conx_active E event symbol subscribe sp true self = (r, self') ->
  (exists e, r = Raise e /\ log self' = log self) \/
  (exists closes,
      log self' = log self ++ ObsResolve event symbol subscribe :: closes /\
      forallb is_close closes = true).
Proof.
  unfold _websocket_ensure_conx_active. intros H.
  apply (bind_nothing_inv _ _ _ _ _ (emits_read _ _)) in H
    as [?|(? & s1 & Hl1 & H)]; [now left|].
  apply (bind_nothing_inv _ _ _ _ _ (emits_read _ _)) in H
    as [(e & -> & Hl)|([conxid conxtpl] & s2 & Hl2 & H)];
    [left; exists e; split; [reflexivity|congruence]|].
  cbv beta iota zeta in H. simpl fst in H. simpl snd in H.
  assert (Hknown : emits
            (do known <- read (fun self => Ok (dict_mem conxid (websocketContexts self)));
             if negb known then _websocket_reset_context conxid (Some conxtpl)
             else ret tt) nothing).
  { apply emits_bind; [apply emits_read|intros known].
    destruct (negb known); [apply emits_reset_context|apply emits_ret]. }
  apply (bind_nothing_inv _ _ _ _ _ Hknown) in H
    as [(e & -> & Hl)|(? & s3 & Hl3 & H)];
    [left; exists e; split; [reflexivity|congruence]|].
  rewrite bind_observe in H. right.
  assert (Hrest : forall (m : M string), emits m is_close ->
            m (add_log (ObsResolve event symbol subscribe) s3) = (r, self') ->
            exists closes,
              log self' = log self ++ ObsResolve event symbol subscribe :: closes /\
              forallb is_close closes = true).
  { intros m Hm Hrun. destruct (Hm _ _ _ Hrun) as (closes & Hl & Hc).
    exists closes. split; [|exact Hc]. rewrite Hl. simpl.
    rewrite Hl3, Hl2, Hl1, <- app_assoc. reflexivity. }
  eapply Hrest; [|exact H]. clear.
  apply emits_bind; [apply emits_read|intros action].
  destruct action as [action|]; [|apply emits_ret].
  apply emits_bind.
  { apply emits_bind; [apply emits_read|intros evs].
    destruct (negb _); [apply emits_update_context|apply emits_ret]. }
  intros _. apply emits_bind.
  { apply emits_bind; [apply emits_read|intros syms].
    destruct (negb _); [apply emits_update_context|apply emits_ret]. }
  intros _.
  assert (Hqueue : emits
            (run modify (fun self =>
                   if negb (dict_mem conxid (websocketDelayedConnections self)) then
                     set_delayed
                       (dict_set conxid {| conxtpl := conxtpl; reset := false |}
                          (websocketDelayedConnections self)) self
                   else self);
             ret conxid) is_close) by emits_auto.
  destruct (String.eqb (act action) "reconnect").
  { apply emits_bind; [apply emits_read|intros conx].
    apply emits_bind.
    { apply emits_except; [now apply emits_close|apply emits_ret]. }
    intros _. apply emits_bind; [apply emits_ret|intros _].
    apply emits_bind; [apply emits_initialize|intros i].
    apply emits_bind; [apply emits_update_context|intros _]. exact Hqueue. }
  destruct (String.eqb (act action) "connect").
  { apply emits_bind; [apply emits_read|intros conx].
    apply emits_bind; [|intros _; exact Hqueue].
    apply emits_except; [|apply emits_reinitialize].
    apply emits_bind.
    { unfold isActive. destruct conx; [apply emits_ret|apply emits_raise]. }
    intros is_active. destruct (negb is_active); [|apply emits_ret].
    apply emits_bind; [now apply emits_close|intros _; apply emits_reinitialize]. }
  destruct (String.eqb (act action) "disconnect"); [|exact Hqueue].
  apply emits_bind; [apply emits_read|intros conx].
  apply emits_bind.
  { apply emits_except; [|apply emits_ret].
    apply emits_bind; [now apply emits_close|intros _; apply emits_reset_context]. }
  intros _. emits_auto.
Qed.

Lemma is_close_in_resolution (closes : list obs) :
  forallb is_close closes = true ->
  forallb in_resolution closes = true /\ List.filter is_resolve closes = [].
Proof.
  induction closes as [|o closes IH]; simpl; [auto|].
  destruct o; simpl; try discriminate. intros H. now apply IH.
Qed.

Lemma prepare_all_log (E : env) (eventSymbols : list event_symbol)
    (self self1 : exchange) (conxIds : list string) :
  prepare_all E eventSymbols self = (Ok conxIds, self1) ->
  exists resolved,
    log self1 = log self ++ resolved /\
    List.filter is_resolve resolved = resolutions true eventSymbols /\
    forallb in_resolution resolved = true.
Proof.
  revert self conxIds. induction eventSymbols as [|es rest IH]; intros self conxIds H.
  - inversion H; subst. exists []. now rewrite app_nil_r.
  - cbn [prepare_all] in H.
    apply bind_ok in H as (params & s1 & Hparams & H).
    apply bind_ok in H as (conxid & s2 & Hensure & H).
    apply bind_ok in H as (? & s3 & Hset & H).
    apply bind_ok in H as (conxIds' & s4 & Hrec & H).
    inversion H; subst.
    unfold read in Hparams. injection Hparams as _ <-.
    apply ensure_log in Hensure as [(e & [=] & _)|(closes & Hl2 & Hc)].
    destruct (emits_set_subscribing _ _ _ _ nothing _ _ _ Hset) as (a3 & Hl3 & Hn).
    apply nothing_added in Hn. subst a3. rewrite app_nil_r in Hl3.
    destruct (IH _ _ Hrec) as (resolved & Hl4 & Hf & Hr).
    destruct (is_close_in_resolution closes Hc) as [Hcr Hcf].
    exists (ObsResolve (es_event es) (es_symbol es) true :: closes ++ resolved).
    split; [|split].
    + rewrite Hl4, Hl3, Hl2, <- app_assoc. reflexivity.
    + simpl. rewrite List.filter_app, Hcf, Hf. reflexivity.
    + simpl. rewrite forallb_app, Hcr, Hr. reflexivity.
Qed.

(** *** The flush *)

Lemma flush_log (E : env) (self self' : exchange) (r : res unit) :
  _websocket_connect_delayed E self = (r, self') ->
  exists rest,
    log self' = log self ++ ObsFlush :: rest /\
    forallb in_flush rest = true /\
    websocketDelayedConnections self' = [].
Proof.
  unfold _websocket_connect_delayed. rewrite bind_observe. intros H.
  assert (Hbody : emits
            (do conxids <- read (fun self =>
                                   Ok (dict_keys (websocketDelayedConnections self)));
             for_each conxids (fun conxid =>
               do d <- read (fun self =>
                               dict_item conxid (websocketDelayedConnections self));
               run (if reset d then _websocket_reset_context conxid (Some (conxtpl d))
                    else ret tt);
               websocket_connect E conxid)) in_flush).
  { apply emits_bind; [apply emits_read|intros conxids].
    apply emits_for_each. intros conxid.
    apply emits_bind; [apply emits_read|intros d].
    apply emits_bind; [|intros _; apply emits_websocket_connect].
    destruct (reset d); [apply emits_reset_context|apply emits_ret]. }
  unfold try_finally in H.
  match type of H with
  | (let (_, _) := ?body ?s in _) = _ => destruct (body s) as [rb s1] eqn:Hb
  end.
  destruct (Hbody _ _ _ Hb) as (rest & Hl & Hf).
  unfold modify in H. inversion H; subst. exists rest. simpl in *.
  split; [|split; [exact Hf|reflexivity]].
  rewrite Hl, <- app_assoc. reflexivity.
Qed.

(** *** The acknowledgement loops *)

Lemma emits_params (es : event_symbol) (P : obs -> bool) :
  emits (read (fun _ => params_of es)) P.
Proof. apply emits_read. Qed.

Lemma emits_subscribe_one (E : env) (i : nat) (conxid : string) (es : event_symbol) :
  emits (subscribe_one E i conxid es) in_acks.
Proof.
  unfold subscribe_one.
  apply emits_bind; [apply emits_read|intros params].
  apply emits_bind; [now apply emits_observe|intros _].
  apply emits_bind; [apply emits_read|intros _].
  apply emits_bind; [now apply emits_observe|intros _].
  apply emits_bind.
  - apply emits_deliver; [|reflexivity]. intros success ex.
    apply (emits_callback E conxid (es_event es) (es_symbol es) (OpSubscribe params)).
  - intros f. emits_auto.
Qed.

Lemma emits_subscribe_from (E : env) (i : nat) (conxIds : list string)
    (eventSymbols : list event_symbol) :
  emits (subscribe_from E i conxIds eventSymbols) in_acks.
Proof.
  revert i conxIds. induction eventSymbols as [|es rest IH]; intros i conxIds; simpl.
  - apply emits_ret.
  - destruct conxIds as [|conxid conxIds]; [apply emits_raise|].
    apply emits_bind; [apply emits_subscribe_one|intros _; apply IH].
Qed.

Lemma in_resolution_in_round (o : obs) : in_resolution o = true -> in_round o = true.
Proof. unfold in_round. now intros ->. Qed.

Lemma in_acks_in_round (o : obs) : in_acks o = true -> in_round o = true.
Proof. unfold in_round. intros ->. apply orb_true_r. Qed.

Lemma emits_ensure (E : env) (event symbol : string) (subscribe : bool) (sp : pyval) :
  emits (_websocket_ensure_conx_active E event symbol subscribe sp true) in_resolution.
Proof.
  intros self r self' H. apply ensure_log in H as [(e & _ & Hl)|(closes & Hl & Hc)].
  - exists []. now rewrite app_nil_r.
  - exists (ObsResolve event symbol subscribe :: closes). split; [exact Hl|].
    simpl. now apply is_close_in_resolution.
Qed.

Lemma emits_unsubscribe_one (E : env) (i : nat) (es : event_symbol) :
  emits (unsubscribe_one E i es) in_round.
Proof.
  unfold unsubscribe_one.
  apply emits_bind; [apply emits_read|intros params].
  apply emits_bind.
  { eapply emits_weaken; [apply in_resolution_in_round|apply emits_ensure]. }
  intros conxid.
  apply emits_bind; [now apply emits_observe|intros _].
  apply emits_bind; [apply emits_read|intros _].
  apply emits_bind; [now apply emits_observe|intros _].
  apply emits_bind.
  - apply emits_deliver; [|reflexivity]. intros success ex.
    apply (emits_callback E conxid (es_event es) (es_symbol es) OpUnsubscribe).
  - intros f. emits_auto.
Qed.

Lemma emits_unsubscribe_from (E : env) (i : nat) (eventSymbols : list event_symbol) :
  emits (unsubscribe_from E i eventSymbols) in_round.
Proof.
  revert i. induction eventSymbols as [|es rest IH]; intros i; simpl.
  - apply emits_ret.
  - apply emits_bind; [apply emits_unsubscribe_one|intros _; apply IH].
Qed.

(** *** The delayed connections outside the flush *)

Lemma keeps_ret {A} (a : A) : keeps_delayed (ret a).
Proof. unfold ret. now intros self r self' [= _ <-]. Qed.

Lemma keeps_raise {A} (e : error) : keeps_delayed (@raise A e).
Proof. unfold raise. now intros self r self' [= _ <-]. Qed.

Lemma keeps_read {A} (f : exchange -> res A) : keeps_delayed (read f).
Proof. unfold read. now intros self r self' [= _ <-]. Qed.

Lemma keeps_observe (o : obs) : keeps_delayed (observe o).
Proof. unfold observe, modify. now intros self r self' [= _ <-]. Qed.

Lemma keeps_bind {A B} (m : M A) (k : A -> M B) :
  keeps_delayed m -> (forall a, keeps_delayed (k a)) -> keeps_delayed (bind m k).
Proof.
  intros Hm Hk self r self' H. unfold bind in H.
  destruct (m self) as [[a|e] self1] eqn:Hms.
  - rewrite (Hk a _ _ _ H). eapply Hm; eauto.
  - inversion H; subst. eapply Hm; eauto.
Qed.

Lemma keeps_update_context (conxid : string) (f : context -> res context) :
  keeps_delayed (update_context conxid f).
Proof.
  intros self r self'. unfold update_context.
  destruct (dict_get conxid (websocketContexts self)) as [c|];
    [destruct (f c)|]; now intros [= _ <-].
Qed.

Lemma keeps_callback (E : env) (conxid event symbol : string) (op : operation)
    (success : bool) (ex : option error) (f : future) :
  keeps_delayed (callback_of E conxid event symbol op success ex f).
Proof.
  destruct op; simpl;
    unfold wait4obsubscribe, wait4obunsubscribe, _contextSetSubscribed,
      _contextSetSubscribing, update_symbol, update_symbols;
    destruct success;
    repeat first [apply keeps_update_context | apply keeps_read
                 | apply keeps_bind; [|intros ?]].
Qed.

Lemma keeps_deliver (a : ack) (callback : bool -> option error -> future -> M future)
    (f : future) :
  (forall success ex, keeps_delayed (callback success ex f)) ->
  keeps_delayed (deliver a callback f).
Proof.
  intros Hc. assert (Hg : forall success ex, keeps_delayed (guarded (callback success ex) f)).
  { intros success ex self r self' H. unfold guarded in H.
    destruct (callback success ex f self) as [[f'|e] self1] eqn:Hcs;
      inversion H; subst; simpl; eapply Hc; eauto. }
  destruct a; simpl; [apply Hg|apply Hg|apply keeps_ret].
Qed.

Lemma keeps_subscribe_from (E : env) (i : nat) (conxIds : list string)
    (eventSymbols : list event_symbol) :
  keeps_delayed (subscribe_from E i conxIds eventSymbols).
Proof.
  revert i conxIds. induction eventSymbols as [|es rest IH]; intros i conxIds; simpl.
  - apply keeps_ret.
  - destruct conxIds as [|conxid conxIds]; [apply keeps_raise|].
    apply keeps_bind; [|intros _; apply IH]. unfold subscribe_one.
    apply keeps_bind; [apply keeps_read|intros params].
    apply keeps_bind; [apply keeps_observe|intros _].
    apply keeps_bind; [apply keeps_read|intros _].
    apply keeps_bind; [apply keeps_observe|intros _].
    apply keeps_bind.
    + apply keeps_deliver. intros success ex.
      apply (keeps_callback E conxid (es_event es) (es_symbol es) (OpSubscribe params)).
    + intros f. apply keeps_bind; [apply keeps_read|intros _; apply keeps_ret].
Qed.

(** *** The first loop *)

Lemma check_all_spec (E : env) (eventSymbols : list event_symbol) (self : exchange) :
  (all_valid E eventSymbols = true -> check_all E eventSymbols self = (Ok tt, self)) /\
  (all_valid E eventSymbols = false ->
   exists msg, check_all E eventSymbols self = (Raise (ExchangeError msg), self)).
Proof.
  unfold all_valid, check_all. induction eventSymbols as [|es rest [IH1 IH2]]; simpl.
  - split; [reflexivity|discriminate].
  - unfold bind. destruct (_websocketValidEvent E (es_event es)); simpl.
    + split; [exact IH1|exact IH2].
    + split; [discriminate|]. intros _. unfold raise. eauto.
Qed.

(** C9, as the code has it.  Each run of [_websocket_connect_delayed]
    leaves [websocketDelayedConnections] empty, also when a physical
    connect raises.  A call of [websocket_subscribe_all] whose events are
    valid and whose requests all resolve flushes exactly once, after every
    resolution and before any message is sent or acknowledgement awaited.
    A call of [websocket_unsubscribe_all] whose events are valid flushes
    exactly once, in its [finally] clause: after the rounds that resolve,
    send and await each request, however they end.  A call with an event
    that is not configured raises before any flush.  After a call that
    flushed, the delayed connections are empty. *)
Theorem C9_flush_once_per_call (E : env) (eventSymbols : list event_symbol)
    (self : exchange) :
  (forall r self',
      _websocket_connect_delayed E self = (r, self') ->
      websocketDelayedConnections self' = []) /\
  (forall conxIds self1,
      all_valid E eventSymbols = true ->
      prepare_all E eventSymbols self = (Ok conxIds, self1) ->
      exists r self' resolved rest,
        websocket_subscribe_all E eventSymbols self = (r, self') /\
        log self' = log self ++ resolved ++ ObsFlush :: rest /\
        List.filter is_resolve resolved = resolutions true eventSymbols /\
        forallb in_resolution resolved = true /\
        forallb after_flush rest = true /\
        websocketDelayedConnections self' = []) /\
  (all_valid E eventSymbols = true ->
   exists r self' rounds rest,
     websocket_unsubscribe_all E eventSymbols self = (r, self') /\
     log self' = log self ++ rounds ++ ObsFlush :: rest /\
     forallb in_round rounds = true /\
     forallb in_flush rest = true /\
     websocketDelayedConnections self' = []) /\
  (all_valid E eventSymbols = false ->
   exists msg,
     websocket_subscribe_all E eventSymbols self = (Raise (ExchangeError msg), self) /\
     websocket_unsubscribe_all E eventSymbols self = (Raise (ExchangeError msg), self)).
Proof.
  destruct (check_all_spec E eventSymbols self) as [Hvalid Hinvalid].
  split; [|split; [|split]].
  - intros r self' H. now apply flush_log in H as (_ & _ & _ & H).
  - intros conxIds self1 Hv Hprep.
    destruct (prepare_all_log _ _ _ _ _ Hprep) as (resolved & Hl1 & Hf & Hr).
    destruct (_websocket_connect_delayed E self1) as [rf self2] eqn:Hflush.
    destruct (flush_log _ _ _ _ Hflush) as (tail & Hl2 & Ht & Hd2).
    unfold websocket_subscribe_all, bind. rewrite (Hvalid Hv), Hprep, Hflush.
    destruct rf as [[]|e].
    + destruct (subscribe_from E 0 conxIds eventSymbols self2) as [r self3] eqn:Hsub.
      destruct (emits_subscribe_from _ _ _ _ _ _ _ Hsub) as (acks & Hl3 & Ha).
      exists r, self3, resolved, (tail ++ acks). split; [reflexivity|].
      split; [rewrite Hl3, Hl2, Hl1, <- !app_assoc; reflexivity|].
      split; [exact Hf|]. split; [exact Hr|]. split.
      * rewrite forallb_app. apply andb_true_iff. split.
        -- rewrite forallb_forall in *. intros o Ho. unfold after_flush.
           now rewrite (Ht o Ho).
        -- rewrite forallb_forall in *. intros o Ho. unfold after_flush.
           rewrite (Ha o Ho). apply orb_true_r.
      * rewrite (keeps_subscribe_from _ _ _ _ _ _ _ Hsub). exact Hd2.
    + exists (Raise e), self2, resolved, tail. split; [reflexivity|].
      split; [rewrite Hl2, Hl1, <- !app_assoc; reflexivity|].
      split; [exact Hf|]. split; [exact Hr|]. split; [|exact Hd2].
      rewrite forallb_forall in *. intros o Ho. unfold after_flush.
      now rewrite (Ht o Ho).
  - intros Hv. unfold websocket_unsubscribe_all, bind. rewrite (Hvalid Hv).
    unfold try_finally.
    destruct (unsubscribe_from E 0 eventSymbols self) as [rb self1] eqn:Hbody.
    destruct (emits_unsubscribe_from _ _ _ _ _ _ Hbody) as (rounds & Hl1 & Hr).
    destruct (_websocket_connect_delayed E self1) as [rf self2] eqn:Hflush.
    destruct (flush_log _ _ _ _ Hflush) as (tail & Hl2 & Ht & Hd2).
    exists (match rf with Ok _ => rb | Raise e => Raise e end), self2, rounds, tail.
    split; [now destruct rf|].
    split; [rewrite Hl2, Hl1, <- !app_assoc; reflexivity|]. auto.
  - intros Hv. destruct (Hinvalid Hv) as (msg & Hc). exists msg.
    unfold websocket_subscribe_all, websocket_unsubscribe_all, bind. now rewrite Hc.
Qed.

Lemma C9_flush_once_per_call_witness :
  exists r self' resolved rest,
    websocket_subscribe_all (Demo.stream_env (fun _ => AckSuccess))
      [Demo.request "BTC/USD"; Demo.request "ETH/USD"] init = (r, self') /\
    log self' = log init ++ resolved ++ ObsFlush :: rest /\
    List.filter is_resolve resolved =
      resolutions true [Demo.request "BTC/USD"; Demo.request "ETH/USD"] /\
    forallb in_resolution resolved = true /\
    forallb after_flush rest = true /\
    websocketDelayedConnections self' = [].
Proof.
  apply (proj1 (proj2 (C9_flush_once_per_call (Demo.stream_env (fun _ => AckSuccess))
                         [Demo.request "BTC/USD"; Demo.request "ETH/USD"] init))
           ["default"; "default"]
           (snd (prepare_all (Demo.stream_env (fun _ => AckSuccess))
                   [Demo.request "BTC/USD"; Demo.request "ETH/USD"] init))).
  - reflexivity.
  - reflexivity.
Defined.

(** *** A failed acknowledgement *)

(** C4, as the code has it.  In the send-and-await loop of
    [websocket_subscribe_all], when the message of the request at hand is
    sent and its acknowledgement callback reports a failure, the symbol
    state of that request becomes subscribed false and subscribing false,
    no other symbol context changes (the requests acknowledged before keep
    what they got: nothing is rolled back), the error is raised out of the
    loop, and the requests after it are neither sent nor awaited. *)
Theorem C4_failed_ack_ends_the_loop (E : env) (i : nat) (conxid : string)
    (conxIds : list string) (es : event_symbol) (rest : list event_symbol)
    (self : exchange) (params : pyval) (ex : option error) (sc : symbol_context)
    (Hparams : es_params es = Some params)
    (Hsend : _websocket_subscribe E conxid (es_event es) (es_symbol es) params = Ok tt)
    (Hack : ack_of E i = AckFailure ex)
    (Hentry : symbol_of self conxid (es_event es) (es_symbol es) = Some sc) :
  exists self',
    subscribe_from E i (conxid :: conxIds) (es :: rest) self =
      (Raise (default (ExchangeError ("error subscribing to " +:+ es_event es +:+ "("
                                      +:+ es_symbol es +:+ ") in " +:+ exchange_id E))
                ex), self') /\
    _contextIsSubscribed self' conxid (es_event es) (es_symbol es) = Ok false /\
    _contextIsSubscribing self' conxid (es_event es) (es_symbol es) = Ok false /\
    log self' = log self ++ [ObsSend conxid (es_event es) (es_symbol es) true;
                             ObsAwait conxid (es_event es) (es_symbol es)] /\
    (forall conxid' event' symbol',
        (conxid', event', symbol') <> (conxid, es_event es, es_symbol es) ->
        symbol_of self' conxid' event' symbol' = symbol_of self conxid' event' symbol').
Proof.
  set (event := es_event es) in *. set (symbol := es_symbol es) in *.
  set (s1 := add_log (ObsAwait conxid event symbol)
               (add_log (ObsSend conxid event symbol true) self)).
  assert (Hentry1 : symbol_of s1 conxid event symbol = Some sc) by exact Hentry.
  destruct (StoreFacts.update_symbol_spec conxid event symbol
              (fun sc => {| subscribed := false; subscribing := subscribing sc;
                            data := data sc; sc_params := Some (VDict []) |})
              s1 sc Hentry1) as (s2 & Hu1 & Hl2 & Hsym2 & Hother2).
  destruct (StoreFacts.update_symbol_spec conxid event symbol
              (fun sc => {| subscribed := subscribed sc; subscribing := false;
                            data := data sc; sc_params := sc_params sc |})
              s2 _ Hsym2) as (s3 & Hu2 & Hl3 & Hsym3 & Hother3).
  exists s3. split; [|split; [|split; [|split]]].
  - cbn [subscribe_from]. unfold subscribe_one.
    fold event. fold symbol. unfold bind at 1. unfold bind at 1.
    unfold read at 1. unfold params_of. rewrite Hparams.
    rewrite bind_observe. unfold bind at 1. unfold read at 1. rewrite Hsend.
    rewrite bind_observe. fold s1. rewrite Hack. unfold bind at 1.
    unfold deliver, guarded, wait4obsubscribe, bind at 1.
    unfold _contextSetSubscribed. rewrite Hu1.
    unfold bind at 1. unfold _contextSetSubscribing. rewrite Hu2.
    unfold read. rewrite PendingFacts.done_or_set_exception_spec. reflexivity.
  - assert (Hc : exists c, dict_get conxid (websocketContexts s3) = Some c).
    { unfold symbol_of in Hsym3.
      destruct (dict_get conxid (websocketContexts s3)); [eauto|discriminate]. }
    destruct Hc as [c Hc].
    destruct (StoreFacts.read_flags_symbol_of s3 conxid event symbol c Hc) as [-> _].
    now rewrite Hsym3.
  - assert (Hc : exists c, dict_get conxid (websocketContexts s3) = Some c).
    { unfold symbol_of in Hsym3.
      destruct (dict_get conxid (websocketContexts s3)); [eauto|discriminate]. }
    destruct Hc as [c Hc].
    destruct (StoreFacts.read_flags_symbol_of s3 conxid event symbol c Hc) as [_ ->].
    now rewrite Hsym3.
  - rewrite Hl3, Hl2. unfold s1. simpl. now rewrite <- app_assoc.
  - intros conxid' event' symbol' Hne.
    rewrite (Hother3 _ _ _ Hne), (Hother2 _ _ _ Hne). reflexivity.
Qed.

Lemma C4_failed_ack_ends_the_loop_witness :
  exists self',
    subscribe_from (Demo.stream_env Demo.first_fails) 0 ["default"; "default"]
      [Demo.request "BTC/USD"; Demo.request "ETH/USD"]
      (Demo.preparing ["BTC/USD"; "ETH/USD"]) =
      (Raise (default (ExchangeError ("error subscribing to " +:+ "ob" +:+ "("
                                      +:+ "BTC/USD" +:+ ") in " +:+ "binance"))
                None), self') /\
    _contextIsSubscribed self' "default" "ob" "BTC/USD" = Ok false /\
    _contextIsSubscribing self' "default" "ob" "BTC/USD" = Ok false /\
    log self' = [] ++ [ObsSend "default" "ob" "BTC/USD" true;
                       ObsAwait "default" "ob" "BTC/USD"] /\
    (forall conxid' event' symbol',
        (conxid', event', symbol') <> ("default", "ob", "BTC/USD") ->
        symbol_of self' conxid' event' symbol' =
        symbol_of (Demo.preparing ["BTC/USD"; "ETH/USD"]) conxid' event' symbol').
Proof.
  exact (C4_failed_ack_ends_the_loop (Demo.stream_env Demo.first_fails) 0 "default"
           ["default"] (Demo.request "BTC/USD") [Demo.request "ETH/USD"]
           (Demo.preparing ["BTC/USD"; "ETH/USD"]) (VDict []) None
           Demo.subscribing_symbol eq_refl eq_refl eq_refl eq_refl).
Defined.

(** A batch of two requests whose first acknowledgement fails: the call
    raises after the first request, the message of the second is never
    sent, and the second symbol stays marked as subscribing.  When the
    first acknowledgement does not come at all, the call raises the
    timeout and the first symbol stays marked as subscribing. *)
Lemma C4_failure_abandons_the_siblings :
  fst (websocket_subscribe_all (Demo.stream_env Demo.first_fails)
         [Demo.request "BTC/USD"; Demo.request "ETH/USD"] init)
  = Raise (ExchangeError "error subscribing to ob(BTC/USD) in binance") /\
  log (snd (websocket_subscribe_all (Demo.stream_env Demo.first_fails)
              [Demo.request "BTC/USD"; Demo.request "ETH/USD"] init))
  = [ObsResolve "ob" "BTC/USD" true; ObsResolve "ob" "ETH/USD" true;
     ObsClose "default"; ObsFlush; ObsConnect "default";
     ObsSend "default" "ob" "BTC/USD" true; ObsAwait "default" "ob" "BTC/USD"] /\
  _contextIsSubscribing
    (snd (websocket_subscribe_all (Demo.stream_env Demo.first_fails)
            [Demo.request "BTC/USD"; Demo.request "ETH/USD"] init))
    "default" "ob" "ETH/USD" = Ok true /\
  fst (websocket_subscribe_all (Demo.stream_env (fun _ => NoAck))
         [Demo.request "BTC/USD"; Demo.request "ETH/USD"] init)
  = Raise (TimeoutError "timeout in scope: websocket_subscribe") /\
  _contextIsSubscribing
    (snd (websocket_subscribe_all (Demo.stream_env (fun _ => NoAck))
            [Demo.request "BTC/USD"; Demo.request "ETH/USD"] init))
    "default" "ob" "BTC/USD" = Ok true.
Proof. repeat split; vm_compute; reflexivity. Qed.

(** [websocket_unsubscribe_all] awaits the acknowledgement of its request
    before the flush, and a call with an event that is not configured
    does not flush at all. *)
Lemma C9_unsubscribe_flushes_after_the_await :
  log (snd (websocket_unsubscribe_all (Demo.stream_env (fun _ => AckSuccess))
              [Demo.request "BTC/USD"] (Demo.serving ["BTC/USD"; "ETH/USD"])))
  = [ObsResolve "ob" "BTC/USD" false;
     ObsSend "default" "ob" "BTC/USD" false; ObsAwait "default" "ob" "BTC/USD";
     ObsFlush; ObsConnect "default"] /\
  websocket_subscribe_all (Demo.stream_env (fun _ => AckSuccess))
    [{| es_event := "trades"; es_symbol := "BTC/USD"; es_params := Some (VDict []) |}]
    init
  = (Raise (ExchangeError "Not valid event trades for exchange binance"), init).
Proof. split; vm_compute; reflexivity. Qed.

(** A batch of two subscriptions: both resolutions, one flush with one
    physical connect, then the two acknowledgement rounds. *)
Example subscribe_all_trace :
  log (snd (websocket_subscribe_all (Demo.stream_env (fun _ => AckSuccess))
              [Demo.request "BTC/USD"; Demo.request "ETH/USD"] init))
  = [ObsResolve "ob" "BTC/USD" true; ObsResolve "ob" "ETH/USD" true;
     ObsClose "default"; ObsFlush; ObsConnect "default";
     ObsSend "default" "ob" "BTC/USD" true; ObsAwait "default" "ob" "BTC/USD";
     ObsSend "default" "ob" "ETH/USD" true; ObsAwait "default" "ob" "ETH/USD"].
Proof. vm_compute. reflexivity. Qed.

End OrchestratorFacts.

(** ** More on the order book merge engine *)

Module OrderBookMore.
Import OrderBook Snapshot OrderBookFacts.
Local Open Scope Z_scope.

(** X1.  [searchIndexToInsertOrUpdate] returns an index within
    [0 .. len(orderedArray)]; every level before it is strictly before the
    searched price in the order of the side, and the level at it, if there
    is one, is not.  This holds for any list, sorted or not. *)
Theorem X1_search_position (bids : bool) (v : Z) (side : list level) :
  (searchIndexToInsertOrUpdate v side price bids <= length side)%nat /\
  (forall (j : nat) (lv : level),
      (j < searchIndexToInsertOrUpdate v side price bids)%nat ->
      side !! j = Some lv -> before bids (price lv) v) /\
  (forall lv : level,
      side !! searchIndexToInsertOrUpdate v side price bids = Some lv ->
      ~ before bids (price lv) v).
Proof.
  destruct (side_split bids v side) as (l1 & l2 & -> & H1 & H2).
  rewrite (search_app bids v l1 l2 H1 H2). split; [|split].
  - rewrite length_app. lia.
  - intros j lv Hj Hlv. rewrite lookup_app_l in Hlv by exact Hj.
    rewrite Forall_forall in H1. apply H1. eapply list_elem_of_lookup_2. exact Hlv.
  - intros lv Hlv. rewrite lookup_app_r in Hlv by lia.
    rewrite Nat.sub_diag in Hlv. destruct l2 as [|x r]; [discriminate|].
    injection Hlv as <-. exact H2.
Qed.

(** *** A side as a map from prices to amounts *)

Lemma amount_at_app (q : Z) (l1 l2 : list level) :
  amount_at q (l1 ++ l2) =
    match amount_at q l1 with
    | Some a => Some a
    | None => amount_at q l2
    end.
Proof.
  induction l1 as [|x l1 IH]; simpl; [reflexivity|].
  now destruct (price x =? q).
Qed.

Lemma amount_at_absent (q : Z) (l : list level) :
  Forall (fun y => price y <> q) l -> amount_at q l = None.
Proof.
  induction 1 as [|x l Hx _ IH]; simpl; [reflexivity|].
  apply Z.eqb_neq in Hx. now rewrite Hx.
Qed.

Lemma before_prices_differ bids (q : Z) (l : list level) :
  Forall (fun y => before bids (price y) q) l -> Forall (fun y => price y <> q) l.
Proof.
  intros H. eapply Forall_impl; [exact H|].
  intros y Hy Heq. simpl in Hy. rewrite Heq in Hy. now apply before_irrefl in Hy.
Qed.

(** At the stop position of a sorted tail, the price is at the head or
    nowhere. *)
Lemma amount_at_stop bids (p : Z) (x : level) (r : list level) :
  StronglySorted (level_before bids) (x :: r) ->
  ~ before bids (price x) p ->
  amount_at p (x :: r) = if price x =? p then Some (amount x) else None.
Proof.
  intros Hs Hx. simpl. destruct (price x =? p); [reflexivity|].
  apply amount_at_absent. eapply sorted_tail_prices; eauto.
Qed.

Lemma place_other (d : level) (l2 : list level) (q : Z) :
  q <> price d -> amount_at q (place d l2) = amount_at q l2.
Proof.
  intros Hq. assert (Hd : (price d =? q) = false) by (apply Z.eqb_neq; congruence).
  unfold place. destruct l2 as [|x r].
  - destruct (amount d =? 0); simpl; [reflexivity|now rewrite Hd].
  - destruct (Z.eqb_spec (price x) (price d)) as [Heq|Hne];
      destruct (amount d =? 0); simpl; rewrite ?Hd; try reflexivity.
    + rewrite Heq, Hd. reflexivity.
    + rewrite Heq, Hd. reflexivity.
Qed.

(** X2.  On a sorted side [updateBidAsk] with the delta [(p, a)] is the
    update of a map from prices to amounts: afterwards price [p] has no
    level when [a] is 0 and has amount [a] otherwise, and every other price
    has what it had. *)
Theorem X2_updateBidAsk_as_map (bids : bool) (side : list level) (p a q : Z)
    (Hsorted : Sorted (level_before bids) side) :
  amount_at q (updateBidAsk (p, a) side bids) =
    if q =? p then (if a =? 0 then None else Some a) else amount_at q side.
Proof.
  apply sorted_strongly in Hsorted.
  destruct (side_split bids p side) as (l1 & l2 & -> & H1 & H2).
  rewrite (updateBidAsk_split bids (p, a) l1 l2 H1 H2).
  apply StronglySorted_app in Hsorted as (_ & _ & Hs2).
  rewrite !amount_at_app.
  destruct (Z.eqb_spec q p) as [->|Hq].
  - rewrite (amount_at_absent p l1 (before_prices_differ bids p l1 H1)).
    unfold place. cbn [price amount fst snd]. destruct l2 as [|x r].
    + destruct (a =? 0); simpl; [reflexivity|now rewrite Z.eqb_refl].
    + simpl in H2. pose proof (sorted_tail_prices bids x r p Hs2 H2) as Hr.
      destruct (Z.eqb_spec (price x) p) as [Hx|Hx]; destruct (a =? 0); simpl;
        rewrite ?Z.eqb_refl; try reflexivity.
      * now apply amount_at_absent.
      * apply Z.eqb_neq in Hx. rewrite Hx. now apply amount_at_absent.
  - now rewrite (place_other (p, a) l2 q Hq).
Qed.

Lemma X2_updateBidAsk_as_map_witness :
  amount_at 100 (updateBidAsk (100, 7) [(101, 2); (100, 5); (99, 1)] true) =
    (if 100 =? 100 then (if 7 =? 0 then None else Some 7)
     else amount_at 100 [(101, 2); (100, 5); (99, 1)]).
Proof.
  apply (X2_updateBidAsk_as_map true [(101, 2); (100, 5); (99, 1)] 100 7 100).
  concrete_sorted.
Defined.

(** *** The additive variant through the replacing one *)

Lemma price_pair (p a : Z) : price (p, a) = p.
Proof. reflexivity. Qed.

Lemma amount_pair (p a : Z) : amount (p, a) = a.
Proof. reflexivity. Qed.

Lemma level_eta (d : level) : (price d, amount d) = d.
Proof. now destruct d. Qed.

Lemma place_diff_as_place bids (d : level) (l2 : list level) :
  StronglySorted (level_before bids) l2 ->
  stops bids (price d) l2 ->
  place_diff d l2 = place (summed l2 d) l2.
Proof.
  intros Hs Hstop. unfold summed. destruct l2 as [|x r].
  - cbn [amount_at default]. rewrite Z.add_0_l, level_eta. reflexivity.
  - rewrite (amount_at_stop bids (price d) x r Hs Hstop).
    unfold place_diff, place. rewrite price_pair, amount_pair.
    destruct (price x =? price d) eqn:Hx; cbn [default].
    + apply Z.eqb_eq in Hx. now rewrite Hx.
    + now rewrite Z.add_0_l, level_eta.
Qed.

Lemma summed_at_split bids (d : level) (l1 l2 : list level) :
  Forall (fun y => before bids (price y) (price d)) l1 ->
  summed (l1 ++ l2) d = summed l2 d.
Proof.
  intros H1. unfold summed. rewrite amount_at_app.
  now rewrite (amount_at_absent _ l1 (before_prices_differ bids _ l1 H1)).
Qed.

(** X4.  On a sorted side [updateBidAskDiff] with the delta [(p, d)] does
    what [updateBidAsk] does with the delta [(p, a + d)], where [a] is the
    amount the side has at [p], or 0 when [p] has no level. *)
Theorem X4_diff_is_update_with_sum (bids : bool) (side : list level) (d : level)
    (Hsorted : Sorted (level_before bids) side) :
  updateBidAskDiff d side bids =
    updateBidAsk (price d, default 0 (amount_at (price d) side) + amount d) side bids.
Proof.
  apply sorted_strongly in Hsorted.
  destruct (side_split bids (price d) side) as (l1 & l2 & -> & H1 & H2).
  apply StronglySorted_app in Hsorted as (_ & _ & Hs2).
  fold (summed (l1 ++ l2) d). rewrite (summed_at_split bids d l1 l2 H1).
  rewrite (updateBidAskDiff_split bids d l1 l2 H1 H2).
  rewrite (updateBidAsk_split bids (summed l2 d) l1 l2 H1 H2).
  now rewrite (place_diff_as_place bids d l2 Hs2 H2).
Qed.

Lemma X4_diff_is_update_with_sum_witness :
  updateBidAskDiff (100, -5) [(101, 2); (100, 5); (99, 1)] true =
    updateBidAsk
      (price (100, -5),
       default 0 (amount_at (price (100, -5)) [(101, 2); (100, 5); (99, 1)])
       + amount (100, -5))
      [(101, 2); (100, 5); (99, 1)] true.
Proof.
  apply (X4_diff_is_update_with_sum true [(101, 2); (100, 5); (99, 1)] (100, -5)).
  concrete_sorted.
Defined.

(** *** The number of levels *)

Lemma place_length (d : level) (l2 : list level) :
  (amount d = 0 ->
   (length (place d l2) <= length l2 <= length (place d l2) + 1)%nat) /\
  (amount d <> 0 ->
   (length l2 <= length (place d l2) <= length l2 + 1)%nat).
Proof.
  unfold place. destruct l2 as [|x r];
    [|destruct (price x =? price d)]; destruct (Z.eqb_spec (amount d) 0);
    simpl; split; intros; try contradiction; lia.
Qed.

(** X7.  One call of [updateBidAsk] changes the number of levels by at most
    one: a delta with amount 0 never adds a level, a delta with another
    amount never removes one.  This holds for any list. *)
Theorem X7_updateBidAsk_length (bids : bool) (side : list level) (d : level) :
  (amount d = 0 ->
   (length (updateBidAsk d side bids) <= length side
      <= length (updateBidAsk d side bids) + 1)%nat) /\
  (amount d <> 0 ->
   (length side <= length (updateBidAsk d side bids) <= length side + 1)%nat).
Proof.
  destruct (side_split bids (price d) side) as (l1 & l2 & -> & H1 & H2).
  rewrite (updateBidAsk_split bids d l1 l2 H1 H2). rewrite !length_app.
  destruct (place_length d l2) as [Hz Hn]. split; intros Ha.
  - specialize (Hz Ha). lia.
  - specialize (Hn Ha). lia.
Qed.

(** *** Snapshots *)

Lemma slice_to_prefix {A} (limit : Z) (l : list A) :
  exists n, slice_to limit l = take n l.
Proof. unfold slice_to. destruct (0 <=? limit); eauto. Qed.

Lemma take_length_take {A} (k : nat) (l : list A) :
  take k l = take (length (take k l)) l.
Proof.
  rewrite length_take. destruct (Nat.le_ge_cases k (length l)) as [H|H].
  - now rewrite Nat.min_l.
  - rewrite Nat.min_r by exact H. now rewrite !take_ge.
Qed.

Lemma take_side_ok bids (n : nat) (side : list level) :
  side_ok bids side -> side_ok bids (take n side).
Proof.
  rewrite !side_ok_iff. intros [Hs Hz].
  rewrite <- (take_drop n side) in Hs, Hz. split.
  - now apply StronglySorted_app_1_l in Hs.
  - now apply Forall_app in Hz as [Hz _].
Qed.

(** X8.  [_cloneOrderBook(ob, limit)] copies the timestamp, the datetime
    and the nonce, and gives each of the two sides as a prefix of the side
    of [ob]: the whole side without a limit, its first [limit] levels (all
    of them when there are fewer) for a limit that is not negative, and
    all but its last [-limit] levels for a negative one.  A prefix of a
    side that satisfies the invariant satisfies it. *)
Theorem X8_clone_is_prefix (ob : Wire.order_book) (limit : option Z) :
  Wire.ob_timestamp (_cloneOrderBook ob limit) = Wire.ob_timestamp ob /\
  Wire.ob_datetime (_cloneOrderBook ob limit) = Wire.ob_datetime ob /\
  Wire.ob_nonce (_cloneOrderBook ob limit) = Wire.ob_nonce ob /\
  Wire.ob_bids (_cloneOrderBook ob limit) =
    take (length (Wire.ob_bids (_cloneOrderBook ob limit))) (Wire.ob_bids ob) /\
  Wire.ob_asks (_cloneOrderBook ob limit) =
    take (length (Wire.ob_asks (_cloneOrderBook ob limit))) (Wire.ob_asks ob) /\
  Z.of_nat (length (Wire.ob_bids (_cloneOrderBook ob limit))) =
    match limit with
    | None => Z.of_nat (length (Wire.ob_bids ob))
    | Some n =>
        if 0 <=? n then Z.min n (Z.of_nat (length (Wire.ob_bids ob)))
        else Z.max 0 (Z.of_nat (length (Wire.ob_bids ob)) + n)
    end /\
  Z.of_nat (length (Wire.ob_asks (_cloneOrderBook ob limit))) =
    match limit with
    | None => Z.of_nat (length (Wire.ob_asks ob))
    | Some n =>
        if 0 <=? n then Z.min n (Z.of_nat (length (Wire.ob_asks ob)))
        else Z.max 0 (Z.of_nat (length (Wire.ob_asks ob)) + n)
    end /\
  (side_ok true (Wire.ob_bids ob) ->
   side_ok true (Wire.ob_bids (_cloneOrderBook ob limit))) /\
  (side_ok false (Wire.ob_asks ob) ->
   side_ok false (Wire.ob_asks (_cloneOrderBook ob limit))).
Proof.
  destruct limit as [n|]; unfold _cloneOrderBook;
    cbn [Wire.ob_bids Wire.ob_asks Wire.ob_timestamp Wire.ob_datetime Wire.ob_nonce].
  - do 3 (split; [reflexivity|]). split; [|split; [|split; [|split; [|split]]]].
    + destruct (slice_to_prefix n (Wire.ob_bids ob)) as [k ->].
      apply take_length_take.
    + destruct (slice_to_prefix n (Wire.ob_asks ob)) as [k ->].
      apply take_length_take.
    + unfold slice_to. destruct (Z.leb_spec 0 n); rewrite length_take; lia.
    + unfold slice_to. destruct (Z.leb_spec 0 n); rewrite length_take; lia.
    + destruct (slice_to_prefix n (Wire.ob_bids ob)) as [k ->]. apply take_side_ok.
    + destruct (slice_to_prefix n (Wire.ob_asks ob)) as [k ->]. apply take_side_ok.
  - do 3 (split; [reflexivity|]). rewrite !firstn_all.
    do 4 (split; [reflexivity|]). split; auto.
Qed.

End OrderBookMore.

(** ** More on the wire shapes *)

Module WireMore.
Import Py OrderBook Wire OrderBookFacts OrderBookMore.
Local Open Scope Z_scope.

Section Merge.

Variable parse_bid_ask : pyval -> pykey -> pykey -> res level.
Variable iso8601 : Z -> string.

Lemma parse_each_length (bidasks : list pyval) (price_key amount_key : pykey)
    (lvs : list level) :
  parse_each parse_bid_ask bidasks price_key amount_key = Ok lvs ->
  length lvs = length bidasks.
Proof.
  revert lvs. induction bidasks as [|b rest IH]; intros lvs; simpl.
  - now intros [= <-].
  - destruct (parse_bid_ask b price_key amount_key) as [lv|e]; simpl; [|discriminate].
    destruct (parse_each parse_bid_ask rest price_key amount_key) as [lvs'|e];
      simpl; [|discriminate].
    intros [= <-]. simpl. now rewrite (IH lvs').
Qed.

Lemma parse_each_keyed_length (bidasks : list pyval) (price_key amount_key : pykey)
    (lvs : list level) :
  parse_each_keyed parse_bid_ask bidasks price_key amount_key = Ok lvs ->
  (length lvs <= length bidasks)%nat.
Proof.
  revert lvs. induction bidasks as [|b rest IH]; intros lvs; simpl.
  - intros [= <-]. simpl. lia.
  - destruct (py_in price_key b) as [has_price|e]; simpl; [|discriminate].
    destruct (if has_price then py_in amount_key b else Ok false) as [has_both|e];
      simpl; [|discriminate].
    destruct has_both.
    + destruct (parse_bid_ask b price_key amount_key) as [lv|e]; simpl; [|discriminate].
      destruct (parse_each_keyed parse_bid_ask rest price_key amount_key) as [lvs'|e];
        simpl; [|discriminate].
      intros [= <-]. simpl. specialize (IH lvs' eq_refl). lia.
    + intros H. specialize (IH lvs H). lia.
Qed.

(** X9.  When [parse_bids_asks2] returns, it returns at most one level per
    entry, and exactly one per entry when the first entry is a list: in the
    array-of-arrays shape no entry is left out, whatever [parse_bid_ask]
    does. *)
Theorem X9_parse_counts (bidasks : list pyval) (price_key amount_key : pykey)
    (lvs : list level)
    (Hparsed : parse_bids_asks2 parse_bid_ask bidasks price_key amount_key = Ok lvs) :
  (length lvs <= length bidasks)%nat /\
  (first_is_list bidasks -> length lvs = length bidasks).
Proof.
  destruct bidasks as [|first rest].
  - injection Hparsed as <-. split; [simpl; lia|reflexivity].
  - destruct first; try discriminate; unfold parse_bids_asks2 in Hparsed.
    + apply parse_each_length in Hparsed. split; [lia|intros _; exact Hparsed].
    + apply parse_each_keyed_length in Hparsed. split; [exact Hparsed|intros []].
Qed.

End Merge.

Lemma X9_parse_counts_witness :
  Nat.le (length [(100, 5); (99, 0)])
    (length [VList [VNum 100; VNum 5]; VList [VNum 99; VNum 0]]) /\
  (first_is_list [VList [VNum 100; VNum 5]; VList [VNum 99; VNum 0]] ->
   length [(100, 5); (99, 0)] =
     length [VList [VNum 100; VNum 5]; VList [VNum 99; VNum 0]]).
Proof.
  apply (X9_parse_counts parse_bid_ask_base
           [VList [VNum 100; VNum 5]; VList [VNum 99; VNum 0]] (KInt 0) (KInt 1)).
  reflexivity.
Defined.

End WireMore.

(** ** More on the connection context store *)

Module StoreMore.
Import Py Store Scratch StoreFacts.

Lemma symbol_of_None_update (conxid event symbol : string)
    (f : symbol_context -> symbol_context) (self : exchange) :
  symbol_of self conxid event symbol = None ->
  exists k, update_symbol conxid event symbol f self = (Raise (KeyError k), self).
Proof.
  unfold symbol_of, update_symbol, update_symbols, update_context, dict_item.
  destruct (dict_get conxid (websocketContexts self)) as [c|]; [|eauto].
  destruct (dict_get event (events c)) as [syms|]; simpl; [|eauto].
  intros ->. simpl. eauto.
Qed.

Lemma context_of_symbol (self : exchange) (conxid event symbol : string)
    (sc : symbol_context) :
  symbol_of self conxid event symbol = Some sc ->
  exists c, dict_get conxid (websocketContexts self) = Some c.
Proof.
  unfold symbol_of. destruct (dict_get conxid (websocketContexts self)); [eauto|].
  discriminate.
Qed.

(** X11.  The setters of the subscription flags never create state: on a
    connection, event or symbol that is not in the store they raise
    [KeyError] and leave the store as it is.  On a symbol that is there,
    [_contextSetSubscribed] makes [_contextIsSubscribed] return the value
    set and leaves [_contextIsSubscribing] as it was, [_contextSetSubscribing]
    does the converse, and neither changes another symbol context. *)
Theorem X11_flag_setters (self : exchange) (conxid event symbol : string)
    (value : bool) (params : pyval) :
  (symbol_of self conxid event symbol = None ->
   (exists k, _contextSetSubscribed conxid event symbol value params self
              = (Raise (KeyError k), self)) /\
   (exists k, _contextSetSubscribing conxid event symbol value self
              = (Raise (KeyError k), self))) /\
  (forall sc, symbol_of self conxid event symbol = Some sc ->
   (exists self',
       _contextSetSubscribed conxid event symbol value params self = (Ok tt, self') /\
       _contextIsSubscribed self' conxid event symbol = Ok value /\
       _contextIsSubscribing self' conxid event symbol = Ok (subscribing sc) /\
       (forall conxid' event' symbol',
           (conxid', event', symbol') <> (conxid, event, symbol) ->
           symbol_of self' conxid' event' symbol' =
           symbol_of self conxid' event' symbol')) /\
   (exists self',
       _contextSetSubscribing conxid event symbol value self = (Ok tt, self') /\
       _contextIsSubscribing self' conxid event symbol = Ok value /\
       _contextIsSubscribed self' conxid event symbol = Ok (subscribed sc) /\
       (forall conxid' event' symbol',
           (conxid', event', symbol') <> (conxid, event, symbol) ->
           symbol_of self' conxid' event' symbol' =
           symbol_of self conxid' event' symbol'))).
Proof.
  split.
  - intros Hnone. split; now apply symbol_of_None_update.
  - intros sc Hsome. split.
    + destruct (update_symbol_spec conxid event symbol
                  (fun sc => {| subscribed := value; subscribing := subscribing sc;
                                data := data sc; sc_params := Some params |})
                  self sc Hsome) as (self' & Hrun & _ & Hsym & Hother).
      exists self'. split; [exact Hrun|].
      destruct (context_of_symbol _ _ _ _ _ Hsym) as [c Hc].
      destruct (read_flags_symbol_of self' conxid event symbol c Hc) as [-> ->].
      rewrite Hsym. auto.
    + destruct (update_symbol_spec conxid event symbol
                  (fun sc => {| subscribed := subscribed sc; subscribing := value;
                                data := data sc; sc_params := sc_params sc |})
                  self sc Hsome) as (self' & Hrun & _ & Hsym & Hother).
      exists self'. split; [exact Hrun|].
      destruct (context_of_symbol _ _ _ _ _ Hsym) as [c Hc].
      destruct (read_flags_symbol_of self' conxid event symbol c Hc) as [-> ->].
      rewrite Hsym. auto.
Qed.

(** X12.  [_contextSetSymbolData] followed by [_contextGetSymbolData] on the
    same symbol returns the payload that was stored; the flags of the
    symbol and every other symbol context stay as they were.  On a symbol
    that is not in the store both raise [KeyError]. *)
Theorem X12_symbol_data_round_trip (self : exchange) (conxid event symbol : string)
    (value : pyval) :
  (symbol_of self conxid event symbol = None ->
   (exists k, _contextSetSymbolData conxid event symbol value self
              = (Raise (KeyError k), self)) /\
   (exists k, _contextGetSymbolData self conxid event symbol = Raise (KeyError k))) /\
  (forall sc, symbol_of self conxid event symbol = Some sc ->
   exists self',
     _contextSetSymbolData conxid event symbol value self = (Ok tt, self') /\
     _contextGetSymbolData self' conxid event symbol = Ok value /\
     _contextIsSubscribed self' conxid event symbol = Ok (subscribed sc) /\
     _contextIsSubscribing self' conxid event symbol = Ok (subscribing sc) /\
     (forall conxid' event' symbol',
         (conxid', event', symbol') <> (conxid, event, symbol) ->
         symbol_of self' conxid' event' symbol' =
         symbol_of self conxid' event' symbol')).
Proof.
  assert (Hget : forall s, _contextGetSymbolData s conxid event symbol =
            match dict_get conxid (websocketContexts s) with
            | None => Raise (KeyError conxid)
            | Some c =>
                match dict_get event (events c) with
                | None => Raise (KeyError event)
                | Some syms =>
                    match dict_get symbol syms with
                    | None => Raise (KeyError symbol)
                    | Some sc => Ok (data sc)
                    end
                end
            end).
  { intros s. unfold _contextGetSymbolData, dict_item.
    destruct (dict_get conxid (websocketContexts s)) as [c|]; [|reflexivity]. simpl.
    destruct (dict_get event (events c)) as [syms|]; [|reflexivity]. simpl.
    destruct (dict_get symbol syms); reflexivity. }
  split.
  - intros Hnone. split; [now apply symbol_of_None_update|].
    rewrite Hget. unfold symbol_of in Hnone.
    destruct (dict_get conxid (websocketContexts self)) as [c|]; [|eauto].
    destruct (dict_get event (events c)) as [syms|]; [|eauto].
    rewrite Hnone. eauto.
  - intros sc Hsome.
    destruct (update_symbol_spec conxid event symbol
                (fun sc => {| subscribed := subscribed sc; subscribing := subscribing sc;
                              data := value; sc_params := sc_params sc |})
                self sc Hsome) as (self' & Hrun & _ & Hsym & Hother).
    exists self'. split; [exact Hrun|].
    destruct (context_of_symbol _ _ _ _ _ Hsym) as [c Hc].
    destruct (read_flags_symbol_of self' conxid event symbol c Hc) as [-> ->].
    rewrite Hsym. split; [|auto].
    rewrite Hget. unfold symbol_of in Hsym. rewrite Hc in *.
    destruct (dict_get event (events c)) as [syms|]; [|discriminate].
    now rewrite Hsym.
Qed.

(** X13.  [_contextSet] followed by [_contextGet] with the same connection
    and key returns the value that was stored; every other key of the
    scratch area, every other connection and every symbol context is as
    before.  [_contextGet] returns [None] for a key that was never set,
    and both raise [KeyError] for a connection that is not in the store. *)
Theorem X13_scratch_round_trip (self : exchange) (conxid key : string)
    (value : pyval) :
  (dict_get conxid (websocketContexts self) = None ->
   _contextSet conxid key value self = (Raise (KeyError conxid), self) /\
   _contextGet self conxid key = Raise (KeyError conxid)) /\
  (forall c, dict_get conxid (websocketContexts self) = Some c ->
   (dict_get key (scratch c) = None -> _contextGet self conxid key = Ok VNone) /\
   exists self',
     _contextSet conxid key value self = (Ok tt, self') /\
     _contextGet self' conxid key = Ok value /\
     (forall conxid' key',
         (conxid', key') <> (conxid, key) ->
         _contextGet self' conxid' key' = _contextGet self conxid' key') /\
     (forall conxid' event symbol,
         symbol_of self' conxid' event symbol = symbol_of self conxid' event symbol)).
Proof.
  split.
  - intros Hnone. unfold _contextSet, _contextGet, update_context, dict_item.
    rewrite Hnone. split; reflexivity.
  - intros c Hc. split.
    + intros Hkey. unfold _contextGet, dict_item, dict_mem. rewrite Hc. simpl.
      now rewrite Hkey.
    + unfold _contextSet, update_context. rewrite Hc. eexists. split; [reflexivity|].
      split; [|split].
      * unfold _contextGet, dict_item, dict_mem. simpl.
        rewrite dict_get_set_eq. simpl. now rewrite dict_get_set_eq.
      * intros conxid' key' Hne. unfold _contextGet, dict_item, dict_mem. simpl.
        destruct (String.eqb_spec conxid conxid') as [<-|Hcx].
        -- rewrite dict_get_set_eq, Hc. simpl.
           destruct (String.eqb_spec key key') as [<-|Hk]; [congruence|].
           now rewrite (dict_get_set_ne key key' value (scratch c) Hk).
        -- now rewrite (dict_get_set_ne conxid conxid' _ _ Hcx).
      * intros conxid' event symbol. unfold symbol_of. simpl.
        destruct (String.eqb_spec conxid conxid') as [<-|Hcx].
        -- now rewrite dict_get_set_eq, Hc.
        -- now rewrite (dict_get_set_ne conxid conxid' _ _ Hcx).
Qed.

(** *** Resetting a context *)

Lemma dict_get_map_values {V W} (g : V -> W) (k : string) (d : dict V) :
  dict_get k (map (fun entry => (fst entry, g (snd entry))) d) =
    option_map g (dict_get k d).
Proof.
  induction d as [|[k' v] d IH]; simpl; [reflexivity|].
  now destruct (String.eqb k' k).
Qed.

Lemma reset_symbols_listed (key : string) (syms : dict symbol_context) :
  subscribed_symbols key
    (map (fun sentry => (fst sentry, reset_symbol_context (snd sentry))) syms) = [].
Proof.
  unfold subscribed_symbols. induction syms as [|[s sc] syms IH]; simpl; auto.
Qed.

Lemma reset_events_listed (evs : dict (dict symbol_context)) :
  flat_map (fun entry => subscribed_symbols (fst entry) (snd entry)) (reset_events evs)
  = [].
Proof.
  unfold reset_events. induction evs as [|[key syms] evs IH]; simpl; [reflexivity|].
  rewrite IH, app_nil_r. apply reset_symbols_listed.
Qed.

Lemma reset_events_symbol (evs : dict (dict symbol_context)) (event symbol : string) :
  match dict_get event (reset_events evs) with
  | Some syms => dict_get symbol syms
  | None => None
  end =
  option_map reset_symbol_context
    match dict_get event evs with
    | Some syms => dict_get symbol syms
    | None => None
    end.
Proof.
  unfold reset_events.
  rewrite (dict_get_map_values
             (fun syms : dict symbol_context =>
                map (fun sentry => (fst sentry, reset_symbol_context (snd sentry))) syms)).
  destruct (dict_get event evs) as [syms|]; simpl; [|reflexivity].
  apply dict_get_map_values.
Qed.

(** X14.  [_websocket_reset_context] never raises.  Afterwards the
    connection is in the store, no symbol of it is subscribed or
    subscribing (both reads return [False] for every event and symbol and
    the list of subscribed pairs is empty), each symbol context that was
    there is still there with its flags cleared, its payload emptied and
    its parameters kept, and every other connection is as before.  A
    connection that was in the store keeps its template, its scratch area
    and its connection info, whatever template is passed; one that was not
    gets an empty context with the template passed. *)
Theorem X14_reset_context (self : exchange) (conxid : string)
    (conxtpl : option string) :
  exists self',
    _websocket_reset_context conxid conxtpl self = (Ok tt, self') /\
    _websocketContextGetSubscribedEventSymbols self' conxid = Ok [] /\
    (forall event symbol,
        _contextIsSubscribed self' conxid event symbol = Ok false /\
        _contextIsSubscribing self' conxid event symbol = Ok false) /\
    (forall event symbol,
        symbol_of self' conxid event symbol =
        option_map reset_symbol_context (symbol_of self conxid event symbol)) /\
    (forall conxid',
        conxid' <> conxid ->
        dict_get conxid' (websocketContexts self') =
        dict_get conxid' (websocketContexts self)) /\
    (forall c,
        dict_get conxid (websocketContexts self) = Some c ->
        exists c',
          dict_get conxid (websocketContexts self') = Some c' /\
          conx_tpl c' = conx_tpl c /\ scratch c' = scratch c /\ info c' = info c) /\
    (dict_get conxid (websocketContexts self) = None ->
     dict_get conxid (websocketContexts self') =
       Some {| scratch := []; conx_tpl := conxtpl; events := []; info := None |}).
Proof.
  unfold _websocket_reset_context, dict_mem.
  destruct (dict_get conxid (websocketContexts self)) as [c|] eqn:Hc; simpl.
  - unfold update_context. rewrite Hc. eexists. split; [reflexivity|].
    assert (Hnew : dict_get conxid
                     (websocketContexts
                        (set_contexts
                           (dict_set conxid (set_events (reset_events (events c)) c)
                              (websocketContexts self)) self))
                   = Some (set_events (reset_events (events c)) c))
      by apply dict_get_set_eq.
    assert (Hsym : forall event symbol,
               symbol_of
                 (set_contexts
                    (dict_set conxid (set_events (reset_events (events c)) c)
                       (websocketContexts self)) self) conxid event symbol
               = option_map reset_symbol_context (symbol_of self conxid event symbol)).
    { intros event symbol. unfold symbol_of. rewrite Hnew, Hc. simpl.
      apply reset_events_symbol. }
    split; [|split; [|split; [exact Hsym|split; [|split]]]].
    + unfold _websocketContextGetSubscribedEventSymbols, _contextGetEvents, dict_item.
      rewrite Hnew. simpl. now rewrite reset_events_listed.
    + intros event symbol.
      destruct (read_flags_symbol_of _ conxid event symbol _ Hnew) as [-> ->].
      rewrite Hsym. destruct (symbol_of self conxid event symbol); auto.
    + intros conxid' Hne. simpl. apply dict_get_set_ne. congruence.
    + intros c0 [= <-]. exists (set_events (reset_events (events c)) c). auto.
    + discriminate.
  - eexists. split; [reflexivity|].
    assert (Hnew : dict_get conxid
                     (websocketContexts
                        (set_contexts
                           (dict_set conxid
                              {| scratch := []; conx_tpl := conxtpl; events := [];
                                 info := None |} (websocketContexts self)) self))
                   = Some {| scratch := []; conx_tpl := conxtpl; events := [];
                             info := None |})
      by apply dict_get_set_eq.
    assert (Hsym : forall event symbol,
               symbol_of
                 (set_contexts
                    (dict_set conxid
                       {| scratch := []; conx_tpl := conxtpl; events := [];
                          info := None |} (websocketContexts self)) self)
                 conxid event symbol
               = option_map reset_symbol_context (symbol_of self conxid event symbol)).
    { intros event symbol. unfold symbol_of. rewrite Hnew, Hc. reflexivity. }
    split; [|split; [|split; [exact Hsym|split; [|split]]]].
    + unfold _websocketContextGetSubscribedEventSymbols, _contextGetEvents, dict_item.
      now rewrite Hnew.
    + intros event symbol.
      destruct (read_flags_symbol_of _ conxid event symbol _ Hnew) as [-> ->].
      rewrite Hsym. unfold symbol_of. rewrite Hc. auto.
    + intros conxid' Hne. simpl. apply dict_get_set_ne. congruence.
    + discriminate.
    + intros _. exact Hnew.
Qed.

End StoreMore.

(** ** More on the action resolver *)

Module ResolverMore.
Import Py Store Resolver StoreFacts ResolverFacts.

Lemma dict_get_In {V} (k : string) (v : V) (d : dict V) :
  dict_get k d = Some v -> In (k, v) d.
Proof.
  induction d as [|[k' v'] d IH]; simpl; [discriminate|].
  destruct (String.eqb_spec k' k) as [->|Hk].
  - intros [= ->]. now left.
  - intros H. right. now apply IH.
Qed.

Lemma In_dict_get {V} (k : string) (v : V) (d : dict V) :
  dict_wf d -> In (k, v) d -> dict_get k d = Some v.
Proof.
  unfold dict_wf. induction d as [|[k' v'] d IH]; simpl; [intros _ []|].
  intros Hwf [Heq|Hin]; apply NoDup_cons in Hwf as [Hk Hwf].
  - injection Heq as -> ->. now rewrite String.eqb_refl.
  - destruct (String.eqb_spec k' k) as [->|Hne]; [|now apply IH].
    exfalso. apply Hk. apply list_elem_of_In.
    change k with (fst (k, v)). now apply in_map.
Qed.

Lemma subscribed_symbols_In_iff (key : string) (syms : dict symbol_context)
    (es : event_symbol) :
  In es (subscribed_symbols key syms) <->
  exists sc, In (es_symbol es, sc) syms /\
             subscribed sc || subscribing sc = true /\
             es_event es = key /\
             es_params es = Some (default (VDict []) (sc_params sc)).
Proof.
  unfold subscribed_symbols. rewrite in_flat_map. split.
  - intros ([s sc] & Hin & Hes). simpl in Hes.
    destruct (subscribed sc || subscribing sc) eqn:Hf; [|destruct Hes].
    destruct Hes as [<-|[]]. simpl. exists sc. repeat split; auto.
  - intros (sc & Hin & Hf & He & Hp). exists (es_symbol es, sc). split; [exact Hin|].
    simpl. rewrite Hf. left. destruct es as [e s p]. simpl in *. subst.
    reflexivity.
Qed.

(** X15.  For a connection whose dictionaries have each key once, the list
    of [_websocketContextGetSubscribedEventSymbols] and the two reads agree:
    a pair of event and symbol is listed exactly when [_contextIsSubscribed]
    or [_contextIsSubscribing] returns [True] for it. *)
Theorem X15_listed_iff_flagged (self : exchange) (conxid : string) (c : context)
    (Hknown : dict_get conxid (websocketContexts self) = Some c)
    (Hwf : context_wf c) :
  exists listed,
    _websocketContextGetSubscribedEventSymbols self conxid = Ok listed /\
    forall event symbol,
      (exists es, In es listed /\ pair_of es = (event, symbol)) <->
      (_contextIsSubscribed self conxid event symbol = Ok true \/
       _contextIsSubscribing self conxid event symbol = Ok true).
Proof.
  unfold _websocketContextGetSubscribedEventSymbols, _contextGetEvents, dict_item.
  rewrite Hknown. simpl. eexists. split; [reflexivity|].
  intros event symbol.
  destruct (read_flags_symbol_of self conxid event symbol c Hknown) as [-> ->].
  unfold symbol_of. rewrite Hknown. destruct Hwf as [Hkeys Hsyms]. split.
  - intros (es & Hin & Hp). apply in_flat_map in Hin as ([key syms] & Hentry & Hin).
    simpl in Hin. apply subscribed_symbols_In_iff in Hin as (sc & Hs & Hf & He & _).
    unfold pair_of in Hp. injection Hp as Hev Hsy. subst.
    rewrite (In_dict_get _ _ _ Hkeys Hentry).
    rewrite Forall_forall in Hsyms.
    assert (Hwfs : dict_wf syms).
    { apply (Hsyms (es_event es, syms)). now apply list_elem_of_In. }
    rewrite (In_dict_get _ _ _ Hwfs Hs).
    apply orb_true_iff in Hf as [->| ->]; auto.
  - intros Hflag.
    destruct (dict_get event (events c)) as [syms|] eqn:He;
      [|destruct Hflag; discriminate].
    destruct (dict_get symbol syms) as [sc|] eqn:Hs; [|destruct Hflag; discriminate].
    exists {| es_event := event; es_symbol := symbol;
              es_params := Some (default (VDict []) (sc_params sc)) |}.
    split; [|reflexivity]. apply in_flat_map. exists (event, syms).
    split; [now apply dict_get_In|]. simpl. apply subscribed_symbols_In_iff.
    exists sc. simpl. split; [now apply dict_get_In|]. split; [|auto].
    destruct Hflag as [[= ->]|[= ->]]; [reflexivity|apply orb_true_r].
Qed.

Lemma X15_listed_iff_flagged_witness :
  exists listed,
    _websocketContextGetSubscribedEventSymbols (Demo.serving ["ETH/USD"; "BTC/USD"])
      "default" = Ok listed /\
    forall event symbol,
      (exists es, In es listed /\ pair_of es = (event, symbol)) <->
      (_contextIsSubscribed (Demo.serving ["ETH/USD"; "BTC/USD"]) "default" event symbol
         = Ok true \/
       _contextIsSubscribing (Demo.serving ["ETH/USD"; "BTC/USD"]) "default" event symbol
         = Ok true).
Proof.
  apply (X15_listed_iff_flagged (Demo.serving ["ETH/USD"; "BTC/USD"]) "default"
           {| scratch := []; conx_tpl := Some "default";
              events := [("ob", [("ETH/USD", Demo.subscribed_symbol);
                                 ("BTC/USD", Demo.subscribed_symbol)])];
              info := None |}).
  - reflexivity.
  - concrete_context_wf.
Defined.

(** *** Requests that need no action *)

Lemma reads_together (self : exchange) (conxid event symbol : string) :
  match dict_get conxid (websocketContexts self) with
  | Some c =>
      exists b1 b2,
        _contextIsSubscribed self conxid event symbol = Ok b1 /\
        _contextIsSubscribing self conxid event symbol = Ok b2
  | None =>
      _contextIsSubscribed self conxid event symbol = Raise (KeyError conxid) /\
      _contextIsSubscribing self conxid event symbol = Raise (KeyError conxid)
  end.
Proof.
  destruct (dict_get conxid (websocketContexts self)) as [c|] eqn:Hc.
  - destruct (read_flag_known self conxid event symbol c Hc) as [H1 H2]. eauto.
  - unfold _contextIsSubscribed, _contextIsSubscribing, _contextGetEvents, dict_item.
    rewrite Hc. split; reflexivity.
Qed.

(** X16.  [_websocket_get_action_for_event] returns no action, and looks at
    no configuration, for a subscribe request on a pair that is subscribed
    or subscribing and for an unsubscribe request on a pair that is
    neither: this holds with any [wsconf], also an empty one.  On a
    connection that is not in the store it raises [KeyError]. *)
Theorem X16_no_action (E : env) (self : exchange) (conxid event symbol : string)
    (sp : pyval) :
  (_contextIsSubscribed self conxid event symbol = Ok true \/
   _contextIsSubscribing self conxid event symbol = Ok true ->
   _websocket_get_action_for_event E self conxid event symbol true sp = Ok None) /\
  (_contextIsSubscribed self conxid event symbol = Ok false ->
   _contextIsSubscribing self conxid event symbol = Ok false ->
   _websocket_get_action_for_event E self conxid event symbol false sp = Ok None) /\
  (dict_get conxid (websocketContexts self) = None ->
   forall subscription,
     _websocket_get_action_for_event E self conxid event symbol subscription sp
     = Raise (KeyError conxid)).
Proof.
  pose proof (reads_together self conxid event symbol) as Hreads.
  unfold _websocket_get_action_for_event. split; [|split].
  - destruct (dict_get conxid (websocketContexts self)) as [c|].
    + destruct Hreads as (b1 & b2 & H1 & H2). rewrite H1, H2. simpl.
      intros [[= ->]|[= ->]]; [reflexivity|]. now rewrite orb_true_r.
    + destruct Hreads as [H1 H2]. rewrite H1, H2. intros [|]; discriminate.
  - intros -> ->. reflexivity.
  - intros Hnone subscription. rewrite Hnone in Hreads. destruct Hreads as [-> _].
    reflexivity.
Qed.

(** *** The shape of an action *)

Lemma dict_mem_set {V} (k k' : string) (v : V) (d : dict V) :
  dict_mem k' d = true -> dict_mem k' (dict_set k v d) = true.
Proof.
  unfold dict_mem. destruct (String.eqb_spec k k') as [->|Hne].
  - now rewrite dict_get_set_eq.
  - now rewrite (dict_get_set_ne k k' v d Hne).
Qed.

Lemma is_str_eq (v : pyval) (s : string) : is_str v s = true -> v = VStr s.
Proof.
  destruct v; simpl; try discriminate. intros H. apply String.eqb_eq in H. now subst.
Qed.

Lemma stream_action_shape (E : env) (self : exchange) (config : dict pyval)
    (name event symbol : string) (subscription : bool) (sp : pyval) (a : action) :
  dict_mem "id" config = true -> dict_mem "url" config = true ->
  dict_get "type" config = Some (VStr "ws-s") ->
  stream_action E self config name event symbol subscription sp = Ok (Some a) ->
  well_shaped subscription a /\ act_conx_tpl a = name.
Proof.
  intros Hid Hurl Htype. unfold stream_action, mk_action.
  assert (Hmem : dict_mem "type" config = true) by (unfold dict_mem; now rewrite Htype).
  assert (Hreconnect : forall url,
            well_shaped subscription
              {| act := "reconnect"; conx_config := dict_set "url" url config;
                 reset_context := "onreconnect"; act_conx_tpl := name |}).
  { intros url. unfold well_shaped. simpl. repeat split.
    - right. left. repeat split.
      rewrite dict_get_set_ne by discriminate. exact Htype.
    - now apply dict_mem_set.
    - now apply dict_mem_set.
    - now apply dict_mem_set. }
  destruct (dict_item "id" config) as [config_id|e]; simpl; [|discriminate].
  destruct (match config_id with
            | VStr cid => _websocketContextGetSubscribedEventSymbols self cid
            | _ => _
            end) as [subscribed|e]; simpl; [|discriminate].
  destruct subscription.
  - destruct (_websocket_generate_url_stream E _ config sp) as [url|e]; simpl;
      [|discriminate].
    intros [= <-]. split; [apply Hreconnect|reflexivity].
  - destruct (length (remove_first event symbol subscribed) =? 0)%nat.
    + intros [= <-]. split; [|reflexivity]. unfold well_shaped. simpl.
      repeat split; auto. right. right. auto.
    + destruct (_websocket_generate_url_stream E _ config sp) as [url|e]; simpl;
        [|discriminate].
      intros [= <-]. split; [apply Hreconnect|reflexivity].
Qed.

(** X17.  Every action [_websocket_get_action_for_event] returns is one of
    ['connect'] with reset ['onconnect'], ['reconnect'] with reset
    ['onreconnect'] and ['disconnect'] with reset ['always']; its
    configuration has the keys ['id'], ['url'] and ['type'].  The actions
    ['reconnect'] and ['disconnect'] come only from a template of type
    ['ws-s'], and ['disconnect'] only from an unsubscribe request: on a
    template of another type an unsubscribe request that is not a no-op gets
    ['connect'] like a subscribe request. *)
Theorem X17_action_shape (E : env) (self : exchange) (conxid event symbol : string)
    (subscription : bool) (sp : pyval) (a : action)
    (Haction : _websocket_get_action_for_event E self conxid event symbol
                 subscription sp = Ok (Some a)) :
  well_shaped subscription a.
Proof.
  unfold _websocket_get_action_for_event in Haction.
  destruct (_contextIsSubscribed self conxid event symbol) as [b1|e]; [|discriminate].
  destruct (_contextIsSubscribing self conxid event symbol) as [b2|e]; [|discriminate].
  cbn [res_bind] in Haction.
  destruct (subscription && (b1 || b2)); [discriminate|].
  destruct (negb subscription && (negb b1 && negb b2)); [discriminate|].
  destruct (wsconf_events E) as [evs|e]; [|discriminate]. cbn [res_bind] in Haction.
  destruct (dict_get event evs) as [ec|]; [|discriminate]. cbv zeta in Haction.
  destruct (wsconf_conx_tpls E) as [tpls|e]; [|discriminate]. cbn [res_bind] in Haction.
  destruct (dict_get (default "default" (ec_conx_tpl ec)) tpls) as [tpl|]; [|discriminate].
  set (config := build_config E tpl (default default_conx_param (ec_conx_param ec))
                   (default "default" (ec_conx_tpl ec)) event symbol) in *.
  destruct (dict_mem "id" config) eqn:Hid; [|discriminate].
  destruct (dict_mem "url" config) eqn:Hurl; [|discriminate].
  destruct (dict_mem "type" config) eqn:Htype; [|discriminate].
  cbn [andb negb] in Haction. unfold dict_item in Haction.
  destruct (dict_get "type" config) as [type|] eqn:Hty; [|discriminate].
  cbn [res_bind] in Haction.
  assert (Hconnect : well_shaped subscription
            {| act := "connect"; conx_config := config;
               reset_context := "onconnect";
               act_conx_tpl := default "default" (ec_conx_tpl ec) |}).
  { unfold well_shaped. simpl. repeat split; auto. }
  unfold mk_action in Haction.
  destruct (is_str type "signalr"); [injection Haction as <-; exact Hconnect|].
  destruct (is_str type "ws-io"); [injection Haction as <-; exact Hconnect|].
  destruct (is_str type "pusher"); [injection Haction as <-; exact Hconnect|].
  destruct (is_str type "ws"); [injection Haction as <-; exact Hconnect|].
  destruct (is_str type "ws-s") eqn:Hs.
  - apply is_str_eq in Hs. subst type.
    now apply (stream_action_shape E self config _ event symbol subscription sp a
                 Hid Hurl Hty) in Haction as [Hshape _].
  - destruct type; discriminate.
Qed.

Lemma X17_action_shape_witness :
  well_shaped false
    {| act := "disconnect"; conx_config := Demo.stream_config "BTC/USD";
       reset_context := "always"; act_conx_tpl := "default" |}.
Proof.
  apply (X17_action_shape (Demo.stream_env (fun _ => NoAck)) (Demo.serving ["BTC/USD"])
           "default" "ob" "BTC/USD" false (VDict [])).
  reflexivity.
Defined.

End ResolverMore.

(** ** More on pending operations *)

Module PendingMore.
Import Py Store Resolver Pending MonadFacts StoreFacts PendingFacts.
Local Open Scope exchange_scope.

(** The callback of a subscription on a symbol that is in the store. *)
Lemma wait4obsubscribe_run (E : env) (conxid event symbol : string) (params : pyval)
    (success : bool) (ex : option error) (f : future) (self : exchange)
    (sc : symbol_context) :
  symbol_of self conxid event symbol = Some sc ->
  exists self',
    wait4obsubscribe E conxid event symbol params success ex f self =
      (Ok (if done f then f
           else if success then Result (VStr conxid)
           else Exception (default (ExchangeError ("error subscribing to " +:+ event
                                                   +:+ "(" +:+ symbol +:+ ") in "
                                                   +:+ exchange_id E)) ex)), self') /\
    log self' = log self /\
    symbol_of self' conxid event symbol =
      Some {| subscribed := success; subscribing := false; data := data sc;
              sc_params := Some (if success then params else VDict []) |} /\
    (forall conxid' event' symbol',
        (conxid', event', symbol') <> (conxid, event, symbol) ->
        symbol_of self' conxid' event' symbol' = symbol_of self conxid' event' symbol').
Proof.
  intros Hsym. unfold wait4obsubscribe.
  destruct success.
  - destruct (update_symbol_spec conxid event symbol
                (fun sc => {| subscribed := true; subscribing := subscribing sc;
                              data := data sc; sc_params := Some params |})
                self sc Hsym) as (s1 & Hu1 & Hl1 & Hs1 & Ho1).
    destruct (update_symbol_spec conxid event symbol
                (fun sc => {| subscribed := subscribed sc; subscribing := false;
                              data := data sc; sc_params := sc_params sc |})
                s1 _ Hs1) as (s2 & Hu2 & Hl2 & Hs2 & Ho2).
    exists s2. unfold bind, _contextSetSubscribed, _contextSetSubscribing.
    rewrite Hu1, Hu2. unfold read. rewrite done_or_set_result_spec.
    split; [reflexivity|]. split; [congruence|]. split; [exact Hs2|].
    intros conxid' event' symbol' Hne. now rewrite (Ho2 _ _ _ Hne), (Ho1 _ _ _ Hne).
  - destruct (update_symbol_spec conxid event symbol
                (fun sc => {| subscribed := false; subscribing := subscribing sc;
                              data := data sc; sc_params := Some (VDict []) |})
                self sc Hsym) as (s1 & Hu1 & Hl1 & Hs1 & Ho1).
    destruct (update_symbol_spec conxid event symbol
                (fun sc => {| subscribed := subscribed sc; subscribing := false;
                              data := data sc; sc_params := sc_params sc |})
                s1 _ Hs1) as (s2 & Hu2 & Hl2 & Hs2 & Ho2).
    exists s2. unfold bind, _contextSetSubscribed, _contextSetSubscribing.
    rewrite Hu1, Hu2. unfold read. rewrite done_or_set_exception_spec.
    split; [reflexivity|]. split; [congruence|]. split; [exact Hs2|].
    intros conxid' event' symbol' Hne. now rewrite (Ho2 _ _ _ Hne), (Ho1 _ _ _ Hne).
Qed.

Lemma flags_of_symbol (self : exchange) (conxid event symbol : string)
    (sc : symbol_context) :
  symbol_of self conxid event symbol = Some sc ->
  _contextIsSubscribed self conxid event symbol = Ok (subscribed sc) /\
  _contextIsSubscribing self conxid event symbol = Ok (subscribing sc).
Proof.
  intros Hsym. assert (Hc : exists c, dict_get conxid (websocketContexts self) = Some c).
  { unfold symbol_of in Hsym.
    destruct (dict_get conxid (websocketContexts self)); [eauto|discriminate]. }
  destruct Hc as [c Hc].
  destruct (read_flags_symbol_of self conxid event symbol c Hc) as [-> ->].
  now rewrite Hsym.
Qed.

(** After its first emission the [once] handler is gone: whatever is
    emitted later leaves the pending operation and the store as they
    are, and a tick only runs the timer. *)
Lemma handler_gone (scope : string)
    (callback : bool -> option error -> future -> M future)
    (evs : list loop_event) (p : pending) (self : exchange) :
  handler p = false -> done (fut p) = true ->
  exists p',
    loop_run scope callback evs p self = (Ok p', self) /\
    fut p' = fut p /\ handler p' = false.
Proof.
  revert p. induction evs as [|ev evs IH]; intros p Hh Hd; cbn [loop_run].
  - exists p. unfold ret. auto.
  - destruct ev as [success ex|now]; unfold bind; cbn [loop_step].
    + rewrite Hh. unfold ret. apply IH; assumption.
    + destruct (timer p) as [deadline|]; [destruct (deadline <=? now)%Z|];
        unfold bind, read, ret; rewrite ?timeout_callback_spec, ?Hd.
      * destruct (IH {| fut := fut p; handler := handler p; timer := None |} Hh Hd)
          as (p' & Hr & Hf & Hh'). exists p'. auto.
      * apply IH; assumption.
      * apply IH; assumption.
Qed.

(** X18.  When the acknowledgement of a subscription on a symbol of the
    store is emitted first, the future gets the connection id on success
    and the error on failure, the symbol becomes subscribed (on success) or
    unsubscribed (on failure) and not subscribing, and that is final:
    whatever is emitted later never reaches the callback again, and the
    timer finds the future done, so the result and the store stay as the
    first acknowledgement left them. *)
Theorem X18_first_ack_is_final (E : env) (conxid event symbol : string)
    (params : pyval) (now : Z) (self : exchange) (success : bool)
    (ex : option error) (late : list loop_event) (sc : symbol_context)
    (Hentry : symbol_of self conxid event symbol = Some sc) :
  exists p self',
    pending_run E conxid event symbol (OpSubscribe params) (Emit success ex :: late)
      (new_pending E now) self = (Ok p, self') /\
    fut p = (if success then Result (VStr conxid)
             else Exception (default (ExchangeError ("error subscribing to " +:+ event
                                                     +:+ "(" +:+ symbol +:+ ") in "
                                                     +:+ exchange_id E)) ex)) /\
    _contextIsSubscribed self' conxid event symbol = Ok success /\
    _contextIsSubscribing self' conxid event symbol = Ok false /\
    log self' = log self.
Proof.
  destruct (wait4obsubscribe_run E conxid event symbol params success ex Unresolved
              self sc Hentry) as (s1 & Hcb & Hl1 & Hs1 & _).
  cbn [done] in Hcb.
  set (p1 := {| fut := if success then Result (VStr conxid)
                       else Exception (default (ExchangeError
                                                  ("error subscribing to " +:+ event
                                                   +:+ "(" +:+ symbol +:+ ") in "
                                                   +:+ exchange_id E)) ex);
                handler := false; timer := Some (now + timeout E)%Z |}).
  assert (Hd : done (fut p1) = true) by (unfold p1; now destruct success).
  destruct (handler_gone (scope_of (OpSubscribe params))
              (callback_of E conxid event symbol (OpSubscribe params)) late p1 s1
              eq_refl Hd) as (p' & Hrun & Hf & _).
  exists p', s1. split.
  - unfold pending_run. cbn [loop_run loop_step new_pending handler fut timer].
    unfold bind at 1. unfold bind at 1. unfold guarded. cbn [callback_of].
    rewrite Hcb. unfold ret. exact Hrun.
  - split; [rewrite Hf; reflexivity|].
    destruct (flags_of_symbol s1 conxid event symbol _ Hs1) as [-> ->]. auto.
Qed.

Lemma X18_first_ack_is_final_witness :
  exists p self',
    pending_run (Demo.stream_env (fun _ => AckSuccess)) "default" "ob" "BTC/USD"
      (OpSubscribe (VDict [])) (Emit true None :: [Emit false None; Tick 20000])
      (new_pending (Demo.stream_env (fun _ => AckSuccess)) 0)
      (Demo.preparing ["BTC/USD"]) = (Ok p, self') /\
    fut p = (if true then Result (VStr "default")
             else Exception (default (ExchangeError ("error subscribing to " +:+ "ob"
                                                     +:+ "(" +:+ "BTC/USD" +:+ ") in "
                                                     +:+ "binance")) None)) /\
    _contextIsSubscribed self' "default" "ob" "BTC/USD" = Ok true /\
    _contextIsSubscribing self' "default" "ob" "BTC/USD" = Ok false /\
    log self' = log (Demo.preparing ["BTC/USD"]).
Proof.
  exact (X18_first_ack_is_final (Demo.stream_env (fun _ => AckSuccess)) "default" "ob"
           "BTC/USD" (VDict []) 0 (Demo.preparing ["BTC/USD"]) true None
           [Emit false None; Tick 20000] Demo.subscribing_symbol eq_refl).
Defined.

(** X19.  An acknowledgement that comes after the timer has run finds the
    handler still registered: the caller has the timeout error and keeps
    it, yet a late positive acknowledgement marks the symbol as subscribed
    and not subscribing in the store. *)
Theorem X19_late_ack_changes_the_store (E : env) (conxid event symbol : string)
    (params : pyval) (now t : Z) (self : exchange) (sc : symbol_context)
    (Hentry : symbol_of self conxid event symbol = Some sc)
    (Hdeadline : (now + timeout E <= t)%Z) :
  exists p self',
    pending_run E conxid event symbol (OpSubscribe params) [Tick t; Emit true None]
      (new_pending E now) self = (Ok p, self') /\
    fut p = Exception (TimeoutError "timeout in scope: websocket_subscribe") /\
    _contextIsSubscribed self' conxid event symbol = Ok true /\
    _contextIsSubscribing self' conxid event symbol = Ok false.
Proof.
  destruct (wait4obsubscribe_run E conxid event symbol params true None
              (Exception (TimeoutError ("timeout in scope: " +:+ "websocket_subscribe")))
              self sc Hentry) as (s1 & Hcb & _ & Hs1 & _).
  cbn [done] in Hcb.
  eexists _, s1. split.
  - unfold pending_run. cbn [loop_run loop_step new_pending handler fut timer scope_of].
    apply Z.leb_le in Hdeadline. rewrite Hdeadline.
    unfold bind, read, ret, guarded. rewrite timeout_callback_spec. cbn [done].
    cbn [handler fut timer callback_of]. rewrite Hcb. reflexivity.
  - split; [reflexivity|].
    destruct (flags_of_symbol s1 conxid event symbol _ Hs1) as [-> ->]. auto.
Qed.

Lemma X19_late_ack_changes_the_store_witness :
  exists p self',
    pending_run (Demo.stream_env (fun _ => NoAck)) "default" "ob" "BTC/USD"
      (OpSubscribe (VDict [])) [Tick 10000; Emit true None]
      (new_pending (Demo.stream_env (fun _ => NoAck)) 0) (Demo.preparing ["BTC/USD"])
      = (Ok p, self') /\
    fut p = Exception (TimeoutError "timeout in scope: websocket_subscribe") /\
    _contextIsSubscribed self' "default" "ob" "BTC/USD" = Ok true /\
    _contextIsSubscribing self' "default" "ob" "BTC/USD" = Ok false.
Proof.
  apply (X19_late_ack_changes_the_store (Demo.stream_env (fun _ => NoAck)) "default"
           "ob" "BTC/USD" (VDict []) 0 10000 (Demo.preparing ["BTC/USD"])
           Demo.subscribing_symbol).
  - reflexivity.
  - simpl. lia.
Defined.

End PendingMore.

(** ** More on the orchestration *)

Module OrchestratorMore.
Import Py Store Resolver Pending Orchestrator Lifecycle.
Import MonadFacts StoreFacts PendingFacts OrchestratorFacts PendingMore.
Local Open Scope exchange_scope.

(** One round of the send-and-await loop whose acknowledgement is
    positive. *)
Lemma subscribe_one_success (E : env) (i : nat) (conxid : string) (es : event_symbol)
    (self : exchange) (params : pyval) (sc : symbol_context) :
  es_params es = Some params ->
  _websocket_subscribe E conxid (es_event es) (es_symbol es) params = Ok tt ->
  ack_of E i = AckSuccess ->
  symbol_of self conxid (es_event es) (es_symbol es) = Some sc ->
  exists self',
    subscribe_one E i conxid es self = (Ok tt, self') /\
    log self' = log self ++ round_log conxid es /\
    symbol_of self' conxid (es_event es) (es_symbol es) =
      Some {| subscribed := true; subscribing := false; data := data sc;
              sc_params := Some params |} /\
    (forall conxid' event' symbol',
        (conxid', event', symbol') <> place_of conxid es ->
        symbol_of self' conxid' event' symbol' = symbol_of self conxid' event' symbol').
Proof.
  intros Hparams Hsend Hack Hentry.
  set (event := es_event es) in *. set (symbol := es_symbol es) in *.
  set (s1 := add_log (ObsAwait conxid event symbol)
               (add_log (ObsSend conxid event symbol true) self)).
  assert (Hentry1 : symbol_of s1 conxid event symbol = Some sc) by exact Hentry.
  destruct (wait4obsubscribe_run E conxid event symbol params true None Unresolved
              s1 sc Hentry1) as (s2 & Hcb & Hl2 & Hs2 & Ho2).
  cbn [done] in Hcb.
  exists s2. split; [|split; [|split]].
  - unfold subscribe_one. fold event. fold symbol.
    unfold bind at 1. unfold read at 1. unfold params_of. rewrite Hparams.
    rewrite bind_observe. unfold bind at 1. unfold read at 1. rewrite Hsend.
    rewrite bind_observe. fold s1. rewrite Hack. unfold bind at 1.
    unfold deliver, guarded. rewrite Hcb. reflexivity.
  - rewrite Hl2. unfold s1, round_log. simpl. now rewrite <- app_assoc.
  - exact Hs2.
  - intros conxid' event' symbol' Hne. rewrite (Ho2 _ _ _ Hne). reflexivity.
Qed.

Lemma settled_of_symbol (self : exchange) (conxid event symbol : string)
    (sc : symbol_context) :
  symbol_of self conxid event symbol = Some sc ->
  subscribed sc = true -> subscribing sc = false ->
  settled self conxid event symbol.
Proof.
  intros Hsym Hs Hg. unfold settled.
  destruct (flags_of_symbol self conxid event symbol sc Hsym) as [-> ->].
  now rewrite Hs, Hg.
Qed.

(** The send-and-await loop when every acknowledgement is positive. *)
Lemma subscribe_from_success (E : env) (eventSymbols : list event_symbol) :
  forall (conxIds : list string) (i : nat) (self : exchange),
    Forall2 (fun conxid es =>
      exists params,
        es_params es = Some params /\
        _websocket_subscribe E conxid (es_event es) (es_symbol es) params = Ok tt /\
        symbol_of self conxid (es_event es) (es_symbol es) <> None)
      conxIds eventSymbols ->
    (forall j, (i <= j < i + length eventSymbols)%nat -> ack_of E j = AckSuccess) ->
    exists self',
      subscribe_from E i conxIds eventSymbols self = (Ok tt, self') /\
      log self' = log self ++ concat (zip_with round_log conxIds eventSymbols) /\
      (forall conxid event symbol,
          symbol_of self conxid event symbol <> None ->
          symbol_of self' conxid event symbol <> None) /\
      (forall conxid event symbol sc,
          symbol_of self conxid event symbol = Some sc ->
          subscribed sc = true -> subscribing sc = false ->
          exists sc', symbol_of self' conxid event symbol = Some sc' /\
                      subscribed sc' = true /\ subscribing sc' = false) /\
      Forall2 (fun conxid es =>
        exists sc', symbol_of self' conxid (es_event es) (es_symbol es) = Some sc' /\
                    subscribed sc' = true /\ subscribing sc' = false)
        conxIds eventSymbols /\
      (forall conxid event symbol,
          ~ In (conxid, event, symbol) (zip_with place_of conxIds eventSymbols) ->
          symbol_of self' conxid event symbol = symbol_of self conxid event symbol).
Proof.
  induction eventSymbols as [|es rest IH]; intros conxIds i self Hall Hacks.
  - apply Forall2_nil_inv_r in Hall. subst conxIds. exists self.
    split; [reflexivity|]. split; [simpl; now rewrite app_nil_r|].
    split; [auto|]. split; [eauto|]. split; [constructor|auto].
  - apply Forall2_cons_inv_r in Hall.
    destruct Hall as (conxid & conxIds' & (params & Hparams & Hsend & Hsome) & Hall & ->).
    destruct (symbol_of self conxid (es_event es) (es_symbol es)) as [sc|] eqn:Hentry;
      [clear Hsome|congruence].
    destruct (subscribe_one_success E i conxid es self params sc Hparams Hsend
                (Hacks i ltac:(simpl; lia)) Hentry) as (s1 & Hone & Hl1 & Hs1 & Ho1).
    assert (Hkeep : forall conxid' event' symbol',
               symbol_of self conxid' event' symbol' <> None ->
               symbol_of s1 conxid' event' symbol' <> None).
    { intros conxid' event' symbol' Hsome.
      destruct (decide ((conxid', event', symbol') = place_of conxid es)) as [Heq|Hne].
      - unfold place_of in Heq. injection Heq as -> -> ->. now rewrite Hs1.
      - now rewrite (Ho1 _ _ _ Hne). }
    destruct (IH conxIds' (S i) s1) as (s2 & Hrun & Hl2 & Hk2 & Hg2 & Hall2 & Ho2).
    { eapply Forall2_impl; [exact Hall|].
      intros cx es' (params' & Hp' & Hsend' & Hsome'). exists params'. auto. }
    { intros j Hj. apply Hacks. simpl. lia. }
    exists s2. split; [|split; [|split; [|split; [|split]]]].
    + cbn [subscribe_from]. unfold bind. rewrite Hone. exact Hrun.
    + rewrite Hl2, Hl1. simpl. unfold round_log at 2. simpl.
      now rewrite <- app_assoc.
    + auto.
    + intros conxid' event' symbol' sc' Hsym Hs Hg.
      destruct (decide ((conxid', event', symbol') = place_of conxid es)) as [Heq|Hne].
      * unfold place_of in Heq. injection Heq as -> -> ->.
        apply (Hg2 _ _ _ _ Hs1); reflexivity.
      * rewrite <- (Ho1 _ _ _ Hne) in Hsym. apply (Hg2 _ _ _ _ Hsym); assumption.
    + constructor; [|exact Hall2]. apply (Hg2 _ _ _ _ Hs1); reflexivity.
    + intros conxid' event' symbol' Hnot. simpl in Hnot.
      rewrite Ho2 by tauto. apply Ho1. intros Heq. apply Hnot. left. now symmetry.
Qed.

(** X20.  When every message of the loop is sent and every acknowledgement
    is positive, on symbols that are in the store, the loop of
    [websocket_subscribe_all] returns normally, has sent and awaited each
    request once and in input order, leaves every requested symbol
    subscribed and not subscribing, and leaves every other symbol of the
    store as it was. *)
Theorem X20_all_acks_succeed (E : env) (eventSymbols : list event_symbol)
    (conxIds : list string) (i : nat) (self : exchange)
    (Hrequests : Forall2 (fun conxid es =>
       exists params,
         es_params es = Some params /\
         _websocket_subscribe E conxid (es_event es) (es_symbol es) params = Ok tt /\
         symbol_of self conxid (es_event es) (es_symbol es) <> None)
       conxIds eventSymbols)
    (Hacks : forall j, (i <= j < i + length eventSymbols)%nat ->
                       ack_of E j = AckSuccess) :
  exists self',
    subscribe_from E i conxIds eventSymbols self = (Ok tt, self') /\
    log self' = log self ++ concat (zip_with round_log conxIds eventSymbols) /\
    Forall2 (fun conxid es => settled self' conxid (es_event es) (es_symbol es))
      conxIds eventSymbols /\
    (forall conxid event symbol,
        ~ In (conxid, event, symbol) (zip_with place_of conxIds eventSymbols) ->
        symbol_of self' conxid event symbol = symbol_of self conxid event symbol).
Proof.
  destruct (subscribe_from_success E eventSymbols conxIds i self Hrequests Hacks)
    as (self' & Hrun & Hlog & _ & _ & Hall & Hother).
  exists self'. split; [exact Hrun|]. split; [exact Hlog|]. split; [|exact Hother].
  eapply Forall2_impl; [exact Hall|].
  intros conxid es (sc' & Hsym & Hs & Hg). now apply (settled_of_symbol _ _ _ _ sc').
Qed.

Lemma X20_all_acks_succeed_witness :
  exists self',
    subscribe_from (Demo.stream_env (fun _ => AckSuccess)) 0 ["default"; "default"]
      [Demo.request "BTC/USD"; Demo.request "ETH/USD"]
      (Demo.preparing ["BTC/USD"; "ETH/USD"]) = (Ok tt, self') /\
    log self' = log (Demo.preparing ["BTC/USD"; "ETH/USD"]) ++
                concat (zip_with round_log ["default"; "default"]
                          [Demo.request "BTC/USD"; Demo.request "ETH/USD"]) /\
    Forall2 (fun conxid es => settled self' conxid (es_event es) (es_symbol es))
      ["default"; "default"] [Demo.request "BTC/USD"; Demo.request "ETH/USD"] /\
    (forall conxid event symbol,
        ~ In (conxid, event, symbol)
            (zip_with place_of ["default"; "default"]
               [Demo.request "BTC/USD"; Demo.request "ETH/USD"]) ->
        symbol_of self' conxid event symbol =
          symbol_of (Demo.preparing ["BTC/USD"; "ETH/USD"]) conxid event symbol).
Proof.
  apply (X20_all_acks_succeed (Demo.stream_env (fun _ => AckSuccess))
           [Demo.request "BTC/USD"; Demo.request "ETH/USD"] ["default"; "default"] 0
           (Demo.preparing ["BTC/USD"; "ETH/USD"])).
  - repeat constructor; exists (VDict []); (split; [reflexivity|]);
      (split; [reflexivity|]); vm_compute; discriminate.
  - intros j _. reflexivity.
Defined.

(** Resolving an unsubscription of a pair that the store does not hold:
    nothing to do, and the connection id comes back. *)
Lemma ensure_unsubscribe_unknown (E : env) (event symbol : string) (sp : pyval)
    (self : exchange) (conxid tpl : string) :
  load_markets E = Ok tt ->
  _websocketGetConxid4Event E event symbol = Ok (conxid, tpl) ->
  symbol_of self conxid event symbol = None ->
  exists s1,
    _websocket_ensure_conx_active E event symbol false sp true self = (Ok conxid, s1) /\
    log s1 = log self ++ [ObsResolve event symbol false] /\
    symbol_of s1 conxid event symbol = None /\
    websocketDelayedConnections s1 = websocketDelayedConnections self.
Proof.
  intros Hload Hcid Hnone.
  assert (Hstep : exists s0,
             bind (read (fun self => Ok (dict_mem conxid (websocketContexts self))))
               (fun known => if negb known
                             then _websocket_reset_context conxid (Some tpl)
                             else ret tt) self = (Ok tt, s0) /\
             log s0 = log self /\
             websocketDelayedConnections s0 = websocketDelayedConnections self /\
             symbol_of s0 conxid event symbol = None /\
             dict_mem conxid (websocketContexts s0) = true).
  { unfold bind, read. unfold dict_mem at 1.
    destruct (dict_get conxid (websocketContexts self)) as [c|] eqn:Hc; cbn [negb].
    - exists self. unfold ret, dict_mem. rewrite Hc. auto.
    - unfold _websocket_reset_context, dict_mem. rewrite Hc. cbn [negb].
      eexists. split; [reflexivity|]. split; [reflexivity|]. split; [reflexivity|].
      unfold symbol_of. cbn [websocketContexts set_contexts].
      rewrite dict_get_set_eq. auto. }
  destruct Hstep as (s0 & Hs0 & Hl0 & Hd0 & Hn0 & Hk0).
  assert (Hact : _websocket_get_action_for_event E
                   (add_log (ObsResolve event symbol false) s0)
                   conxid event symbol false sp = Ok None).
  { unfold dict_mem in Hk0.
    destruct (dict_get conxid (websocketContexts s0)) as [c|] eqn:Hc; [|discriminate].
    destruct (read_flags_symbol_of (add_log (ObsResolve event symbol false) s0)
                conxid event symbol c Hc) as [H1 H2].
    unfold _websocket_get_action_for_event. rewrite H1, H2.
    change (symbol_of (add_log (ObsResolve event symbol false) s0) conxid event symbol)
      with (symbol_of s0 conxid event symbol).
    rewrite Hn0. reflexivity. }
  exists (add_log (ObsResolve event symbol false) s0).
  split; [|split; [|split]].
  - unfold _websocket_ensure_conx_active.
    unfold bind at 1. unfold read at 1. rewrite Hload.
    unfold bind at 1. unfold read at 1. rewrite Hcid. cbn [fst snd].
    unfold bind at 1. rewrite Hs0. rewrite bind_observe.
    unfold bind at 1. unfold read at 1. rewrite Hact. reflexivity.
  - simpl. now rewrite Hl0.
  - exact Hn0.
  - exact Hd0.
Qed.

(** X21.  Unsubscribing a pair that the store does not hold: the resolver
    finds nothing to do, yet the unsubscribe message is sent and awaited;
    when the exchange acknowledges it, the callback raises [KeyError] on
    the missing entry before it resolves the future, the transport emits
    that as an ['err'] event, and the caller gets the timeout error. *)
Theorem X21_unsubscribe_of_unknown_pair (E : env) (i : nat) (es : event_symbol)
    (self : exchange) (params : pyval) (conxid tpl : string)
    (Hparams : es_params es = Some params)
    (Hload : load_markets E = Ok tt)
    (Hconx : _websocketGetConxid4Event E (es_event es) (es_symbol es) = Ok (conxid, tpl))
    (Hunknown : symbol_of self conxid (es_event es) (es_symbol es) = None)
    (Hsend : _websocket_unsubscribe E conxid (es_event es) (es_symbol es) params = Ok tt)
    (Hack : ack_of E i = AckSuccess) :
  exists k self',
    unsubscribe_one E i es self =
      (Raise (TimeoutError "timeout in scope: websocket_unsubscribe"), self') /\
    log self' = log self ++ [ObsResolve (es_event es) (es_symbol es) false;
                             ObsSend conxid (es_event es) (es_symbol es) false;
                             ObsAwait conxid (es_event es) (es_symbol es);
                             ObsErr (KeyError k)] /\
    symbol_of self' conxid (es_event es) (es_symbol es) = None /\
    websocketDelayedConnections self' = websocketDelayedConnections self.
Proof.
  set (event := es_event es) in *. set (symbol := es_symbol es) in *.
  destruct (ensure_unsubscribe_unknown E event symbol params self conxid tpl
              Hload Hconx Hunknown) as (s1 & Hens & Hl1 & Hn1 & Hd1).
  set (s2 := add_log (ObsAwait conxid event symbol)
               (add_log (ObsSend conxid event symbol false) s1)).
  assert (Hn2 : symbol_of s2 conxid event symbol = None) by exact Hn1.
  destruct (StoreMore.symbol_of_None_update conxid event symbol
              (fun sc => {| subscribed := false; subscribing := subscribing sc;
                            data := data sc; sc_params := Some (VDict []) |})
              s2 Hn2) as (k & Hup).
  exists k, (add_log (ObsErr (KeyError k)) s2).
  split; [|split; [|split]].
  - unfold unsubscribe_one. fold event. fold symbol.
    unfold bind at 1. unfold read at 1. unfold params_of. rewrite Hparams.
    unfold bind at 1. rewrite Hens. rewrite bind_observe.
    unfold bind at 1. unfold read at 1. rewrite Hsend.
    rewrite bind_observe. fold s2. rewrite Hack. unfold bind at 1.
    unfold deliver, guarded, wait4obunsubscribe. unfold bind at 1.
    unfold _contextSetSubscribed. rewrite Hup. reflexivity.
  - unfold s2. simpl. rewrite Hl1. rewrite <- !app_assoc. reflexivity.
  - exact Hn1.
  - exact Hd1.
Qed.

Lemma X21_unsubscribe_of_unknown_pair_witness :
  exists k self',
    unsubscribe_one (Demo.stream_env (fun _ => AckSuccess)) 0 (Demo.request "BTC/USD")
      init =
      (Raise (TimeoutError "timeout in scope: websocket_unsubscribe"), self') /\
    log self' = log init ++ [ObsResolve "ob" "BTC/USD" false;
                             ObsSend "default" "ob" "BTC/USD" false;
                             ObsAwait "default" "ob" "BTC/USD";
                             ObsErr (KeyError k)] /\
    symbol_of self' "default" "ob" "BTC/USD" = None /\
    websocketDelayedConnections self' = websocketDelayedConnections init.
Proof.
  exact (X21_unsubscribe_of_unknown_pair (Demo.stream_env (fun _ => AckSuccess)) 0
           (Demo.request "BTC/USD") init (VDict []) "default" "default"
           eq_refl eq_refl eq_refl eq_refl eq_refl eq_refl).
Defined.

Lemma keeps_reset_context (conxid : string) (conxtpl : option string) :
  keeps_delayed (_websocket_reset_context conxid conxtpl).
Proof.
  intros self r self'. unfold _websocket_reset_context.
  destruct (negb (dict_mem conxid (websocketContexts self))).
  - intros [= <- <-]. reflexivity.
  - apply keeps_update_context.
Qed.

Lemma keeps_except {A} (body handler : M A) :
  keeps_delayed body -> keeps_delayed handler ->
  keeps_delayed (except_AttributeError body handler).
Proof.
  intros Hb Hh self r self'. unfold except_AttributeError.
  destruct (body self) as [rb sb] eqn:Hbody. pose proof (Hb _ _ _ Hbody) as Hk.
  destruct rb as [a|e].
  - intros [= <- <-]. exact Hk.
  - destruct e; try (intros [= <- <-]; exact Hk).
    intros Hrun. rewrite (Hh _ _ _ Hrun). exact Hk.
Qed.

Lemma keeps_close (conxid : string) (conx : option connection) :
  keeps_delayed (close_connection conxid conx).
Proof.
  destruct conx; [|apply keeps_raise].
  apply keeps_bind; [apply keeps_observe|intros _; apply keeps_update_context].
Qed.

Lemma keeps_initialize (E : env) (config : dict pyval) (conxid : string) :
  keeps_delayed (_websocket_initialize E config conxid).
Proof.
  unfold _websocket_initialize. apply keeps_bind; [apply keeps_read|].
  intros type.
  destruct (is_str type "signalr" || is_str type "ws" || is_str type "ws-s");
    [apply keeps_ret|].
  destruct type; apply keeps_raise.
Qed.

Lemma keeps_reinitialize (E : env) (conxid conxtpl : string) (config : dict pyval) :
  keeps_delayed (reinitialize E conxid conxtpl config).
Proof.
  apply keeps_bind; [apply keeps_reset_context|]. intros _.
  apply keeps_bind; [apply keeps_initialize|]. intros i. apply keeps_update_context.
Qed.

Lemma queues_bind {A} (conxid tpl : string) (m : M A) (k : A -> M string) :
  keeps_delayed m -> (forall a, queues conxid tpl (k a)) ->
  queues conxid tpl (bind m k).
Proof.
  intros Hm Hk self r self'. unfold bind.
  destruct (m self) as [[a|e] s1] eqn:Hrun; pose proof (Hm _ _ _ Hrun) as Hkeep.
  - intros Hrest. destruct (Hk a _ _ _ Hrest) as [Hq Hr]. now rewrite Hkeep in Hq.
  - intros [= <- <-]. split; [left; exact Hkeep|discriminate].
Qed.

Lemma queues_ret (conxid tpl : string) : queues conxid tpl (ret conxid).
Proof.
  intros self r self' [= <- <-]. split; [now left|]. now intros c [= <-].
Qed.

(** The last statements of a branch that queues the connection. *)
Lemma queues_queue (conxid tpl : string) :
  queues conxid tpl
    (bind (modify (fun self =>
             if negb (dict_mem conxid (websocketDelayedConnections self)) then
               set_delayed
                 (dict_set conxid {| conxtpl := tpl; reset := false |}
                    (websocketDelayedConnections self)) self
             else self))
          (fun _ => ret conxid)).
Proof.
  intros self r self'. unfold bind, modify, ret. intros [= <- <-].
  split; [|now intros c [= <-]].
  destruct (dict_mem conxid (websocketDelayedConnections self)) eqn:Hmem; cbn [negb].
  - now left.
  - right. left. split; [exact Hmem|reflexivity].
Qed.

(** The last statements of the branch that disconnects. *)
Lemma queues_unqueue (conxid tpl : string) :
  queues conxid tpl
    (bind (modify (fun self =>
             if dict_mem conxid (websocketDelayedConnections self) then
               set_delayed (dict_del conxid (websocketDelayedConnections self)) self
             else self))
          (fun _ => ret conxid)).
Proof.
  intros self r self'. unfold bind, modify, ret. intros [= <- <-].
  split; [|now intros c [= <-]].
  destruct (dict_mem conxid (websocketDelayedConnections self)) eqn:Hmem.
  - right. right. split; [exact Hmem|reflexivity].
  - now left.
Qed.

(** X22.  Resolving a request in delayed mode touches the delayed
    connections at the resolved connection id only: it leaves them as they
    are, queues that id (if it is not queued) with no reset asked for, or
    takes that id out (if it is queued); and the id it returns is the
    resolved one.  When the markets or the connection id cannot be
    resolved, it raises and leaves the delayed connections as they are. *)
Theorem X22_resolution_queues_its_own_id (E : env) (event symbol : string)
    (subscribe : bool) (sp : pyval) (self self' : exchange) (r : res string)
    (Hrun : _websocket_ensure_conx_active E event symbol subscribe sp true self
            = (r, self')) :
  (websocketDelayedConnections self' = websocketDelayedConnections self /\
   forall c, r <> Ok c) \/
  exists conxid tpl,
    _websocketGetConxid4Event E event symbol = Ok (conxid, tpl) /\
    queued_by conxid tpl (websocketDelayedConnections self)
      (websocketDelayedConnections self') /\
    (forall c, r = Ok c -> c = conxid).
Proof.
  unfold _websocket_ensure_conx_active in Hrun.
  unfold bind at 1 in Hrun. unfold read at 1 in Hrun.
  destruct (load_markets E) as [[]|e];
    [|injection Hrun as <- <-; left; split; [reflexivity|discriminate]].
  unfold bind at 1 in Hrun. unfold read at 1 in Hrun.
  destruct (_websocketGetConxid4Event E event symbol) as [[conxid tpl]|e];
    [|injection Hrun as <- <-; left; split; [reflexivity|discriminate]].
  cbn [fst snd] in Hrun. right. exists conxid, tpl. split; [reflexivity|].
  revert self r self' Hrun.
  match goal with
  | |- forall self r self', ?m self = (r, self') -> _ =>
      change (queues conxid tpl m)
  end.
  apply queues_bind.
  { apply keeps_bind; [apply keeps_read|]. intros known.
    destruct (negb known); [apply keeps_reset_context|apply keeps_ret]. }
  intros _. apply queues_bind; [apply keeps_observe|]. intros _.
  apply queues_bind; [apply keeps_read|]. intros [a|]; [|apply queues_ret].
  apply queues_bind.
  { apply keeps_bind; [apply keeps_read|]. intros evs.
    destruct (negb (dict_mem event evs)); [apply keeps_update_context|apply keeps_ret]. }
  intros _. apply queues_bind.
  { apply keeps_bind; [apply keeps_read|]. intros syms.
    destruct (negb (dict_mem symbol syms)); [apply keeps_update_context|apply keeps_ret]. }
  intros _.
  destruct (String.eqb (act a) "reconnect").
  { apply queues_bind; [apply keeps_read|]. intros conx.
    apply queues_bind; [apply keeps_except; [apply keeps_close|apply keeps_ret]|].
    intros _. cbn [negb]. apply queues_bind; [apply keeps_ret|]. intros _.
    apply queues_bind; [apply keeps_initialize|]. intros i.
    apply queues_bind; [apply keeps_update_context|]. intros _. apply queues_queue. }
  destruct (String.eqb (act a) "connect").
  { apply queues_bind; [apply keeps_read|]. intros conx.
    apply queues_bind; [|intros _; apply queues_queue].
    apply keeps_except; [|apply keeps_reinitialize].
    apply keeps_bind; [destruct conx; [apply keeps_ret|apply keeps_raise]|].
    intros is_active. destruct (negb is_active); [|apply keeps_ret].
    apply keeps_bind; [apply keeps_close|]. intros _. apply keeps_reinitialize. }
  destruct (String.eqb (act a) "disconnect"); [|apply queues_queue].
  apply queues_bind; [apply keeps_read|]. intros conx.
  apply queues_bind.
  { apply keeps_except; [|apply keeps_ret].
    apply keeps_bind; [apply keeps_close|]. intros _. apply keeps_reset_context. }
  intros _. apply queues_unqueue.
Qed.

Lemma X22_resolution_queues_its_own_id_witness :
  (websocketDelayedConnections
     (snd (_websocket_ensure_conx_active (Demo.stream_env (fun _ => AckSuccess))
             "ob" "BTC/USD" true (VDict []) true init))
   = websocketDelayedConnections init /\
   forall c,
     fst (_websocket_ensure_conx_active (Demo.stream_env (fun _ => AckSuccess))
            "ob" "BTC/USD" true (VDict []) true init) <> Ok c) \/
  exists conxid tpl,
    _websocketGetConxid4Event (Demo.stream_env (fun _ => AckSuccess)) "ob" "BTC/USD"
      = Ok (conxid, tpl) /\
    queued_by conxid tpl (websocketDelayedConnections init)
      (websocketDelayedConnections
         (snd (_websocket_ensure_conx_active (Demo.stream_env (fun _ => AckSuccess))
                 "ob" "BTC/USD" true (VDict []) true init))) /\
    (forall c,
        fst (_websocket_ensure_conx_active (Demo.stream_env (fun _ => AckSuccess))
               "ob" "BTC/USD" true (VDict []) true init) = Ok c -> c = conxid).
Proof.
  apply (X22_resolution_queues_its_own_id (Demo.stream_env (fun _ => AckSuccess))
           "ob" "BTC/USD" true (VDict []) init).
  reflexivity.
Defined.

Lemma no_connect_filter (added : list obs) :
  forallb (fun o => negb (is_connect o)) added = true ->
  List.filter is_connect added = [].
Proof.
  induction added as [|o added IH]; [reflexivity|]. simpl.
  intros H. apply andb_prop in H as [Ho Hrest].
  destruct (is_connect o); [discriminate|]. now apply IH.
Qed.

Lemma connect_connection_log (E : env) (conxid : string) (self self' : exchange)
    (r : res unit) :
  connect_connection E conxid self = (r, self') ->
  log self' = log self ++ [ObsConnect conxid].
Proof.
  unfold connect_connection. rewrite bind_observe. intros Hrun.
  assert (Hrest : emits (bind (read (fun _ => connect E conxid))
                           (fun _ => update_info conxid (set_active true))) nothing).
  { apply emits_bind; [apply emits_read|]. intros _. apply emits_update_info. }
  destruct (Hrest _ _ _ Hrun) as (added & Hlog & Hnone).
  apply nothing_added in Hnone. subst added. now rewrite app_nil_r in Hlog.
Qed.

(** [websocket_connect] connects its connection at most once, and no
    other. *)
Lemma websocket_connect_connects (E : env) (conxid : string) (self self' : exchange)
    (r : res unit) :
  websocket_connect E conxid self = (r, self') ->
  exists added,
    log self' = log self ++ added /\
    (List.filter is_connect added = [] \/
     List.filter is_connect added = [ObsConnect conxid]).
Proof.
  unfold websocket_connect. intros Hrun.
  apply (bind_nothing_inv _ _ _ _ _ (emits_read _ _)) in Hrun
    as [(e & _ & Hl)|(i & s1 & Hl1 & Hrun)];
    [exists []; rewrite app_nil_r; auto|].
  apply (bind_nothing_inv _ _ _ _ _ (emits_read _ _)) in Hrun
    as [(e & _ & Hl)|(tpl & s2 & Hl2 & Hrun)];
    [exists []; rewrite app_nil_r; split; [congruence|auto]|].
  apply (bind_nothing_inv _ _ _ _ _ (emits_read _ _)) in Hrun
    as [(e & _ & Hl)|(u & s3 & Hl3 & Hrun)];
    [exists []; rewrite app_nil_r; split; [congruence|auto]|].
  destruct (negb (ready i));
    [|injection Hrun as <- <-; exists []; rewrite app_nil_r; split; [congruence|auto]].
  apply (bind_nothing_inv _ _ _ _ _ (emits_read _ _)) in Hrun
    as [(e & _ & Hl)|(tpls & s4 & Hl4 & Hrun)];
    [exists []; rewrite app_nil_r; split; [congruence|auto]|].
  apply (bind_nothing_inv _ _ _ _ _ (emits_read _ _)) in Hrun
    as [(e & _ & Hl)|(t & s5 & Hl5 & Hrun)];
    [exists []; rewrite app_nil_r; split; [congruence|auto]|].
  assert (Hsame : log s5 = log self) by congruence.
  assert (Hplain : forall r self',
             connect_connection E conxid s5 = (r, self') ->
             exists added,
               log self' = log self ++ added /\
               (List.filter is_connect added = [] \/
                List.filter is_connect added = [ObsConnect conxid])).
  { intros r0 s6 Hc. apply connect_connection_log in Hc.
    exists [ObsConnect conxid]. rewrite Hc, Hsame. auto. }
  destruct (dict_get "wait4readyEvent" t) as [v|]; [|exact (Hplain _ _ Hrun)].
  destruct v; try exact (Hplain _ _ Hrun);
    (unfold bind at 1 in Hrun;
     destruct (connect_connection E conxid s5) as [[[]|e] s6] eqn:Hc;
     [|injection Hrun as <- <-; exact (Hplain _ _ eq_refl)];
     apply connect_connection_log in Hc;
     assert (Hrest : emits
               (bind (deliver (ready_event E conxid) (wait4ready_event conxid)
                        Unresolved)
                  (fun f => bind (read (fun _ => await "websocket_connect" f))
                              (fun _ => ret tt)))
               (fun o => negb (is_connect o)));
     [apply emits_bind;
      [apply emits_deliver; [intros; apply emits_wait4ready|reflexivity]|];
      intros f; apply emits_bind; [apply emits_read|intros; apply emits_ret]|];
     destruct (Hrest _ _ _ Hrun) as (added & Hlog & Hnone);
     apply no_connect_filter in Hnone;
     exists (ObsConnect conxid :: added);
     split; [rewrite Hlog, Hc, Hsame, <- app_assoc; reflexivity|];
     right; simpl; now rewrite Hnone).
Qed.

(** A loop whose every round connects its own item at most once connects
    a sublist of the items, in order. *)
Lemma for_each_connects (body : string -> M unit) (xs : list string) :
  (forall x self r self',
      body x self = (r, self') ->
      exists added,
        log self' = log self ++ added /\
        (List.filter is_connect added = [] \/
         List.filter is_connect added = [ObsConnect x])) ->
  forall self r self',
    for_each xs body self = (r, self') ->
    exists added connected,
      log self' = log self ++ added /\
      List.filter is_connect added = map ObsConnect connected /\
      sublist connected xs.
Proof.
  intros Hbody. induction xs as [|x xs IH]; intros self r self'; cbn [for_each].
  - intros [= <- <-]. exists [], []. rewrite app_nil_r. auto using sublist_nil.
  - unfold bind. destruct (body x self) as [[[]|e] s1] eqn:Hx;
      destruct (Hbody _ _ _ _ Hx) as (added1 & Hl1 & Hf1).
    + intros Hrest. destruct (IH _ _ _ Hrest) as (added2 & connected & Hl2 & Hf2 & Hsub).
      destruct Hf1 as [Hf1|Hf1].
      * exists (added1 ++ added2), connected.
        split; [rewrite Hl2, Hl1, <- app_assoc; reflexivity|].
        split; [rewrite List.filter_app, Hf1; exact Hf2|].
        now apply sublist_cons.
      * exists (added1 ++ added2), (x :: connected).
        split; [rewrite Hl2, Hl1, <- app_assoc; reflexivity|].
        split; [rewrite List.filter_app, Hf1, Hf2; reflexivity|].
        now apply sublist_skip.
    + intros [= <- <-]. destruct Hf1 as [Hf1|Hf1].
      * exists added1, []. split; [exact Hl1|]. split; [exact Hf1|].
        apply sublist_nil_l.
      * exists added1, [x]. split; [exact Hl1|]. split; [exact Hf1|].
        apply sublist_skip, sublist_nil_l.
Qed.

(** X23.  The flush connects queued connections only, in queue order and
    each at most once: the physical connects it logs after its own mark
    are those of a sublist of the queued connection ids. *)
Theorem X23_flush_connects_the_queue (E : env) (self self' : exchange) (r : res unit)
    (Hrun : _websocket_connect_delayed E self = (r, self')) :
  exists rest connected,
    log self' = log self ++ ObsFlush :: rest /\
    List.filter is_connect rest = map ObsConnect connected /\
    sublist connected (dict_keys (websocketDelayedConnections self)) /\
    (dict_wf (websocketDelayedConnections self) -> NoDup connected).
Proof.
  unfold _websocket_connect_delayed in Hrun. rewrite bind_observe in Hrun.
  unfold try_finally in Hrun.
  destruct (bind _ _ (add_log ObsFlush self)) as [rb s1] eqn:Hbody.
  assert (Hlog : log self' = log s1).
  { unfold modify in Hrun. now injection Hrun as _ <-. }
  unfold bind at 1 in Hbody. unfold read at 1 in Hbody.
  apply (for_each_connects _ _) in Hbody.
  - destruct Hbody as (added & connected & Hl & Hf & Hsub).
    exists added, connected. split; [|split; [exact Hf|split; [exact Hsub|]]].
    + rewrite Hlog, Hl. simpl. now rewrite <- app_assoc.
    + intros Hwf. unfold dict_wf in Hwf. eapply sublist_NoDup; eassumption.
  - intros x s r0 s' Hx.
    apply (bind_nothing_inv _ _ _ _ _ (emits_read _ _)) in Hx
      as [(e & _ & Hl)|(d & s2 & Hl2 & Hx)];
      [exists []; rewrite app_nil_r; auto|].
    assert (Hreset : emits (if reset d
                            then _websocket_reset_context x (Some (conxtpl d))
                            else ret tt) nothing).
    { destruct (reset d); [apply emits_reset_context|apply emits_ret]. }
    apply (bind_nothing_inv _ _ _ _ _ Hreset) in Hx
      as [(e & _ & Hl)|(u & s3 & Hl3 & Hx)];
      [exists []; rewrite app_nil_r; split; [congruence|auto]|].
    apply websocket_connect_connects in Hx. destruct Hx as (added & Hl & Hf).
    exists added. split; [congruence|exact Hf].
Qed.

Lemma X23_flush_connects_the_queue_witness :
  exists rest connected,
    log (snd (_websocket_connect_delayed (Demo.stream_env (fun _ => AckSuccess))
                Samples.prepared)) =
      log Samples.prepared ++ ObsFlush :: rest /\
    List.filter is_connect rest = map ObsConnect connected /\
    sublist connected (dict_keys (websocketDelayedConnections Samples.prepared)) /\
    (dict_wf (websocketDelayedConnections Samples.prepared) -> NoDup connected).
Proof.
  apply (X23_flush_connects_the_queue (Demo.stream_env (fun _ => AckSuccess))
           Samples.prepared _
           (fst (_websocket_connect_delayed (Demo.stream_env (fun _ => AckSuccess))
                   Samples.prepared))).
  reflexivity.
Defined.

(** The first check of [_websocket_ensure_conx_active] on the action: the
    event is given its dictionary if it has none. *)
Lemma ensure_event_entry (conxid event : string) (s : exchange) (c : context) :
  dict_get conxid (websocketContexts s) = Some c ->
  exists s' c',
    bind (read (fun self => _contextGetEvents self conxid))
      (fun evs => if negb (dict_mem event evs) then _contextResetEvent conxid event
                  else ret tt) s = (Ok tt, s') /\
    dict_get conxid (websocketContexts s') = Some c' /\
    info c' = info c /\ dict_mem event (events c') = true /\
    log s' = log s /\
    websocketDelayedConnections s' = websocketDelayedConnections s.
Proof.
  intros Hc. unfold bind, read, _contextGetEvents, dict_item. rewrite Hc.
  cbn [res_bind]. destruct (dict_mem event (events c)) eqn:Hmem; cbn [negb].
  - exists s, c. unfold ret. repeat split; assumption || reflexivity.
  - unfold _contextResetEvent, update_context. rewrite Hc.
    eexists _, _. split; [reflexivity|]. cbn [websocketContexts set_contexts].
    rewrite dict_get_set_eq. split; [reflexivity|]. split; [reflexivity|].
    split; [|auto]. cbn [events set_events]. unfold dict_mem.
    now rewrite dict_get_set_eq.
Qed.

(** The second check: the symbol is given its entry if it has none. *)
Lemma ensure_symbol_entry (conxid event symbol : string) (s : exchange) (c : context) :
  dict_get conxid (websocketContexts s) = Some c ->
  dict_mem event (events c) = true ->
  exists s' c',
    bind (read (fun self => _contextGetSymbols self conxid event))
      (fun syms => if negb (dict_mem symbol syms)
                   then _contextResetSymbol conxid event symbol
                   else ret tt) s = (Ok tt, s') /\
    dict_get conxid (websocketContexts s') = Some c' /\
    info c' = info c /\
    log s' = log s /\
    websocketDelayedConnections s' = websocketDelayedConnections s.
Proof.
  intros Hc Hmem. unfold dict_mem in Hmem.
  destruct (dict_get event (events c)) as [syms|] eqn:Hsyms; [|discriminate].
  unfold bind, read, _contextGetSymbols, _contextGetEvents, dict_item. rewrite Hc.
  cbn [res_bind]. rewrite Hsyms.
  destruct (dict_mem symbol syms); cbn [negb].
  - exists s, c. unfold ret. repeat split; assumption || reflexivity.
  - unfold _contextResetSymbol, update_symbols, update_context, dict_item.
    rewrite Hc, Hsyms. cbn [res_bind].
    eexists _, _. split; [reflexivity|]. cbn [websocketContexts set_contexts].
    rewrite dict_get_set_eq. auto.
Qed.

(** [_websocket_initialize] accepts three connection types only. *)
Lemma initialize_unsupported (E : env) (config : dict pyval) (conxid t : string)
    (s : exchange) :
  dict_get "type" config = Some (VStr t) ->
  t = "ws-io" \/ t = "pusher" ->
  _websocket_initialize E (dict_set "verbose" (verbose E) config) conxid s =
    (Raise (NotSupported ("invalid async connection: " +:+ t
                          +:+ " for exchange " +:+ exchange_id E)), s).
Proof.
  intros Htype Ht. unfold _websocket_initialize, bind, read, dict_item.
  assert (Hget : dict_get "type"
                   match proxies E with
                   | Some p => dict_set "proxies" p
                                 (dict_set "verbose" (verbose E) config)
                   | None => dict_set "verbose" (verbose E) config
                   end = Some (VStr t)).
  { destruct (proxies E);
      rewrite ?(dict_get_set_ne "proxies" "type") by discriminate;
      rewrite (dict_get_set_ne "verbose" "type") by discriminate; exact Htype. }
  rewrite Hget. destruct Ht as [-> | ->]; reflexivity.
Qed.

Lemma reinitialize_unsupported (E : env) (config : dict pyval) (conxid tpl t : string)
    (s : exchange) (c : context) :
  dict_get conxid (websocketContexts s) = Some c ->
  dict_get "type" config = Some (VStr t) ->
  t = "ws-io" \/ t = "pusher" ->
  exists s',
    reinitialize E conxid tpl (dict_set "verbose" (verbose E) config) s =
      (Raise (NotSupported ("invalid async connection: " +:+ t
                            +:+ " for exchange " +:+ exchange_id E)), s') /\
    log s' = log s /\
    websocketDelayedConnections s' = websocketDelayedConnections s.
Proof.
  intros Hc Htype Ht. unfold reinitialize.
  unfold bind at 1. unfold _websocket_reset_context, dict_mem. rewrite Hc.
  cbn [negb]. unfold update_context. rewrite Hc.
  unfold bind. rewrite (initialize_unsupported E config conxid t _ Htype Ht).
  eexists. split; [reflexivity|]. auto.
Qed.

(** X24.  The resolver answers ['connect'] for connections of type
    ['ws-io'] and ['pusher'], but [_websocket_initialize] builds none for
    them: resolving a request whose connection is of such a type, and has
    no active connection yet, raises [NotSupported], in delayed mode or
    not.  By then the request is logged as resolved and a stale connection
    is closed; nothing is queued and nothing is connected. *)
Theorem X24_unsupported_connection_types (E : env) (event symbol : string)
    (subscribe : bool) (sp : pyval) (delayed_flag : bool) (self : exchange)
    (conxid tpl t : string) (a : action)
    (Hload : load_markets E = Ok tt)
    (Hconx : _websocketGetConxid4Event E event symbol = Ok (conxid, tpl))
    (Haction : _websocket_get_action_for_event E (ensured conxid tpl self)
                 conxid event symbol subscribe sp = Ok (Some a))
    (Hact : act a = "connect")
    (Htype : dict_get "type" (conx_config a) = Some (VStr t))
    (Hunsupported : t = "ws-io" \/ t = "pusher")
    (Hinactive : forall c i,
        dict_get conxid (websocketContexts self) = Some c ->
        info c = Some i -> active (conx i) = false) :
  exists self' closes,
    _websocket_ensure_conx_active E event symbol subscribe sp delayed_flag self =
      (Raise (NotSupported ("invalid async connection: " +:+ t
                            +:+ " for exchange " +:+ exchange_id E)), self') /\
    log self' = log self ++ ObsResolve event symbol subscribe :: closes /\
    (closes = [] \/ closes = [ObsClose conxid]) /\
    websocketDelayedConnections self' = websocketDelayedConnections self.
Proof.
  assert (Hstep : exists c0,
             bind (read (fun self => Ok (dict_mem conxid (websocketContexts self))))
               (fun known => if negb known
                             then _websocket_reset_context conxid (Some tpl)
                             else ret tt) self = (Ok tt, ensured conxid tpl self) /\
             dict_get conxid (websocketContexts (ensured conxid tpl self)) = Some c0 /\
             (forall i, info c0 = Some i -> active (conx i) = false) /\
             log (ensured conxid tpl self) = log self /\
             websocketDelayedConnections (ensured conxid tpl self)
             = websocketDelayedConnections self).
  { unfold bind, read, ensured. unfold dict_mem.
    destruct (dict_get conxid (websocketContexts self)) as [c|] eqn:Hc; cbn [negb].
    - exists c. unfold ret. rewrite Hc. split; [reflexivity|]. split; [reflexivity|].
      split; [|auto]. intros i Hi. exact (Hinactive c i eq_refl Hi).
    - unfold _websocket_reset_context, dict_mem. rewrite Hc. cbn [negb snd].
      eexists. split; [reflexivity|]. cbn [websocketContexts set_contexts].
      rewrite dict_get_set_eq. split; [reflexivity|]. split; [discriminate|auto]. }
  destruct Hstep as (c0 & Hs0 & Hc0 & Hin0 & Hl0 & Hd0).
  set (s0 := ensured conxid tpl self) in *.
  set (s0' := add_log (ObsResolve event symbol subscribe) s0).
  assert (Hc0' : dict_get conxid (websocketContexts s0') = Some c0) by exact Hc0.
  destruct (ensure_event_entry conxid event s0' c0 Hc0')
    as (s1 & c1 & Hev & Hc1 & Hi1 & Hm1 & Hl1 & Hd1).
  destruct (ensure_symbol_entry conxid event symbol s1 c1 Hc1 Hm1)
    as (s2 & c2 & Hsy & Hc2 & Hi2 & Hl2 & Hd2).
  assert (Hlog2 : log s2 = log self ++ [ObsResolve event symbol subscribe]).
  { rewrite Hl2, Hl1. unfold s0'. simpl. now rewrite Hl0. }
  assert (Hdel2 : websocketDelayedConnections s2 = websocketDelayedConnections self).
  { rewrite Hd2, Hd1. exact Hd0. }
  assert (Hconnection : _contextGetConnection s2 conxid = Ok (option_map conx (info c2))).
  { unfold _contextGetConnection, dict_item. now rewrite Hc2. }
  assert (Hbody : exists self' closes,
             except_AttributeError
               (bind (isActive (option_map conx (info c2)))
                  (fun is_active =>
                     if negb is_active then
                       bind (close_connection conxid (option_map conx (info c2)))
                         (fun _ => reinitialize E conxid tpl
                                     (dict_set "verbose" (verbose E) (conx_config a)))
                     else ret tt))
               (reinitialize E conxid tpl
                  (dict_set "verbose" (verbose E) (conx_config a))) s2 =
               (Raise (NotSupported ("invalid async connection: " +:+ t
                                     +:+ " for exchange " +:+ exchange_id E)), self') /\
             log self' = log s2 ++ closes /\
             (closes = [] \/ closes = [ObsClose conxid]) /\
             websocketDelayedConnections self' = websocketDelayedConnections s2).
  { destruct (info c2) as [i|] eqn:Hinfo; cbn [option_map].
    - assert (Hoff : active (conx i) = false).
      { apply Hin0. now rewrite <- Hi1, <- Hi2. }
      unfold except_AttributeError, isActive. unfold bind at 1. unfold ret at 1.
      rewrite Hoff. cbn [negb]. unfold close_connection.
      unfold bind at 1. rewrite bind_observe.
      unfold update_info, update_context. cbn [websocketContexts add_log].
      rewrite Hc2.
      match goal with
      | |- context [reinitialize E conxid tpl ?cfg ?s] =>
          destruct (reinitialize_unsupported E (conx_config a) conxid tpl t s
                      (set_info (option_map (set_active false) (info c2)) c2))
            as (s3 & Hre & Hl3 & Hd3);
            [cbn [websocketContexts set_contexts]; apply dict_get_set_eq
            |exact Htype|exact Hunsupported|]
      end.
      rewrite Hre. exists s3, [ObsClose conxid].
      split; [reflexivity|]. split; [rewrite Hl3; reflexivity|].
      split; [now right|]. rewrite Hd3. reflexivity.
    - destruct (reinitialize_unsupported E (conx_config a) conxid tpl t s2 c2
                  Hc2 Htype Hunsupported) as (s3 & Hre & Hl3 & Hd3).
      unfold except_AttributeError, isActive, bind at 1, raise.
      rewrite Hre. exists s3, []. rewrite app_nil_r. auto. }
  destruct Hbody as (self' & closes & Hbody & Hl' & Hcl & Hd').
  exists self', closes. split; [|split; [|split]].
  - unfold _websocket_ensure_conx_active.
    unfold bind at 1. unfold read at 1. rewrite Hload.
    unfold bind at 1. unfold read at 1. rewrite Hconx. cbn [fst snd].
    unfold bind at 1. rewrite Hs0. rewrite bind_observe. fold s0'.
    unfold bind at 1. unfold read at 1.
    change (_websocket_get_action_for_event E s0' conxid event symbol subscribe sp)
      with (_websocket_get_action_for_event E s0 conxid event symbol subscribe sp).
    rewrite Haction.
    unfold bind at 1. rewrite Hev. unfold bind at 1. rewrite Hsy.
    rewrite Hact. cbn [String.eqb Ascii.eqb Bool.eqb].
    unfold bind at 1. unfold read at 1. rewrite Hconnection.
    unfold bind at 1. rewrite Hbody. reflexivity.
  - rewrite Hl', Hlog2, <- app_assoc. reflexivity.
  - exact Hcl.
  - now rewrite Hd'.
Qed.

Lemma X24_unsupported_connection_types_witness :
  exists self' closes,
    _websocket_ensure_conx_active Samples.pusher_env "trade" "BTC/USD" true (VDict [])
      true init =
      (Raise (NotSupported ("invalid async connection: " +:+ "pusher"
                            +:+ " for exchange " +:+ exchange_id Samples.pusher_env)),
       self') /\
    log self' = log init ++ ObsResolve "trade" "BTC/USD" true :: closes /\
    (closes = [] \/ closes = [ObsClose "default"]) /\
    websocketDelayedConnections self' = websocketDelayedConnections init.
Proof.
  apply (X24_unsupported_connection_types Samples.pusher_env "trade" "BTC/USD" true
           (VDict []) true init "default" "default" "pusher" Samples.pusher_action).
  - reflexivity.
  - reflexivity.
  - reflexivity.
  - reflexivity.
  - reflexivity.
  - now right.
  - simpl. discriminate.
Defined.

End OrchestratorMore.

(** ** Closing and cleaning *)

Module LifecycleMore.
Import Py Store Resolver Pending Orchestrator Lifecycle.
Import MonadFacts StoreFacts OrchestratorFacts.
Local Open Scope exchange_scope.

Lemma dict_get_None_iff {V} (k : string) (d : dict V) :
  dict_get k d = None <-> ~ In k (dict_keys d).
Proof.
  induction d as [|[k' v] d IH]; simpl; [tauto|].
  destruct (String.eqb_spec k' k) as [->|Hne].
  - split; [discriminate|]. intros H. exfalso. apply H. now left.
  - rewrite IH. tauto.
Qed.

Lemma dict_get_app {V} (k : string) (pre rest : dict V) :
  dict_get k (pre ++ rest) =
    match dict_get k pre with
    | Some v => Some v
    | None => dict_get k rest
    end.
Proof.
  induction pre as [|[k' v] pre IH]; simpl; [reflexivity|].
  now destruct (String.eqb k' k).
Qed.

Lemma closed_closed (c : context) : closed (closed c) = closed c.
Proof. destruct c as [sc tpl evs [i|]]; reflexivity. Qed.

Lemma for_each_app {A} (xs ys : list A) (body : A -> M unit) (self : exchange) :
  for_each (xs ++ ys) body self =
    bind (for_each xs body) (fun _ => for_each ys body) self.
Proof.
  revert self. induction xs as [|x xs IH]; intros self; simpl; [reflexivity|].
  unfold bind in *. destruct (body x self) as [[[]|e] s1]; [apply IH|reflexivity].
Qed.

(** Closing a connection that the store holds. *)
Lemma close_known (E : env) (k : string) (self : exchange) (c : context) :
  dict_get k (websocketContexts self) = Some c -> info c <> None ->
  websocketClose E k self =
    (Ok tt, set_contexts (dict_set k (closed c) (websocketContexts self))
              (add_log (ObsClose k) self)).
Proof.
  intros Hc Hinfo. destruct (info c) as [i|] eqn:Hi; [clear Hinfo|congruence].
  unfold websocketClose, bind, read, _contextGetConnectionInfo, dict_item.
  rewrite Hc. cbn [res_bind]. rewrite Hi.
  unfold except_AttributeError, close_connection. rewrite bind_observe.
  unfold update_info, update_context. cbn [websocketContexts add_log]. rewrite Hc.
  reflexivity.
Qed.

(** Closing a context that has no connection yet. *)
Lemma close_unconnected (E : env) (k : string) (self : exchange) (c : context) :
  dict_get k (websocketContexts self) = Some c -> info c = None ->
  websocketClose E k self =
    (Raise (NotSupported ("websocket <" +:+ k +:+ "> not found in this exchange: "
                          +:+ exchange_id E)), self).
Proof.
  intros Hc Hi.
  unfold websocketClose, bind, read, _contextGetConnectionInfo, dict_item.
  rewrite Hc. cbn [res_bind]. now rewrite Hi.
Qed.

(** Closing the connections of a list of ids that all have one. *)
Lemma close_each (E : env) (ks : list string) :
  forall self,
    (forall k, In k ks ->
       exists c, dict_get k (websocketContexts self) = Some c /\ info c <> None) ->
    exists self',
      for_each ks (websocketClose E) self = (Ok tt, self') /\
      log self' = log self ++ map ObsClose ks /\
      websocketDelayedConnections self' = websocketDelayedConnections self /\
      (forall k, In k ks ->
         dict_get k (websocketContexts self')
         = option_map closed (dict_get k (websocketContexts self))) /\
      (forall k, ~ In k ks ->
         dict_get k (websocketContexts self') = dict_get k (websocketContexts self)).
Proof.
  induction ks as [|k0 ks IH]; intros self Hall.
  - exists self. simpl. rewrite app_nil_r. unfold ret. repeat split; tauto.
  - destruct (Hall k0 (or_introl eq_refl)) as (c0 & Hc0 & Hi0).
    set (s1 := set_contexts (dict_set k0 (closed c0) (websocketContexts self))
                 (add_log (ObsClose k0) self)).
    assert (Hget1 : forall k, dict_get k (websocketContexts s1) =
                              if String.eqb k0 k then Some (closed c0)
                              else dict_get k (websocketContexts self)).
    { intros k. unfold s1. cbn [websocketContexts set_contexts].
      destruct (String.eqb_spec k0 k) as [->|Hne].
      - apply dict_get_set_eq.
      - now apply dict_get_set_ne. }
    destruct (IH s1) as (s2 & Hrun & Hl2 & Hd2 & Hin2 & Hout2).
    { intros k Hk. rewrite Hget1. destruct (String.eqb_spec k0 k) as [->|Hne].
      - exists (closed c0). split; [reflexivity|].
        unfold closed. cbn [info set_info]. destruct (info c0); [discriminate|congruence].
      - apply Hall. now right. }
    exists s2. split; [|split; [|split; [|split]]].
    + cbn [for_each]. unfold bind. rewrite (close_known E k0 self c0 Hc0 Hi0).
      exact Hrun.
    + rewrite Hl2. unfold s1. simpl. now rewrite <- app_assoc.
    + rewrite Hd2. reflexivity.
    + intros k Hk. destruct (in_dec String.string_dec k ks) as [Hin|Hnot].
      * rewrite (Hin2 k Hin), Hget1. destruct (String.eqb_spec k0 k) as [->|Hne].
        -- rewrite Hc0. simpl. now rewrite closed_closed.
        -- reflexivity.
      * rewrite (Hout2 k Hnot), Hget1. destruct Hk as [->|Hk]; [|contradiction].
        rewrite String.eqb_refl. now rewrite Hc0.
    + intros k Hk. simpl in Hk. rewrite Hout2 by tauto. rewrite Hget1.
      destruct (String.eqb_spec k0 k) as [->|Hne]; [tauto|reflexivity].
Qed.

(** X25.  When every context of the store has a connection,
    [websocketCloseAll] closes each of them once, in the order of the
    store, and returns normally: afterwards every connection is inactive
    and nothing else of the store has changed. *)
Theorem X25_close_all (E : env) (self : exchange)
    (Hconnected : forall k c,
        dict_get k (websocketContexts self) = Some c -> info c <> None) :
  exists self',
    websocketCloseAll E self = (Ok tt, self') /\
    log self' = log self ++ map ObsClose (dict_keys (websocketContexts self)) /\
    (forall k, dict_get k (websocketContexts self')
               = option_map closed (dict_get k (websocketContexts self))) /\
    websocketDelayedConnections self' = websocketDelayedConnections self.
Proof.
  destruct (close_each E (dict_keys (websocketContexts self)) self)
    as (self' & Hrun & Hlog & Hdel & Hin & Hout).
  { intros k Hk.
    destruct (dict_get k (websocketContexts self)) as [c|] eqn:Hc.
    - exists c. split; [reflexivity|]. now apply (Hconnected k).
    - apply dict_get_None_iff in Hc. contradiction. }
  exists self'. split; [exact Hrun|]. split; [exact Hlog|]. split; [|exact Hdel].
  intros k. destruct (in_dec String.string_dec k (dict_keys (websocketContexts self)))
    as [Hk|Hk]; [now apply Hin|].
  rewrite (Hout k Hk). apply dict_get_None_iff in Hk. now rewrite Hk.
Qed.

Lemma X25_close_all_witness :
  exists self',
    websocketCloseAll (Demo.stream_env (fun _ => AckSuccess)) Samples.all_connected
    = (Ok tt, self') /\
    log self' = log Samples.all_connected
                ++ map ObsClose (dict_keys (websocketContexts Samples.all_connected)) /\
    (forall k, dict_get k (websocketContexts self')
               = option_map closed
                   (dict_get k (websocketContexts Samples.all_connected))) /\
    websocketDelayedConnections self'
    = websocketDelayedConnections Samples.all_connected.
Proof.
  apply (X25_close_all (Demo.stream_env (fun _ => AckSuccess)) Samples.all_connected).
  intros k c. unfold Samples.all_connected. cbn [websocketContexts dict_get].
  destruct (String.eqb "a" k); [intros [= <-]; discriminate|].
  destruct (String.eqb "b" k); [intros [= <-]; discriminate|discriminate].
Defined.

(** X26.  [websocketCloseAll] stops at the first context that has no
    connection yet: it raises [NotSupported] for it, having closed the
    connections before it, and leaves that context and all that come
    after it as they were, their connections open. *)
Theorem X26_close_all_stops (E : env) (self : exchange)
    (pre post : dict context) (k : string) (c : context)
    (Hstore : websocketContexts self = pre ++ (k, c) :: post)
    (Hwf : dict_wf (websocketContexts self))
    (Hpre : Forall (fun entry => info (snd entry) <> None) pre)
    (Hnone : info c = None) :
  exists self',
    websocketCloseAll E self =
      (Raise (NotSupported ("websocket <" +:+ k +:+ "> not found in this exchange: "
                            +:+ exchange_id E)), self') /\
    log self' = log self ++ map ObsClose (dict_keys pre) /\
    (forall k', ~ In k' (dict_keys pre) ->
       dict_get k' (websocketContexts self') = dict_get k' (websocketContexts self)).
Proof.
  assert (Hk : ~ In k (dict_keys pre)).
  { unfold dict_wf in Hwf. rewrite Hstore in Hwf. unfold dict_keys in Hwf.
    rewrite map_app in Hwf. apply NoDup_app in Hwf as (_ & Hdisj & _).
    intros Hin. apply (Hdisj k); [now apply list_elem_of_In|]. simpl. left. }
  destruct (close_each E (dict_keys pre) self)
    as (s1 & Hrun & Hlog & _ & _ & Hout).
  { intros k' Hk'. rewrite Hstore, dict_get_app.
    destruct (dict_get k' pre) as [c'|] eqn:Hc'.
    - exists c'. split; [reflexivity|].
      apply ResolverMore.dict_get_In in Hc'. rewrite Forall_forall in Hpre.
      apply list_elem_of_In in Hc'. exact (Hpre _ Hc').
    - apply dict_get_None_iff in Hc'. contradiction. }
  assert (Hc1 : dict_get k (websocketContexts s1) = Some c).
  { rewrite (Hout k Hk), Hstore, dict_get_app.
    apply dict_get_None_iff in Hk. rewrite Hk. simpl. now rewrite String.eqb_refl. }
  exists s1. split; [|split; [exact Hlog|exact Hout]].
  unfold websocketCloseAll, bind at 1, read. rewrite Hstore.
  unfold dict_keys at 1. rewrite map_app. cbn [map fst].
  rewrite for_each_app. unfold bind at 1. fold (dict_keys pre). rewrite Hrun.
  cbn [for_each]. unfold bind. now rewrite (close_unconnected E k s1 c Hc1 Hnone).
Qed.

Lemma X26_close_all_stops_witness :
  exists self',
    websocketCloseAll (Demo.stream_env (fun _ => AckSuccess)) Samples.one_unconnected
    = (Raise (NotSupported ("websocket <" +:+ "b"
                            +:+ "> not found in this exchange: "
                            +:+ exchange_id (Demo.stream_env (fun _ => AckSuccess)))),
       self') /\
    log self' = log Samples.one_unconnected
                ++ map ObsClose (dict_keys [("a", Samples.connected_context)]) /\
    (forall k', ~ In k' (dict_keys [("a", Samples.connected_context)]) ->
       dict_get k' (websocketContexts self')
       = dict_get k' (websocketContexts Samples.one_unconnected)).
Proof.
  apply (X26_close_all_stops (Demo.stream_env (fun _ => AckSuccess))
           Samples.one_unconnected [("a", Samples.connected_context)]
           [("c", Samples.connected_context)] "b" Samples.unconnected_context).
  - reflexivity.
  - unfold dict_wf. simpl. apply (NoDup_ListNoDup ["a"; "b"; "c"]).
    repeat constructor; simpl; intuition discriminate.
  - repeat constructor. simpl. discriminate.
  - reflexivity.
Defined.

Lemma reset_symbol_context_twice (sc : symbol_context) :
  reset_symbol_context (reset_symbol_context sc) = reset_symbol_context sc.
Proof. reflexivity. Qed.

Lemma reset_events_twice (evs : dict (dict symbol_context)) :
  reset_events (reset_events evs) = reset_events evs.
Proof.
  unfold reset_events. rewrite map_map. apply map_ext. intros [k syms]. simpl.
  f_equal. rewrite map_map. now apply map_ext.
Qed.

Lemma cleaned_cleaned (c : context) : cleaned (cleaned c) = cleaned c.
Proof.
  unfold cleaned. destruct c as [sc tpl evs i]. unfold set_events. simpl.
  now rewrite reset_events_twice.
Qed.

(** Resetting a context that the store holds. *)
Lemma reset_known (k : string) (tpl : option string) (self : exchange) (c : context) :
  dict_get k (websocketContexts self) = Some c ->
  _websocket_reset_context k tpl self =
    (Ok tt, set_contexts (dict_set k (cleaned c) (websocketContexts self)) self).
Proof.
  intros Hc. unfold _websocket_reset_context, dict_mem, update_context.
  now rewrite Hc.
Qed.

Lemma listed_cleaned (self : exchange) (k : string) (c : context) :
  dict_get k (websocketContexts self) = Some (cleaned c) ->
  _websocketContextGetSubscribedEventSymbols self k = Ok [].
Proof.
  intros Hc. unfold _websocketContextGetSubscribedEventSymbols, _contextGetEvents,
    dict_item. rewrite Hc. simpl. now rewrite StoreMore.reset_events_listed.
Qed.

(** Resetting the contexts of a list of ids that the store holds. *)
Lemma reset_each (ks : list string) :
  forall self,
    (forall k, In k ks -> dict_get k (websocketContexts self) <> None) ->
    exists self',
      for_each ks (fun k => _websocket_reset_context k None) self = (Ok tt, self') /\
      log self' = log self /\
      websocketDelayedConnections self' = websocketDelayedConnections self /\
      (forall k, In k ks ->
         dict_get k (websocketContexts self')
         = option_map cleaned (dict_get k (websocketContexts self))) /\
      (forall k, ~ In k ks ->
         dict_get k (websocketContexts self') = dict_get k (websocketContexts self)).
Proof.
  induction ks as [|k0 ks IH]; intros self Hall.
  - exists self. simpl. unfold ret. repeat split; tauto.
  - destruct (dict_get k0 (websocketContexts self)) as [c0|] eqn:Hc0;
      [|exfalso; apply (Hall k0 (or_introl eq_refl)); exact Hc0].
    set (s1 := set_contexts (dict_set k0 (cleaned c0) (websocketContexts self)) self).
    assert (Hget1 : forall k, dict_get k (websocketContexts s1) =
                              if String.eqb k0 k then Some (cleaned c0)
                              else dict_get k (websocketContexts self)).
    { intros k. unfold s1. cbn [websocketContexts set_contexts].
      destruct (String.eqb_spec k0 k) as [->|Hne].
      - apply dict_get_set_eq.
      - now apply dict_get_set_ne. }
    destruct (IH s1) as (s2 & Hrun & Hl2 & Hd2 & Hin2 & Hout2).
    { intros k Hk. rewrite Hget1. destruct (String.eqb_spec k0 k) as [->|Hne].
      - discriminate.
      - apply Hall. now right. }
    exists s2. split; [|split; [|split; [|split]]].
    + cbn [for_each]. unfold bind. rewrite (reset_known k0 None self c0 Hc0).
      exact Hrun.
    + rewrite Hl2. reflexivity.
    + rewrite Hd2. reflexivity.
    + intros k Hk. destruct (in_dec String.string_dec k ks) as [Hin|Hnot].
      * rewrite (Hin2 k Hin), Hget1. destruct (String.eqb_spec k0 k) as [->|Hne].
        -- rewrite Hc0. simpl. now rewrite cleaned_cleaned.
        -- reflexivity.
      * rewrite (Hout2 k Hnot), Hget1. destruct Hk as [->|Hk]; [|contradiction].
        rewrite String.eqb_refl. now rewrite Hc0.
    + intros k Hk. simpl in Hk. rewrite Hout2 by tauto. rewrite Hget1.
      destruct (String.eqb_spec k0 k) as [->|Hne]; [tauto|reflexivity].
Qed.

(** X29.  [websocketCleanContext()] with no connection id resets every
    symbol of every context and returns normally: afterwards no connection
    lists a subscribed or subscribing symbol, while the connections
    themselves, their templates and their scratch data are as before and
    nothing is closed.  With the id of a connection that the store does not
    hold, it creates an empty context that has no template. *)
Theorem X29_clean_context (self : exchange) :
  (exists self',
      websocketCleanContext None self = (Ok tt, self') /\
      log self' = log self /\
      websocketDelayedConnections self' = websocketDelayedConnections self /\
      (forall k, dict_get k (websocketContexts self')
                 = option_map cleaned (dict_get k (websocketContexts self))) /\
      (forall k, dict_mem k (websocketContexts self) = true ->
                 _websocketContextGetSubscribedEventSymbols self' k = Ok [])) /\
  (forall k, dict_get k (websocketContexts self) = None ->
     websocketCleanContext (Some k) self =
       (Ok tt,
        set_contexts
          (dict_set k {| scratch := []; conx_tpl := None; events := []; info := None |}
             (websocketContexts self)) self)).
Proof.
  split.
  - destruct (reset_each (dict_keys (websocketContexts self)) self)
      as (self' & Hrun & Hlog & Hdel & Hin & Hout).
    { intros k Hk Hnone. apply dict_get_None_iff in Hnone. contradiction. }
    assert (Hall : forall k, dict_get k (websocketContexts self')
                             = option_map cleaned (dict_get k (websocketContexts self))).
    { intros k. destruct (in_dec String.string_dec k (dict_keys (websocketContexts self)))
        as [Hk|Hk]; [now apply Hin|].
      rewrite (Hout k Hk). apply dict_get_None_iff in Hk. now rewrite Hk. }
    exists self'. split; [exact Hrun|]. split; [exact Hlog|]. split; [exact Hdel|].
    split; [exact Hall|].
    intros k Hk. unfold dict_mem in Hk.
    destruct (dict_get k (websocketContexts self)) as [c|] eqn:Hc; [|discriminate].
    apply (listed_cleaned self' k c). rewrite Hall, Hc. reflexivity.
  - intros k Hnone. unfold websocketCleanContext, _websocket_reset_context, dict_mem.
    now rewrite Hnone.
Qed.

Lemma dict_set_get_other {V} (k k' : string) (v : V) (d : dict V) :
  k' <> k -> dict_get k' (dict_set k v d) = dict_get k' d.
Proof. intros Hne. apply dict_get_set_ne. congruence. Qed.

(** X30.  [websocketRecoverConxid] on a connection that the store does not
    hold raises [KeyError] when it has to list the subscriptions itself,
    and on a context that has no connection yet it raises [NotSupported];
    in both cases the store is left as it is: nothing is reset and nothing
    is subscribed again.  On a context with a connection it closes the
    connection, resets the context, so that its list of subscriptions is
    empty, and then subscribes the batch: the given one, or the pairs the
    context listed before the reset, with their parameters. *)
Theorem X30_recover (E : env) (conxid : string) (self : exchange) :
  (dict_get conxid (websocketContexts self) = None ->
   websocketRecoverConxid E conxid None self = (Raise (KeyError conxid), self)) /\
  (forall c eventSymbols,
      dict_get conxid (websocketContexts self) = Some c -> info c = None ->
      websocketRecoverConxid E conxid eventSymbols self =
        (Raise (NotSupported ("websocket <" +:+ conxid
                              +:+ "> not found in this exchange: "
                              +:+ exchange_id E)), self)) /\
  (forall c eventSymbols,
      dict_get conxid (websocketContexts self) = Some c -> info c <> None ->
      exists s1,
        websocketRecoverConxid E conxid eventSymbols self =
          websocket_subscribe_all E
            (default
               (flat_map (fun entry => subscribed_symbols (fst entry) (snd entry))
                  (events c))
               eventSymbols) s1 /\
        log s1 = log self ++ [ObsClose conxid] /\
        dict_get conxid (websocketContexts s1) = Some (cleaned (closed c)) /\
        _websocketContextGetSubscribedEventSymbols s1 conxid = Ok [] /\
        (forall k, k <> conxid ->
           dict_get k (websocketContexts s1) = dict_get k (websocketContexts self)) /\
        websocketDelayedConnections s1 = websocketDelayedConnections self).
Proof.
  split; [|split].
  - intros Hnone. unfold websocketRecoverConxid, bind, read,
      _websocketContextGetSubscribedEventSymbols, _contextGetEvents, dict_item.
    now rewrite Hnone.
  - intros c eventSymbols Hc Hi. unfold websocketRecoverConxid.
    assert (Hbatch : exists batch,
               match eventSymbols with
               | None => read (fun self =>
                           _websocketContextGetSubscribedEventSymbols self conxid)
               | Some eventSymbols => ret eventSymbols
               end self = (Ok batch, self)).
    { destruct eventSymbols as [l|]; [exists l; reflexivity|].
      unfold read, _websocketContextGetSubscribedEventSymbols, _contextGetEvents,
        dict_item. rewrite Hc. simpl. eauto. }
    destruct Hbatch as (batch & Hbatch).
    unfold bind at 1. rewrite Hbatch. unfold bind at 1.
    now rewrite (close_unconnected E conxid self c Hc Hi).
  - intros c eventSymbols Hc Hi.
    set (s0 := set_contexts (dict_set conxid (closed c) (websocketContexts self))
                 (add_log (ObsClose conxid) self)).
    assert (Hc0 : dict_get conxid (websocketContexts s0) = Some (closed c)).
    { unfold s0. cbn [websocketContexts set_contexts]. apply dict_get_set_eq. }
    set (s1 := set_contexts (dict_set conxid (cleaned (closed c))
                               (websocketContexts s0)) s0).
    assert (Hc1 : dict_get conxid (websocketContexts s1) = Some (cleaned (closed c))).
    { unfold s1. cbn [websocketContexts set_contexts]. apply dict_get_set_eq. }
    exists s1. split; [|split; [|split; [|split; [|split]]]].
    + unfold websocketRecoverConxid.
      assert (Hbatch :
                match eventSymbols with
                | None => read (fun self =>
                            _websocketContextGetSubscribedEventSymbols self conxid)
                | Some eventSymbols => ret eventSymbols
                end self =
                (Ok (default
                       (flat_map (fun entry => subscribed_symbols (fst entry) (snd entry))
                          (events c))
                       eventSymbols), self)).
      { destruct eventSymbols as [l|]; [reflexivity|].
        unfold read, _websocketContextGetSubscribedEventSymbols, _contextGetEvents,
          dict_item. now rewrite Hc. }
      unfold bind at 1. rewrite Hbatch. unfold bind at 1.
      rewrite (close_known E conxid self c Hc Hi). fold s0.
      unfold bind at 1. rewrite (reset_known conxid None s0 (closed c) Hc0).
      reflexivity.
    + reflexivity.
    + exact Hc1.
    + exact (listed_cleaned s1 conxid (closed c) Hc1).
    + intros k Hne. unfold s1, s0. cbn [websocketContexts set_contexts].
      rewrite !dict_set_get_other by exact Hne. reflexivity.
    + reflexivity.
Qed.

End LifecycleMore.

(** ** Price levels as shared objects *)

Module ObjectsFacts.
Import Py OrderBook Snapshot.
Local Open Scope Z_scope.

Lemma search_view (h : Objects.heap) (value : Z) (side : list Objects.ref)
    (key : level -> Z) (descending : bool) :
  Objects.searchIndexToInsertOrUpdate h value side key descending =
  searchIndexToInsertOrUpdate value (Objects.view h side) key descending.
Proof.
  induction side as [|x side IH]; simpl; [reflexivity|].
  destruct (compare _ _ _ >=? 0); [reflexivity|]. now rewrite IH.
Qed.

Lemma view_lookup (h : Objects.heap) (side : list Objects.ref) (i : nat) :
  Objects.view h side !! i = option_map (Objects.deref h) (side !! i).
Proof. unfold Objects.view. apply list_lookup_fmap. Qed.

Lemma view_insert_at (h : Objects.heap) (side : list Objects.ref) (i : nat)
    (r : Objects.ref) :
  Objects.view h (list_insert_at i r side) =
  list_insert_at i (Objects.deref h r) (Objects.view h side).
Proof.
  unfold Objects.view, list_insert_at.
  rewrite map_app. simpl. f_equal; [apply fmap_take|]. f_equal. apply fmap_drop.
Qed.

Lemma deref_insert_eq (h : Objects.heap) (r : Objects.ref) (lv : level) :
  (r < length h)%nat -> Objects.deref (<[r := lv]> h) r = lv.
Proof.
  intros Hr. unfold Objects.deref, Objects.heap in *.
  now rewrite list_lookup_insert_eq.
Qed.

Lemma deref_insert_ne (h : Objects.heap) (r r' : Objects.ref) (lv : level) :
  r <> r' -> Objects.deref (<[r := lv]> h) r' = Objects.deref h r'.
Proof.
  intros Hne. unfold Objects.deref, Objects.heap in *.
  now rewrite list_lookup_insert_ne.
Qed.

(** Writing into the object at one position of a list without repeated
    references changes the view at that position only. *)
Lemma view_write (h : Objects.heap) (side : list Objects.ref) (i : nat)
    (r : Objects.ref) (lv : level) :
  Objects.valid h side -> NoDup side -> side !! i = Some r ->
  Objects.view (<[r := lv]> h) side = <[i := lv]> (Objects.view h side).
Proof.
  intros Hvalid Hnodup Hi. apply list_eq. intros j.
  rewrite view_lookup. destruct (decide (i = j)) as [<-|Hne].
  - rewrite list_lookup_insert_eq.
    + rewrite Hi. simpl. f_equal. apply deref_insert_eq.
      unfold Objects.valid in Hvalid. rewrite Forall_forall in Hvalid.
      apply Hvalid. eapply list_elem_of_lookup_2. exact Hi.
    + unfold Objects.view. rewrite length_map. eapply lookup_lt_Some. exact Hi.
  - rewrite list_lookup_insert_ne by exact Hne. rewrite view_lookup.
    destruct (side !! j) as [r'|] eqn:Hj; [|reflexivity]. simpl. f_equal.
    apply deref_insert_ne. intros ->. apply Hne.
    eapply NoDup_lookup; eassumption.
Qed.

Lemma view_slice (h : Objects.heap) (limit : option Z) (side : list Objects.ref) :
  Objects.view h (Objects.clone_side limit side) =
  Objects.slice limit (Objects.view h side).
Proof.
  destruct limit as [limit|]; [|reflexivity].
  unfold Objects.clone_side, Objects.slice, slice_to, Objects.view.
  rewrite length_map. destruct (0 <=? limit); apply fmap_take.
Qed.

(** X27.  The list-of-values model of the two update functions agrees
    with the source's lists of references to level objects: what a holder
    of the side sees after [updateBidAsk] is the result of the value-level
    function on what it saw before, and so it is after [updateBidAskDiff]
    when no level object occurs twice in the side. *)
Theorem X27_values_agree_with_objects (h : Objects.heap) (bidAsk : Objects.ref)
    (side : list Objects.ref) (bids : bool) :
  Objects.view h (Objects.updateBidAsk h bidAsk side bids) =
    updateBidAsk (Objects.deref h bidAsk) (Objects.view h side) bids /\
  (Objects.valid h side -> NoDup side ->
   Objects.view (snd (Objects.updateBidAskDiff h bidAsk side bids))
     (fst (Objects.updateBidAskDiff h bidAsk side bids)) =
   updateBidAskDiff (Objects.deref h bidAsk) (Objects.view h side) bids).
Proof.
  split.
  - unfold Objects.updateBidAsk, updateBidAsk, found_at.
    rewrite search_view, view_lookup.
    set (index := searchIndexToInsertOrUpdate _ _ _ _).
    destruct (side !! index) as [r|]; simpl.
    + destruct (price (Objects.deref h r) =? price (Objects.deref h bidAsk)).
      * destruct (amount (Objects.deref h bidAsk) =? 0).
        -- apply list_fmap_delete.
        -- apply list_fmap_insert.
      * destruct (amount (Objects.deref h bidAsk) =? 0); simpl;
          [reflexivity|apply view_insert_at].
    + destruct (amount (Objects.deref h bidAsk) =? 0); simpl;
        [reflexivity|apply view_insert_at].
  - intros Hvalid Hnodup.
    unfold Objects.updateBidAskDiff, updateBidAskDiff.
    rewrite search_view, view_lookup.
    set (index := searchIndexToInsertOrUpdate _ _ _ _).
    destruct (side !! index) as [r|] eqn:Hr; simpl.
    + destruct (price (Objects.deref h r) =? price (Objects.deref h bidAsk)).
      * destruct (amount (Objects.deref h r) + amount (Objects.deref h bidAsk) =? 0);
          simpl.
        -- apply list_fmap_delete.
        -- now apply view_write.
      * destruct (amount (Objects.deref h bidAsk) =? 0); simpl;
          [reflexivity|apply view_insert_at].
    + destruct (amount (Objects.deref h bidAsk) =? 0); simpl;
        [reflexivity|apply view_insert_at].
Qed.

Lemma X27_values_agree_with_objects_witness :
  Objects.view [(100, 5); (101, 7); (100, 2)] (Objects.updateBidAsk
     [(100, 5); (101, 7); (100, 2)] 2%nat [0%nat; 1%nat] false) =
    updateBidAsk (Objects.deref [(100, 5); (101, 7); (100, 2)] 2%nat)
      (Objects.view [(100, 5); (101, 7); (100, 2)] [0%nat; 1%nat]) false /\
  (Objects.valid [(100, 5); (101, 7); (100, 2)] [0%nat; 1%nat] ->
   NoDup [0%nat; 1%nat] ->
   Objects.view
     (snd (Objects.updateBidAskDiff [(100, 5); (101, 7); (100, 2)] 2%nat
             [0%nat; 1%nat] false))
     (fst (Objects.updateBidAskDiff [(100, 5); (101, 7); (100, 2)] 2%nat
             [0%nat; 1%nat] false)) =
   updateBidAskDiff (Objects.deref [(100, 5); (101, 7); (100, 2)] 2%nat)
     (Objects.view [(100, 5); (101, 7); (100, 2)] [0%nat; 1%nat]) false).
Proof.
  exact (X27_values_agree_with_objects [(100, 5); (101, 7); (100, 2)] 2%nat
           [0%nat; 1%nat] false).
Defined.

(** X28.  A clone of a side shares its level objects with the book.  When
    [updateBidAskDiff] finds the price of the delta on the side and the
    new amount is not zero, it writes the amount into the found object and
    leaves the list as it is: a clone taken before the call shows exactly
    what a clone taken after it shows, so the change is seen through every
    earlier clone that reaches the level. *)
Theorem X28_diff_shows_through_clones (h : Objects.heap) (bidAsk r : Objects.ref)
    (side : list Objects.ref) (bids : bool) (limit : option Z)
    (Hvalid : Objects.valid h side) (Hnodup : NoDup side)
    (Hfound : side !! Objects.searchIndexToInsertOrUpdate h
                        (price (Objects.deref h bidAsk)) side price bids = Some r)
    (Hprice : price (Objects.deref h r) = price (Objects.deref h bidAsk))
    (Hnext : amount (Objects.deref h r) + amount (Objects.deref h bidAsk) <> 0) :
  exists h',
    Objects.updateBidAskDiff h bidAsk side bids = (side, h') /\
    Objects.deref h' r =
      (price (Objects.deref h r),
       amount (Objects.deref h r) + amount (Objects.deref h bidAsk)) /\
    Objects.view h' (Objects.clone_side limit side) =
      Objects.slice limit
        (updateBidAskDiff (Objects.deref h bidAsk) (Objects.view h side) bids).
Proof.
  set (next := amount (Objects.deref h r) + amount (Objects.deref h bidAsk)) in *.
  assert (Hrun : Objects.updateBidAskDiff h bidAsk side bids =
                 (side, <[r := (price (Objects.deref h r), next)]> h)).
  { unfold Objects.updateBidAskDiff. rewrite Hfound.
    apply Z.eqb_eq in Hprice. rewrite Hprice.
    apply Z.eqb_neq in Hnext. fold next. now rewrite Hnext. }
  eexists. split; [exact Hrun|]. split.
  - apply deref_insert_eq. unfold Objects.valid in Hvalid.
    rewrite Forall_forall in Hvalid. apply Hvalid.
    eapply list_elem_of_lookup_2. exact Hfound.
  - rewrite view_slice. f_equal.
    rewrite (view_write h side _ r _ Hvalid Hnodup Hfound).
    unfold updateBidAskDiff. rewrite <- search_view, view_lookup, Hfound. simpl.
    apply Z.eqb_eq in Hprice. rewrite Hprice.
    apply Z.eqb_neq in Hnext. fold next. now rewrite Hnext.
Qed.

Lemma X28_diff_shows_through_clones_witness :
  exists h',
    Objects.updateBidAskDiff [(100, 5); (101, 7); (101, 2)] 2%nat [0%nat; 1%nat] false
    = ([0%nat; 1%nat], h') /\
    Objects.deref h' 1%nat =
      (price (Objects.deref [(100, 5); (101, 7); (101, 2)] 1%nat),
       amount (Objects.deref [(100, 5); (101, 7); (101, 2)] 1%nat)
       + amount (Objects.deref [(100, 5); (101, 7); (101, 2)] 2%nat)) /\
    Objects.view h' (Objects.clone_side None [0%nat; 1%nat]) =
      Objects.slice None
        (updateBidAskDiff (Objects.deref [(100, 5); (101, 7); (101, 2)] 2%nat)
           (Objects.view [(100, 5); (101, 7); (101, 2)] [0%nat; 1%nat]) false).
Proof.
  apply (X28_diff_shows_through_clones [(100, 5); (101, 7); (101, 2)] 2%nat 1%nat
           [0%nat; 1%nat] false None).
  - repeat constructor; simpl; lia.
  - apply (NoDup_ListNoDup [0%nat; 1%nat]).
    repeat constructor; simpl; intuition discriminate.
  - reflexivity.
  - reflexivity.
  - simpl. lia.
Defined.

End ObjectsFacts.

(** ** Ints and floats are numbers *)

Module NumbersFacts.
Import Numbers.
Local Open Scope Z_scope.

#[export] Instance int_laws : NumberLaws Z.
Proof.
  split; unfold is_number; simpl.
  - intros a b c. rewrite !Z.ltb_lt. lia.
  - intros a b. rewrite Z.ltb_lt, Z.ltb_ge. lia.
  - intros a b. apply Z.eqb_sym.
  - intros a b c Heq. apply Z.eqb_eq in Heq. now subst.
  - intros a b c Heq. apply Z.eqb_eq in Heq. now subst.
  - intros a b _ _. rewrite !Z.ltb_lt, Z.eqb_eq. lia.
Qed.

(** [<] and [==] on floats, through the keys. *)
Lemma SFcompare_key (a b : spec_float) :
  match SFcompare a b with
  | None => float_key a = None \/ float_key b = None
  | Some c =>
      exists ka kb, float_key a = Some ka /\ float_key b = Some kb /\
        match c with
        | Lt => key_lt ka kb
        | Eq => ka = kb
        | Gt => key_lt kb ka
        end
  end.
Proof.
  destruct a as [sa|sa| |sa ma ea], b as [sb|sb| |sb mb eb]; simpl; auto;
    try (destruct sa); try (destruct sb); simpl;
    try (eexists _, _; split; [reflexivity|]; split; [reflexivity|];
         unfold key_lt; simpl; first [reflexivity | lia]).
  - change (Pos.compare_cont Eq ma mb) with (Pos.compare ma mb).
    eexists _, _. split; [reflexivity|]. split; [reflexivity|].
    destruct (Z.compare_spec ea eb); simpl;
      [destruct (Pos.compare_spec ma mb); simpl| |];
      unfold key_lt; simpl; first [f_equal; lia | lia | subst; reflexivity].
  - change (Pos.compare_cont Eq ma mb) with (Pos.compare ma mb).
    eexists _, _. split; [reflexivity|]. split; [reflexivity|].
    destruct (Z.compare_spec ea eb); simpl;
      [destruct (Pos.compare_spec ma mb); simpl| |];
      unfold key_lt; simpl; first [f_equal; lia | lia | subst; reflexivity].
Qed.

Lemma SFltb_key (a b : spec_float) :
  SFltb a b = true <->
  exists ka kb, float_key a = Some ka /\ float_key b = Some kb /\ key_lt ka kb.
Proof.
  unfold SFltb. pose proof (SFcompare_key a b) as Hk.
  destruct (SFcompare a b) as [[| |]|].
  - destruct Hk as (ka & kb & Ha & Hb & ->). split; [discriminate|].
    intros (ka' & kb' & Ha' & Hb' & Hlt). rewrite Ha in Ha'. rewrite Hb in Hb'.
    injection Ha' as <-. injection Hb' as <-. unfold key_lt in Hlt. lia.
  - split; [intros _; exact Hk|reflexivity].
  - destruct Hk as (ka & kb & Ha & Hb & Hgt). split; [discriminate|].
    intros (ka' & kb' & Ha' & Hb' & Hlt). rewrite Ha in Ha'. rewrite Hb in Hb'.
    injection Ha' as <-. injection Hb' as <-. unfold key_lt in *. lia.
  - split; [discriminate|]. intros (ka & kb & Ha & Hb & _).
    destruct Hk as [Hk|Hk]; congruence.
Qed.

Lemma SFeqb_key (a b : spec_float) :
  SFeqb a b = true <-> exists k, float_key a = Some k /\ float_key b = Some k.
Proof.
  unfold SFeqb. pose proof (SFcompare_key a b) as Hk.
  destruct (SFcompare a b) as [[| |]|].
  - destruct Hk as (ka & kb & Ha & Hb & ->). split; [eauto|reflexivity].
  - destruct Hk as (ka & kb & Ha & Hb & Hlt). split; [discriminate|].
    intros (k & Ha' & Hb'). rewrite Ha in Ha'. rewrite Hb in Hb'.
    injection Ha' as <-. injection Hb' as <-. unfold key_lt in Hlt. lia.
  - destruct Hk as (ka & kb & Ha & Hb & Hlt). split; [discriminate|].
    intros (k & Ha' & Hb'). rewrite Ha in Ha'. rewrite Hb in Hb'.
    injection Ha' as <-. injection Hb' as <-. unfold key_lt in Hlt. lia.
  - split; [discriminate|]. intros (k & Ha & Hb).
    destruct Hk as [Hk|Hk]; congruence.
Qed.

Lemma key_lt_cases (ka kb : Z * Z * Z) : key_lt ka kb \/ ka = kb \/ key_lt kb ka.
Proof.
  destruct ka as [[a1 a2] a3], kb as [[b1 b2] b3]. unfold key_lt. simpl.
  destruct (Z.lt_total a1 b1) as [?|[?|?]]; [lia| |lia].
  destruct (Z.lt_total a2 b2) as [?|[?|?]]; [lia| |lia].
  destruct (Z.lt_total a3 b3) as [?|[?|?]]; [lia| |lia].
  right. left. subst. reflexivity.
Qed.

#[export] Instance float_laws : NumberLaws spec_float.
Proof.
  split; unfold is_number; simpl.
  - intros a b c Hab Hbc. apply SFltb_key in Hab as (ka & kb & Ha & Hb & Hab).
    apply SFltb_key in Hbc as (kb' & kc & Hb' & Hc & Hbc).
    rewrite Hb in Hb'. injection Hb' as <-.
    apply SFltb_key. exists ka, kc. repeat split; auto. unfold key_lt in *. lia.
  - intros a b Hab. apply SFltb_key in Hab as (ka & kb & Ha & Hb & Hab).
    apply Bool.not_true_is_false. intros Hba.
    apply SFltb_key in Hba as (kb' & ka' & Hb' & Ha' & Hba).
    rewrite Ha in Ha'. rewrite Hb in Hb'. injection Ha' as <-. injection Hb' as <-.
    unfold key_lt in *. lia.
  - intros a b. apply Bool.eq_iff_eq_true. rewrite !SFeqb_key.
    split; intros (k & H1 & H2); eauto.
  - intros a b c Heq. apply SFeqb_key in Heq as (k & Ha & Hb).
    apply Bool.eq_iff_eq_true. rewrite !SFltb_key.
    split; intros (k1 & k2 & H1 & H2 & Hlt); exists k, k2;
      (split; [assumption|]); (split; [assumption|]); congruence.
  - intros a b c Heq. apply SFeqb_key in Heq as (k & Ha & Hb).
    apply Bool.eq_iff_eq_true. rewrite !SFltb_key.
    split; intros (k1 & k2 & H1 & H2 & Hlt); exists k1, k;
      (split; [assumption|]); (split; [assumption|]); congruence.
  - intros a b Ha Hb. apply SFeqb_key in Ha as (ka & Ha & _).
    apply SFeqb_key in Hb as (kb & Hb & _).
    rewrite !SFltb_key, SFeqb_key.
    destruct (key_lt_cases ka kb) as [Hlt|[->|Hgt]].
    + left. eauto.
    + right. left. eauto.
    + right. right. eauto.
Qed.

End NumbersFacts.

(** ** The order book over any numbers *)

Module BookFacts.
Import Numbers Book NumbersFacts.
Local Open Scope Z_scope.

Section Laws.

Context {T : Type} `{Number T} `{!NumberLaws T}.

Lemma lt_irrefl (a : T) : num_lt a a = false.
Proof.
  destruct (num_lt a a) eqn:Hlt; [|reflexivity].
  pose proof (lt_asym a a Hlt). congruence.
Qed.

Lemma eq_not_lt (a b : T) : num_eq a b = true -> num_lt a b = false /\ num_lt b a = false.
Proof.
  intros Heq. split.
  - rewrite (lt_eq_l a b b Heq). apply lt_irrefl.
  - rewrite (lt_eq_r a b b Heq). apply lt_irrefl.
Qed.

Lemma num_before_trans (bids : bool) (a b c : T) :
  before bids a b = true -> before bids b c = true -> before bids a c = true.
Proof.
  destruct bids; unfold before, num_gt; intros Hab Hbc.
  - exact (lt_trans c b a Hbc Hab).
  - exact (lt_trans a b c Hab Hbc).
Qed.

Lemma before_asym (bids : bool) (a b : T) :
  before bids a b = true -> before bids b a = false.
Proof. destruct bids; unfold before, num_gt; apply lt_asym. Qed.

Lemma num_before_irrefl (bids : bool) (a : T) : before bids a a = false.
Proof. destruct bids; unfold before, num_gt; apply lt_irrefl. Qed.

Lemma before_not_eq (bids : bool) (a b : T) :
  before bids a b = true -> num_eq a b = false /\ num_eq b a = false.
Proof.
  intros Hb. rewrite (eq_sym b a). destruct (num_eq a b) eqn:Heq; [|auto].
  destruct (eq_not_lt a b Heq) as [H1 H2].
  destruct bids; unfold before, num_gt in Hb; congruence.
Qed.

(** Two numbers that are not NaN and not [==] are ordered one way or the
    other. *)
Lemma before_total (bids : bool) (a b : T) :
  is_number a = true -> is_number b = true ->
  before bids a b = false -> num_eq a b = false -> before bids b a = true.
Proof.
  intros Ha Hb Hn He. destruct (lt_total a b Ha Hb) as [Hlt|[Heq|Hgt]];
    [|congruence|]; destruct bids; unfold before, num_gt in *; congruence.
Qed.

Lemma before_eq_l (bids : bool) (a b c : T) :
  num_eq a b = true -> before bids a c = before bids b c.
Proof.
  intros Heq. destruct bids; unfold before, num_gt.
  - now apply lt_eq_r.
  - now apply lt_eq_l.
Qed.

(** The search stops at the first level that is not strictly before the
    searched price. *)
Lemma num_compare_stop (bids : bool) (a v : T) :
  (compare (if bids then -1 else 1) a v >=? 0) = negb (before bids a v).
Proof.
  unfold compare, before, num_gt. destruct bids.
  - destruct (num_lt a v) eqn:Hav.
    + now rewrite (lt_asym a v Hav).
    + now destruct (num_lt v a).
  - now destruct (num_lt a v); [|destruct (num_lt v a)].
Qed.

Lemma num_search_app (bids : bool) (v : T) (l1 l2 : list (level T)) :
  Forall (fun y => before bids (price y) v = true) l1 ->
  stops bids v l2 ->
  searchIndexToInsertOrUpdate v (l1 ++ l2) price bids = length l1.
Proof.
  intros Hl1 Hl2. induction Hl1 as [|y l1 Hy _ IH]; simpl.
  - destruct l2 as [|x r]; [reflexivity|]. simpl in *.
    now rewrite num_compare_stop, Hl2.
  - rewrite num_compare_stop, Hy. simpl. now rewrite IH.
Qed.

(** Every side splits at the position the search returns. *)
Lemma num_side_split (bids : bool) (v : T) (l : list (level T)) :
  exists l1 l2 : list (level T), l = l1 ++ l2 /\
    Forall (fun y => before bids (price y) v = true) l1 /\ stops bids v l2.
Proof.
  induction l as [|x l (l1 & l2 & -> & H1 & H2)].
  - exists [], []. simpl. auto.
  - destruct (before bids (price x) v) eqn:Hb.
    + exists (x :: l1), l2. repeat split; auto.
    + exists [], (x :: l1 ++ l2). simpl. repeat split; auto.
Qed.

Lemma num_updateBidAsk_split (bids : bool) (d : level T) (l1 l2 : list (level T)) :
  Forall (fun y => before bids (price y) (price d) = true) l1 ->
  stops bids (price d) l2 ->
  updateBidAsk d (l1 ++ l2) bids = l1 ++ place d l2.
Proof.
  intros H1 H2. unfold updateBidAsk, found_at, num_ne.
  rewrite (num_search_app bids (price d) l1 l2 H1 H2).
  destruct l2 as [|x r]; simpl.
  - rewrite app_nil_r. rewrite lookup_ge_None_2 by lia.
    destruct (num_eq (amount d) num_zero); simpl; [now rewrite app_nil_r|].
    rewrite <- (app_nil_r l1) at 2. rewrite OrderBookFacts.insert_at_split.
    reflexivity.
  - rewrite list_lookup_middle by reflexivity.
    destruct (num_eq (price x) (price d));
      destruct (num_eq (amount d) num_zero); simpl.
    + apply delete_middle.
    + apply OrderBookFacts.insert_middle.
    + reflexivity.
    + apply OrderBookFacts.insert_at_split.
Qed.

Lemma num_updateBidAskDiff_split (bids : bool) (d : level T) (l1 l2 : list (level T)) :
  Forall (fun y => before bids (price y) (price d) = true) l1 ->
  stops bids (price d) l2 ->
  updateBidAskDiff d (l1 ++ l2) bids = l1 ++ place_diff d l2.
Proof.
  intros H1 H2. unfold updateBidAskDiff, num_ne.
  rewrite (num_search_app bids (price d) l1 l2 H1 H2).
  destruct l2 as [|x r]; simpl.
  - rewrite app_nil_r. rewrite lookup_ge_None_2 by lia.
    destruct (num_eq (amount d) num_zero); simpl; [now rewrite app_nil_r|].
    rewrite <- (app_nil_r l1) at 2. rewrite OrderBookFacts.insert_at_split.
    reflexivity.
  - rewrite list_lookup_middle by reflexivity.
    destruct (num_eq (price x) (price d)).
    + destruct (num_eq (num_add (amount x) (amount d)) num_zero).
      * apply delete_middle.
      * apply OrderBookFacts.insert_middle.
    + destruct (num_eq (amount d) num_zero); simpl;
        [reflexivity|apply OrderBookFacts.insert_at_split].
Qed.

(** *** Sorted sides *)

#[local] Instance num_level_before_trans (bids : bool) :
  Transitive (level_before (T := T) bids).
Proof. intros x y z. unfold level_before. apply num_before_trans. Qed.

Lemma num_sorted_strongly (bids : bool) (l : list (level T)) :
  Sorted (level_before bids) l <-> StronglySorted (level_before bids) l.
Proof.
  split.
  - apply Sorted_StronglySorted. apply num_level_before_trans.
  - apply StronglySorted_Sorted.
Qed.

Lemma strongly_sorted_distinct (bids : bool) (l : list (level T)) :
  StronglySorted (level_before bids) l -> distinct_prices l.
Proof.
  unfold distinct_prices. induction 1 as [|x l _ IH Hx]; constructor; [|exact IH].
  eapply Forall_impl; [exact Hx|]. intros y Hy.
  exact (proj1 (before_not_eq bids _ _ Hy)).
Qed.

Lemma num_side_ok_iff (bids : bool) (side : list (level T)) :
  side_ok bids side <->
  StronglySorted (level_before bids) side /\ no_zero_amount side.
Proof.
  unfold side_ok. rewrite num_sorted_strongly. split.
  - intros (Hs & _ & Hz). auto.
  - intros (Hs & Hz). repeat split; auto. now apply strongly_sorted_distinct in Hs.
Qed.

(** *** What the two functions leave from the stop position on *)

Lemma place_elem (d : level T) (l2 : list (level T)) (y : level T) :
  y ∈ place d l2 -> (y = d /\ num_eq (amount d) num_zero = false) \/ y ∈ l2.
Proof.
  unfold place. destruct l2 as [|x r].
  - destruct (num_eq (amount d) num_zero); intros Hy.
    + now apply elem_of_nil in Hy.
    + apply list_elem_of_singleton in Hy. auto.
  - destruct (num_eq (price x) (price d)); destruct (num_eq (amount d) num_zero);
      rewrite ?elem_of_cons; intuition auto.
Qed.

Lemma place_diff_elem (d : level T) (l2 : list (level T)) (y : level T) :
  y ∈ place_diff d l2 ->
  (y = d /\ num_eq (amount d) num_zero = false) \/ y ∈ l2 \/
  (exists x, x ∈ l2 /\ price y = price x /\ num_eq (amount y) num_zero = false).
Proof.
  unfold place_diff. destruct l2 as [|x r].
  - destruct (num_eq (amount d) num_zero); intros Hy.
    + now apply elem_of_nil in Hy.
    + apply list_elem_of_singleton in Hy. auto.
  - destruct (num_eq (price x) (price d)).
    + destruct (num_eq (num_add (amount x) (amount d)) num_zero) eqn:Hz;
        rewrite ?elem_of_cons.
      * intuition auto.
      * intros [->|Hy]; [|intuition auto].
        right. right. exists x. rewrite elem_of_cons. auto.
    + destruct (num_eq (amount d) num_zero); rewrite ?elem_of_cons; intuition auto.
Qed.

(** After the stop position of a price that is not NaN, on a sorted side
    without NaN prices: either the head has the price, or the price comes
    strictly before the head. *)
Lemma stop_head (bids : bool) (v : T) (x : level T) :
  is_number v = true -> is_number (price x) = true ->
  before bids (price x) v = false ->
  num_eq (price x) v = false -> before bids v (price x) = true.
Proof. intros Hv Hx Hb He. now apply before_total. Qed.

Lemma place_sorted (bids : bool) (d : level T) (l2 : list (level T)) :
  is_number (price d) = true -> no_nan_price l2 ->
  StronglySorted (level_before bids) l2 ->
  stops bids (price d) l2 ->
  StronglySorted (level_before bids) (place d l2).
Proof.
  intros Hd Hn Hs Hstop. unfold place. destruct l2 as [|x r].
  - destruct (num_eq (amount d) num_zero); repeat constructor.
  - simpl in Hstop. pose proof (StronglySorted_inv Hs) as [Hr Hx].
    apply Forall_cons in Hn as [Hnx _].
    destruct (num_eq (price x) (price d)) eqn:Heq;
      destruct (num_eq (amount d) num_zero); auto.
    + constructor; auto. eapply Forall_impl; [exact Hx|].
      intros y Hy. unfold level_before in *.
      now rewrite <- (before_eq_l bids _ _ _ Heq).
    + assert (Hdx : level_before bids d x).
      { unfold level_before. now apply stop_head. }
      constructor; auto. constructor; auto.
      eapply Forall_impl; [exact Hx|].
      intros y Hy. unfold level_before in *. eapply num_before_trans; eauto.
Qed.

Lemma place_diff_sorted (bids : bool) (d : level T) (l2 : list (level T)) :
  is_number (price d) = true -> no_nan_price l2 ->
  StronglySorted (level_before bids) l2 ->
  stops bids (price d) l2 ->
  StronglySorted (level_before bids) (place_diff d l2).
Proof.
  intros Hd Hn Hs Hstop. unfold place_diff. destruct l2 as [|x r].
  - destruct (num_eq (amount d) num_zero); repeat constructor.
  - simpl in Hstop. pose proof (StronglySorted_inv Hs) as [Hr Hx].
    apply Forall_cons in Hn as [Hnx _].
    destruct (num_eq (price x) (price d)) eqn:Heq.
    + destruct (num_eq (num_add (amount x) (amount d)) num_zero); auto.
      constructor; auto.
    + destruct (num_eq (amount d) num_zero); auto.
      assert (Hdx : level_before bids d x).
      { unfold level_before. now apply stop_head. }
      constructor; auto. constructor; auto.
      eapply Forall_impl; [exact Hx|].
      intros y Hy. unfold level_before in *. eapply num_before_trans; eauto.
Qed.

(** [updateBidAsk] with a price that is not NaN keeps a side sorted, free
    of zero amounts and free of NaN prices. *)
Lemma updateBidAsk_sorted (bids : bool) (d : level T) (side : list (level T)) :
  is_number (price d) = true -> no_nan_price side ->
  StronglySorted (level_before bids) side ->
  StronglySorted (level_before bids) (updateBidAsk d side bids).
Proof.
  intros Hd Hn Hs.
  destruct (num_side_split bids (price d) side) as (l1 & l2 & -> & H1 & H2).
  rewrite num_updateBidAsk_split by assumption.
  apply Forall_app in Hn as [_ Hn2].
  apply StronglySorted_app in Hs as (H12 & Hs1 & Hs2).
  apply StronglySorted_app. split; [|split; [assumption|now apply place_sorted]].
  intros x1 x2 Hx1 Hx2. apply place_elem in Hx2 as [[-> _]|Hx2]; [|now apply H12].
  rewrite Forall_forall in H1. now apply H1.
Qed.

Lemma updateBidAsk_no_zero (bids : bool) (d : level T) (side : list (level T)) :
  no_zero_amount side -> no_zero_amount (updateBidAsk d side bids).
Proof.
  intros Hz. destruct (num_side_split bids (price d) side) as (l1 & l2 & -> & H1 & H2).
  rewrite num_updateBidAsk_split by assumption. unfold no_zero_amount in *.
  apply Forall_app in Hz as [Hz1 Hz2]. apply Forall_app. split; [assumption|].
  apply Forall_forall. intros y Hy. apply place_elem in Hy as [[-> Hd]|Hy]; auto.
  rewrite Forall_forall in Hz2. now apply Hz2.
Qed.

Lemma updateBidAsk_no_nan (bids : bool) (d : level T) (side : list (level T)) :
  is_number (price d) = true -> no_nan_price side ->
  no_nan_price (updateBidAsk d side bids).
Proof.
  intros Hd Hn. destruct (num_side_split bids (price d) side) as (l1 & l2 & -> & H1 & H2).
  rewrite num_updateBidAsk_split by assumption. unfold no_nan_price in *.
  apply Forall_app in Hn as [Hn1 Hn2]. apply Forall_app. split; [assumption|].
  apply Forall_forall. intros y Hy. apply place_elem in Hy as [[-> _]|Hy]; auto.
  rewrite Forall_forall in Hn2. now apply Hn2.
Qed.

Lemma updateBidAskDiff_sorted (bids : bool) (d : level T) (side : list (level T)) :
  is_number (price d) = true -> no_nan_price side ->
  StronglySorted (level_before bids) side ->
  StronglySorted (level_before bids) (updateBidAskDiff d side bids).
Proof.
  intros Hd Hn Hs.
  destruct (num_side_split bids (price d) side) as (l1 & l2 & -> & H1 & H2).
  rewrite num_updateBidAskDiff_split by assumption.
  apply Forall_app in Hn as [_ Hn2].
  apply StronglySorted_app in Hs as (H12 & Hs1 & Hs2).
  apply StronglySorted_app. split; [|split; [assumption|now apply place_diff_sorted]].
  intros x1 x2 Hx1 Hx2.
  apply place_diff_elem in Hx2 as [[-> _]|[Hx2|(x & Hx & Hp & _)]].
  - rewrite Forall_forall in H1. now apply H1.
  - now apply H12.
  - unfold level_before. rewrite Hp. now apply (H12 x1 x).
Qed.

Lemma updateBidAskDiff_no_zero (bids : bool) (d : level T) (side : list (level T)) :
  no_zero_amount side -> no_zero_amount (updateBidAskDiff d side bids).
Proof.
  intros Hz. destruct (num_side_split bids (price d) side) as (l1 & l2 & -> & H1 & H2).
  rewrite num_updateBidAskDiff_split by assumption. unfold no_zero_amount in *.
  apply Forall_app in Hz as [Hz1 Hz2]. apply Forall_app. split; [assumption|].
  apply Forall_forall. intros y Hy.
  apply place_diff_elem in Hy as [[-> Hd]|[Hy|(x & _ & _ & Hy)]]; auto.
  rewrite Forall_forall in Hz2. now apply Hz2.
Qed.

Lemma updateBidAskDiff_no_nan (bids : bool) (d : level T) (side : list (level T)) :
  is_number (price d) = true -> no_nan_price side ->
  no_nan_price (updateBidAskDiff d side bids).
Proof.
  intros Hd Hn. destruct (num_side_split bids (price d) side) as (l1 & l2 & -> & H1 & H2).
  rewrite num_updateBidAskDiff_split by assumption. unfold no_nan_price in *.
  apply Forall_app in Hn as [Hn1 Hn2]. apply Forall_app. split; [assumption|].
  rewrite Forall_forall in Hn2.
  apply Forall_forall. intros y Hy.
  apply place_diff_elem in Hy as [[-> _]|[Hy|(x & Hx & Hp & _)]]; auto.
  rewrite Hp. now apply Hn2.
Qed.

(** *** Applying the same delta again *)

Lemma place_stops (bids : bool) (d : level T) (l2 : list (level T)) :
  StronglySorted (level_before bids) l2 ->
  stops bids (price d) l2 ->
  stops bids (price d) (place d l2).
Proof.
  intros Hs Hstop. unfold place. destruct l2 as [|x r].
  - destruct (num_eq (amount d) num_zero); simpl; [exact I|apply num_before_irrefl].
  - simpl in Hstop. pose proof (StronglySorted_inv Hs) as [_ Hx].
    destruct (num_eq (price x) (price d)) eqn:Heq;
      destruct (num_eq (amount d) num_zero); simpl;
      try apply num_before_irrefl; try exact Hstop.
    destruct r as [|y r']; [exact I|]. simpl.
    apply Forall_cons in Hx as [Hxy _]. unfold level_before in Hxy.
    rewrite (before_eq_l bids _ _ _ Heq) in Hxy. now apply before_asym.
Qed.

Lemma place_place (bids : bool) (d : level T) (l2 : list (level T)) :
  is_number (price d) = true ->
  StronglySorted (level_before bids) l2 ->
  place d (place d l2) = place d l2.
Proof.
  intros Hd Hs. unfold is_number in Hd. destruct l2 as [|x r]; cbn [place].
  - destruct (num_eq (amount d) num_zero) eqn:Hz; cbn [place]; [now rewrite Hz|].
    now rewrite Hd, Hz.
  - pose proof (StronglySorted_inv Hs) as [_ Hx].
    destruct (num_eq (price x) (price d)) eqn:Heq;
      destruct (num_eq (amount d) num_zero) eqn:Hz; cbn [place].
    + destruct r as [|y r']; cbn [place]; [now rewrite Hz|].
      apply Forall_cons in Hx as [Hxy _]. unfold level_before in Hxy.
      rewrite (before_eq_l bids _ _ _ Heq) in Hxy.
      destruct (before_not_eq bids _ _ Hxy) as [_ Hyd]. now rewrite Hyd, Hz.
    + now rewrite Hd, Hz.
    + now rewrite Heq, Hz.
    + now rewrite Hd, Hz.
Qed.

(** X3.  On a sorted side, applying the same delta a second time with
    [updateBidAsk] changes nothing, when the price of the delta is a
    number that is [==] to itself: an int, or a float that is not NaN. *)
Theorem X3_updateBidAsk_idempotent (bids : bool) (side : list (level T))
    (d : level T)
    (Hsorted : Sorted (level_before bids) side)
    (Hd : is_number (price d) = true) :
  updateBidAsk d (updateBidAsk d side bids) bids = updateBidAsk d side bids.
Proof.
  apply num_sorted_strongly in Hsorted.
  destruct (num_side_split bids (price d) side) as (l1 & l2 & -> & H1 & H2).
  apply StronglySorted_app in Hsorted as (_ & _ & Hs2).
  rewrite (num_updateBidAsk_split bids d l1 l2 H1 H2).
  rewrite (num_updateBidAsk_split bids d l1 (place d l2) H1 (place_stops bids d l2 Hs2 H2)).
  now rewrite (place_place bids d l2 Hd Hs2).
Qed.

(** *** The invariant of a side *)

Lemma updateBidAsk_ok (bids : bool) (d : level T) (side : list (level T)) :
  is_number (price d) = true ->
  side_ok bids side -> no_nan_price side ->
  side_ok bids (updateBidAsk d side bids) /\ no_nan_price (updateBidAsk d side bids).
Proof.
  rewrite !num_side_ok_iff. intros Hd [Hs Hz] Hn. split; [split|].
  - now apply updateBidAsk_sorted.
  - now apply updateBidAsk_no_zero.
  - now apply updateBidAsk_no_nan.
Qed.

(** C1.  A bid or ask side that is strictly sorted by its comparator
    (descending for bids, ascending for asks), without two prices that
    are [==], without an amount that is [== 0], and without a NaN price,
    is again so after any finite sequence of deltas whose prices are not
    NaN, applied by [updateBidAsk] one call per delta as in
    [mergeOrderBookDelta], whatever the order of the deltas.  This holds
    for any numbers whose comparisons satisfy [NumberLaws], as those of
    Python ints and Python floats do. *)
Theorem C1_merge_keeps_side_ok (bids : bool) (deltas side : list (level T))
    (Hside : side_ok bids side)
    (Hprices : no_nan_price side)
    (Hdeltas : no_nan_price deltas) :
  side_ok bids (applyDeltas deltas side bids) /\
  no_nan_price (applyDeltas deltas side bids).
Proof.
  unfold applyDeltas. revert side Hside Hprices.
  induction Hdeltas as [|d deltas Hd _ IH]; intros side Hside Hprices; simpl.
  - auto.
  - destruct (updateBidAsk_ok bids d side Hd Hside Hprices) as [Hok Hnn].
    now apply IH.
Qed.

(** X5.  [updateBidAskDiff] with a delta whose price is not NaN keeps the
    invariant of a side without NaN prices: strictly sorted by the
    comparator of the side, no two prices that are [==], no amount that is
    [== 0], no NaN price.  No law of [+] is used. *)
Theorem X5_diff_keeps_side_ok (bids : bool) (side : list (level T)) (d : level T)
    (Hside : side_ok bids side)
    (Hprices : no_nan_price side)
    (Hd : is_number (price d) = true) :
  side_ok bids (updateBidAskDiff d side bids) /\
  no_nan_price (updateBidAskDiff d side bids).
Proof.
  revert Hside. rewrite !num_side_ok_iff. intros [Hs Hz]. split; [split|].
  - now apply updateBidAskDiff_sorted.
  - now apply updateBidAskDiff_no_zero.
  - now apply updateBidAskDiff_no_nan.
Qed.

(** C10.  On a sorted side without a NaN price and without a level whose
    price is [==] to [p], where [p] is not NaN, [updateBidAskDiff] with a
    delta [(p, d)] whose amount is not [== 0] inserts the pair as it is at
    the sorted position: the levels before it and after it are those of
    the side, and the result is sorted.  A negative [d] thus creates a
    level with a negative amount. *)
Theorem C10_diff_on_absent_price (bids : bool) (side : list (level T)) (p d : T)
    (Hsorted : Sorted (level_before bids) side)
    (Hprices : no_nan_price side)
    (Hp : is_number p = true)
    (Habsent : absent p side)
    (Hd : num_eq d num_zero = false) :
  exists l1 l2 : list (level T),
    side = l1 ++ l2 /\
    updateBidAskDiff (p, d) side bids = l1 ++ (p, d) :: l2 /\
    Sorted (level_before bids) (l1 ++ (p, d) :: l2).
Proof.
  destruct (num_side_split bids p side) as (l1 & l2 & -> & H1 & H2).
  exists l1, l2. split; [reflexivity|].
  apply Forall_app in Habsent as [_ Ha2]. apply Forall_app in Hprices as [_ Hn2].
  assert (Hhead : match l2 with
                  | [] => True
                  | x :: _ => num_eq (price x) p = false
                  end).
  { destruct l2 as [|x r]; [exact I|]. now apply Forall_cons in Ha2 as [Hx _]. }
  assert (Hupd : updateBidAskDiff (p, d) (l1 ++ l2) bids = l1 ++ (p, d) :: l2).
  { rewrite (num_updateBidAskDiff_split bids (p, d) l1 l2 H1 H2). unfold place_diff.
    destruct l2 as [|x r]; simpl; [now rewrite Hd|]. simpl in Hhead.
    now rewrite Hhead, Hd. }
  split; [exact Hupd|].
  apply num_sorted_strongly. apply num_sorted_strongly in Hsorted.
  apply StronglySorted_app in Hsorted as (H12 & Hs1 & Hs2).
  apply StronglySorted_app. split; [|split; [assumption|]].
  - intros x1 x2 Hx1 Hx2. apply elem_of_cons in Hx2 as [->|Hx2].
    + rewrite Forall_forall in H1. now apply H1.
    + now apply H12.
  - destruct l2 as [|x r]; [repeat constructor|].
    simpl in H2, Hhead. apply Forall_cons in Hn2 as [Hnx _].
    assert (Hpx : level_before bids (p, d) x).
    { unfold level_before. simpl. now apply stop_head. }
    constructor; [assumption|]. constructor; [assumption|].
    apply StronglySorted_inv in Hs2 as [_ Hx].
    eapply Forall_impl; [exact Hx|]. intros y Hy.
    unfold level_before in *. eapply num_before_trans; eauto.
Qed.

End Laws.

(** *** Python ints: the functions of [OrderBook] *)

Lemma int_search (value : Z) (side : list (level Z)) (key : level Z -> Z)
    (descending : bool) :
  searchIndexToInsertOrUpdate value side key descending =
  OrderBook.searchIndexToInsertOrUpdate value side key descending.
Proof.
  induction side as [|x side IH]; simpl; [reflexivity|].
  unfold compare, OrderBook.compare, num_gt. simpl.
  rewrite Z.gtb_ltb. now rewrite IH.
Qed.

Lemma int_updateBidAsk (d : level Z) (side : list (level Z)) (bids : bool) :
  updateBidAsk d side bids = OrderBook.updateBidAsk d side bids.
Proof.
  unfold updateBidAsk, OrderBook.updateBidAsk, found_at, OrderBook.found_at, num_ne.
  now rewrite int_search.
Qed.

Lemma int_updateBidAskDiff (d : level Z) (side : list (level Z)) (bids : bool) :
  updateBidAskDiff d side bids = OrderBook.updateBidAskDiff d side bids.
Proof.
  unfold updateBidAskDiff, OrderBook.updateBidAskDiff, num_ne.
  now rewrite int_search.
Qed.

(** *** Float sides *)

Ltac float_sorted :=
  apply num_sorted_strongly; repeat constructor; vm_compute; reflexivity.

Ltac float_side_ok :=
  apply num_side_ok_iff; split; repeat constructor; vm_compute; reflexivity.

Ltac float_no_nan := repeat constructor; vm_compute; reflexivity.

Lemma C1_merge_keeps_side_ok_witness :
  side_ok true
    (applyDeltas
       [Samples.float_level 100 0; Samples.float_level 102 1;
        Samples.float_level 101 7; Samples.float_level 99 3;
        Samples.float_level 102 0]
       Samples.float_bids true) /\
  no_nan_price
    (applyDeltas
       [Samples.float_level 100 0; Samples.float_level 102 1;
        Samples.float_level 101 7; Samples.float_level 99 3;
        Samples.float_level 102 0]
       Samples.float_bids true).
Proof.
  apply (C1_merge_keeps_side_ok true
           [Samples.float_level 100 0; Samples.float_level 102 1;
            Samples.float_level 101 7; Samples.float_level 99 3;
            Samples.float_level 102 0]
           Samples.float_bids).
  - float_side_ok.
  - float_no_nan.
  - float_no_nan.
Defined.

(** A delta whose price is NaN is put first, whatever the side holds, and
    every later delta is then put before it: the bid side
    [[[101.0, 2.0], [100.0, 5.0]]] after the deltas [[nan, 1.0]] and
    [[100.0, 7.0]] is neither sorted nor free of repeated prices. *)
Lemma C1_nan_price_breaks_the_side :
  side_ok true Samples.float_bids /\
  applyDeltas [Samples.nan_level 1; Samples.float_level 100 7]
    Samples.float_bids true =
    [Samples.float_level 100 7; Samples.nan_level 1;
     Samples.float_level 101 2; Samples.float_level 100 5] /\
  ~ Sorted (level_before true)
      [Samples.float_level 100 7; Samples.nan_level 1;
       Samples.float_level 101 2; Samples.float_level 100 5] /\
  ~ distinct_prices
      [Samples.float_level 100 7; Samples.nan_level 1;
       Samples.float_level 101 2; Samples.float_level 100 5].
Proof.
  split; [float_side_ok|]. split; [reflexivity|]. split.
  - intros Hs. apply Sorted_inv in Hs as [_ Hhd]. apply HdRel_inv in Hhd.
    vm_compute in Hhd. discriminate.
  - unfold distinct_prices. intros Hd. inversion Hd as [|x l Hx _]; subst.
    apply Forall_cons in Hx as [_ Hx]. apply Forall_cons in Hx as [_ Hx].
    apply Forall_cons in Hx as [Hx _]. vm_compute in Hx. discriminate.
Qed.

Lemma X3_updateBidAsk_idempotent_witness :
  updateBidAsk (Samples.float_level 100 7)
    (updateBidAsk (Samples.float_level 100 7) Samples.float_bids true) true =
  updateBidAsk (Samples.float_level 100 7) Samples.float_bids true.
Proof.
  apply (X3_updateBidAsk_idempotent true Samples.float_bids (Samples.float_level 100 7)).
  - float_sorted.
  - reflexivity.
Defined.

Lemma X5_diff_keeps_side_ok_witness :
  side_ok true (updateBidAskDiff (Samples.float_level 100 (-5)) Samples.float_bids true) /\
  no_nan_price
    (updateBidAskDiff (Samples.float_level 100 (-5)) Samples.float_bids true).
Proof.
  apply (X5_diff_keeps_side_ok true Samples.float_bids (Samples.float_level 100 (-5))).
  - float_side_ok.
  - float_no_nan.
  - reflexivity.
Defined.

Lemma C10_diff_on_absent_price_witness :
  exists l1 l2 : list (level spec_float),
    Samples.float_asks = l1 ++ l2 /\
    updateBidAskDiff (float_of_Z 98, float_of_Z (-5)) Samples.float_asks false =
      l1 ++ (float_of_Z 98, float_of_Z (-5)) :: l2 /\
    Sorted (level_before false) (l1 ++ (float_of_Z 98, float_of_Z (-5)) :: l2).
Proof.
  apply (C10_diff_on_absent_price false Samples.float_asks (float_of_Z 98)
           (float_of_Z (-5))).
  - float_sorted.
  - float_no_nan.
  - reflexivity.
  - repeat constructor; vm_compute; reflexivity.
  - reflexivity.
Defined.

(** No level of the ask side [[[99.0, 1.0], [100.0, 5.0]]] has a price
    that is [==] to NaN, yet the delta [[nan, 2.0]] is put first, where
    the side is not sorted. *)
Lemma C10_nan_price_is_put_first :
  Sorted (level_before false) Samples.float_asks /\
  absent nan Samples.float_asks /\
  num_eq (float_of_Z 2) num_zero = false /\
  updateBidAskDiff (Samples.nan_level 2) Samples.float_asks false =
    Samples.nan_level 2 :: Samples.float_asks /\
  ~ Sorted (level_before false) (Samples.nan_level 2 :: Samples.float_asks).
Proof.
  split; [float_sorted|]. split; [repeat constructor; vm_compute; reflexivity|].
  split; [reflexivity|]. split; [reflexivity|].
  intros Hs. apply Sorted_inv in Hs as [_ Hhd]. apply HdRel_inv in Hhd.
  vm_compute in Hhd. discriminate.
Qed.

End BookFacts.
